(** * Blog platform: SEO analyzer, upload handler, sitemap and media
      library

    A shallow embedding of [src/lib/seo-utils.ts] (the SEO scoring
    heuristic), of the [POST] handler of [src/app/api/upload/route.ts],
    of [src/app/sitemap.ts] and of the handlers of
    [src/app/api/admin/media/route.ts] with the module state they share,
    together with the part of the JavaScript host they run on: strings
    as sequences of UTF-16 code units, a backtracking regular-expression
    matcher with the [String.prototype] operations built on it, and
    IEEE 754 binary64 numbers. *)

From Stdlib Require Import String Ascii.
From Stdlib Require Import ZArith NArith List Bool Lia.
From Stdlib Require Import Permutation Sorted.
From Stdlib Require Import Floats.SpecFloat.
Import ListNotations.

Local Open Scope list_scope.

(** ** JavaScript strings *)

(** A JavaScript string is a finite sequence of UTF-16 code units. *)
Definition code_unit := N.
Definition jsstring := list code_unit.

(** Source literals are ASCII; [str] reads one as a [jsstring]. *)
Definition str (s : string) : jsstring :=
  map N_of_ascii (list_ascii_of_string s).

Definition in_range (c : code_unit) (r : N * N) : bool :=
  (N.leb (fst r) c && N.leb c (snd r))%bool.

Definition in_ranges (c : code_unit) (rs : list (N * N)) : bool :=
  existsb (in_range c) rs.

(** [\s]: WhiteSpace and LineTerminator of ECMAScript:
    TAB LF VT FF CR SP, NBSP, U+1680, U+2000..U+200A, U+2028, U+2029,
    U+202F, U+205F, U+3000, U+FEFF. *)
Definition space_ranges : list (N * N) :=
  [(9, 13); (32, 32); (160, 160); (5760, 5760); (8192, 8202);
   (8232, 8233); (8239, 8239); (8287, 8287); (12288, 12288);
   (65279, 65279)]%N.

(** [\w]: [A-Za-z0-9_]. *)
Definition word_ranges : list (N * N) :=
  [(97, 122); (65, 90); (48, 57); (95, 95)]%N.

(** Line terminators, excluded by [.]: LF CR U+2028 U+2029. *)
Definition line_terminator_ranges : list (N * N) :=
  [(10, 10); (13, 13); (8232, 8233)]%N.

Definition is_space (c : code_unit) : bool := in_ranges c space_ranges.
Definition is_word (c : code_unit) : bool := in_ranges c word_ranges.

Fixpoint eqb_str (s t : jsstring) : bool :=
  match s, t with
  | [], [] => true
  | c :: s', d :: t' => (N.eqb c d && eqb_str s' t')%bool
  | _, _ => false
  end.

(** [String.prototype.startsWith] *)
Fixpoint startsWith (s p : jsstring) : bool :=
  match p, s with
  | [], _ => true
  | d :: p', c :: s' => (N.eqb c d && startsWith s' p')%bool
  | _ :: _, [] => false
  end.

(** [String.prototype.includes] *)
Fixpoint includes (s p : jsstring) : bool :=
  (startsWith s p ||
   match s with
   | [] => false
   | _ :: s' => includes s' p
   end)%bool.

(** [Array.prototype.includes] on an array of strings *)
Definition array_includes (l : list jsstring) (w : jsstring) : bool :=
  existsb (eqb_str w) l.

Fixpoint trimStart (s : jsstring) : jsstring :=
  match s with
  | c :: s' => if is_space c then trimStart s' else s
  | [] => []
  end.

(** [String.prototype.trim] *)
Definition trim (s : jsstring) : jsstring :=
  rev (trimStart (rev (trimStart s))).

(** Decimal rendering of a non-negative integer, as template literals
    print [length]s and counts. *)
Definition digit (n : N) : code_unit := (48 + n)%N.

Fixpoint digits_fuel (fuel : nat) (n : N) (acc : jsstring) : jsstring :=
  match fuel with
  | O => acc
  | S f =>
      let acc' := digit (n mod 10) :: acc in
      if (n <? 10)%N then acc' else digits_fuel f (n / 10) acc'
  end.

Definition N_to_str (n : N) : jsstring :=
  digits_fuel (S (N.to_nat (N.log2 n))) n [].

Definition Z_to_str (z : Z) : jsstring :=
  match z with
  | Zneg p => str "-" ++ N_to_str (Npos p)
  | _ => N_to_str (Z.to_N z)
  end.

Definition nat_to_str (n : nat) : jsstring := N_to_str (N.of_nat n).

(** ** Regular expressions *)

(** The abstract syntax of the patterns the program uses.  A character
    matcher is a possibly negated set of code-unit ranges. *)
Inductive regex : Type :=
| Empty
| Cls (negated : bool) (ranges : list (N * N))
| Seq (r1 r2 : regex)
| Alt (r1 r2 : regex)
| Repeat (r : regex) (min : nat) (max : option nat) (greedy : bool)
| Group (index : nat) (r : regex)
| Bol
| Eol
| WordBoundary (positive : bool).

(** The matcher's state: the code unit before the current position, the
    input from the current position on, and the captures so far. *)
Record mstate : Type := MState {
  before : option code_unit;
  rest : jsstring;
  caps : list (nat * jsstring)
}.

Definition consumed (from to : jsstring) : jsstring :=
  firstn (length from - length to) from.

Fixpoint groups (r : regex) : list nat :=
  match r with
  | Seq r1 r2 | Alt r1 r2 => groups r1 ++ groups r2
  | Repeat r' _ _ _ => groups r'
  | Group n r' => n :: groups r'
  | _ => []
  end.

Definition clear_caps (gs : list nat) (x : mstate) : mstate :=
  MState (before x) (rest x)
    (filter (fun c => negb (existsb (Nat.eqb (fst c)) gs)) (caps x)).

Definition orelse {A} (a b : option A) : option A :=
  match a with Some _ => a | None => b end.

Definition pred_max (max : option nat) : option nat :=
  match max with Some n => Some (Nat.pred n) | None => None end.

Section Matcher.
Variable A : Type.

(** The loop of a quantifier (RepeatMatcher): [m] matches the
    quantified atom, [gs] are the capture groups inside it, which every
    iteration resets, and [k] is the continuation of the quantifier.
    An iteration made after the minimum is reached fails if it matched
    the empty string.  The fuel bounds [min] plus the remaining input,
    which decreases at every iteration. *)
Fixpoint repeat_loop (m : mstate -> (mstate -> option A) -> option A)
  (gs : list nat) (k : mstate -> option A) (greedy : bool)
  (fuel : nat) (min : nat) (max : option nat) (x : mstate)
  {struct fuel} : option A :=
  match max with
  | Some O => k x
  | _ =>
      match fuel with
      | O => None
      | S fuel' =>
          let xr := clear_caps gs x in
          let d := fun y =>
            if (Nat.eqb min 0 &&
                Nat.eqb (length (rest y)) (length (rest x)))%bool
            then None
            else repeat_loop m gs k greedy fuel' (Nat.pred min)
                             (pred_max max) y in
          if negb (Nat.eqb min 0) then m xr d
          else if greedy then orelse (m xr d) (k x)
          else orelse (k x) (m xr d)
      end
  end.

(** Backtracking matcher in continuation-passing style, after the
    ECMAScript pattern semantics: the alternatives of a disjunction are
    tried left to right, and a quantifier is greedy or lazy. *)
Fixpoint rmatch (r : regex) (x : mstate) (k : mstate -> option A)
  {struct r} : option A :=
  match r with
  | Empty => k x
  | Cls neg rs =>
      match rest x with
      | c :: tl =>
          if xorb neg (in_ranges c rs)
          then k (MState (Some c) tl (caps x))
          else None
      | [] => None
      end
  | Seq r1 r2 => rmatch r1 x (fun y => rmatch r2 y k)
  | Alt r1 r2 => orelse (rmatch r1 x k) (rmatch r2 x k)
  | Group n r' =>
      rmatch r' x
        (fun y => k (MState (before y) (rest y)
                       ((n, consumed (rest x) (rest y)) :: caps y)))
  | Repeat r' min max greedy =>
      repeat_loop (rmatch r') (groups r') k greedy
        (S (min + length (rest x))) min max x
  | Bol => match before x with None => k x | Some _ => None end
  | Eol => match rest x with [] => k x | _ :: _ => None end
  | WordBoundary positive =>
      let a := match before x with Some c => is_word c | None => false end in
      let b := match rest x with c :: _ => is_word c | [] => false end in
      if xorb (xorb a b) (negb positive) then k x else None
  end.
End Matcher.

Arguments rmatch {A} r x k.

(** One match attempt at the current position (a sticky [exec]). *)
Definition match_here (r : regex) (b : option code_unit) (s : jsstring)
  : option mstate :=
  rmatch r (MState b s []) Some.

(** [RegExpBuiltinExec] without the sticky flag: the leftmost position
    at which the pattern matches.  Returns the part skipped, the matched
    substring and the final state. *)
Fixpoint search (r : regex) (b : option code_unit) (s : jsstring)
  {struct s} : option (jsstring * jsstring * mstate) :=
  match match_here r b s with
  | Some y => Some ([], consumed s (rest y), y)
  | None =>
      match s with
      | [] => None
      | c :: tl =>
          match search r (Some c) tl with
          | Some (skip, mt, y) => Some (c :: skip, mt, y)
          | None => None
          end
      end
  end.

(** [RegExp.prototype.test] for a pattern without the global flag. *)
Definition test (r : regex) (s : jsstring) : bool :=
  match search r None s with Some _ => true | None => false end.

(** [String.prototype.match] for a pattern without the global flag:
    the matched substring and the captures. *)
Definition match_first (r : regex) (s : jsstring)
  : option (jsstring * list (nat * jsstring)) :=
  match search r None s with
  | Some (_, mt, y) => Some (mt, caps y)
  | None => None
  end.

Fixpoint capture (n : nat) (cs : list (nat * jsstring)) : option jsstring :=
  match cs with
  | [] => None
  | (i, v) :: cs' => if Nat.eqb i n then Some v else capture n cs'
  end.

Definition shift (c : code_unit) (r : list (jsstring * jsstring) * jsstring)
  : list (jsstring * jsstring) * jsstring :=
  match r with
  | ([], trail) => ([], c :: trail)
  | ((skip, mt) :: ms, trail) => ((c :: skip, mt) :: ms, trail)
  end.

(** The loop shared by [match] and [replace] with the global flag:
    successive leftmost matches from [lastIndex], which after an empty
    match advances by one code unit.  Returns, for each match, the text
    skipped before it and the match, and the text after the last match. *)
Fixpoint scan (fuel : nat) (r : regex) (b : option code_unit) (s : jsstring)
  : list (jsstring * jsstring) * jsstring :=
  match fuel with
  | O => ([], s)
  | S f =>
      match search r b s with
      | None => ([], s)
      | Some (skip, mt, y) =>
          match mt, rest y with
          | [], [] => ([(skip, [])], [])
          | [], c :: tl =>
              let '(ms, trail) := shift c (scan f r (Some c) tl) in
              ((skip, []) :: ms, trail)
          | _ :: _, _ =>
              let '(ms, trail) := scan f r (before y) (rest y) in
              ((skip, mt) :: ms, trail)
          end
      end
  end.

(** [s.match(/r/g) || []] *)
Definition match_all (r : regex) (s : jsstring) : list jsstring :=
  map snd (fst (scan (S (length s)) r None s)).

(** [s.replace(/r/g, '')] *)
Definition remove_all (r : regex) (s : jsstring) : jsstring :=
  let '(ms, trail) := scan (S (length s)) r None s in
  concat (map fst ms) ++ trail.

(** The loop of [RegExp.prototype[Symbol.split]]: [acc] holds, reversed,
    the text since the last separator, [s] the text from the position
    [q] at which a separator is tried next.  A separator that ends where
    the previous one ended is skipped. *)
Fixpoint split_loop (fuel : nat) (r : regex) (b : option code_unit)
  (acc : jsstring) (s : jsstring) : list jsstring :=
  match fuel with
  | O => [rev acc ++ s]
  | S f =>
      match s with
      | [] => [rev acc]
      | c :: tl =>
          match match_here r b s with
          | None => split_loop f r (Some c) (c :: acc) tl
          | Some y =>
              match acc, Nat.eqb (length (rest y)) (length s) with
              | [], true => split_loop f r (Some c) (c :: acc) tl
              | _, _ => rev acc :: split_loop f r (before y) [] (rest y)
              end
          end
      end
  end.

(** [String.prototype.split] with a separator pattern that has no
    capture groups and no limit. *)
Definition split (r : regex) (s : jsstring) : list jsstring :=
  match s with
  | [] => match match_here r None [] with Some _ => [] | None => [[]] end
  | _ => split_loop (S (2 * length s)) r None [] s
  end.

(** *** Pattern literals of the program *)

Definition cu (a : ascii) : code_unit := N_of_ascii a.

(** A literal character of a pattern without the [i] flag. *)
Definition lit (a : ascii) : regex := Cls false [(cu a, cu a)].

(** A literal character of a pattern with the [i] flag.  Canonicalize
    maps a Basic Latin letter to its upper case and no code unit above
    127 to a Basic Latin one, so a letter matches its two cases and any
    other literal only itself. *)
Definition ilit (a : ascii) : regex :=
  let c := cu a in
  if in_range c (97, 122)%N then Cls false [(c, c); (c - 32, c - 32)%N]
  else if in_range c (65, 90)%N then Cls false [(c, c); (c + 32, c + 32)%N]
  else Cls false [(c, c)].

Definition seqs (rs : list regex) : regex := fold_right Seq Empty rs.
Definition star (r : regex) : regex := Repeat r 0 None true.
Definition plus (r : regex) : regex := Repeat r 1 None true.
Definition ilits (s : string) : regex :=
  seqs (map ilit (list_ascii_of_string s)).

Definition gt_sign : N * N := (cu ">", cu ">").
Definition quotes : list (N * N) := [(34, 34); (39, 39)]%N.

(** [/[^\w\s]/g] *)
Definition re_punctuation : regex := Cls true (word_ranges ++ space_ranges).
(** [/\s+/] *)
Definition re_spaces : regex := plus (Cls false space_ranges).
(** [/<[^>]*>/g] *)
Definition re_tag : regex :=
  seqs [lit "<"; star (Cls true [gt_sign]); lit ">"].
(** [/\n\n+/] *)
Definition re_blank_line : regex := seqs [lit "010"; plus (lit "010")].
(** [/<h1[^>]*>/gi], [/<h2[^>]*>/gi], [/<h3[^>]*>/gi] *)
Definition re_heading (level : ascii) : regex :=
  seqs [ilit "<"; ilit "h"; ilit level; star (Cls true [gt_sign]); ilit ">"].
(** The anchor pattern of [countLinks], flags [gi]: [<a], any run of
    non-[>], [href=], a quote (double or single), a captured run of
    non-quotes, a quote, any run of non-[>], and [>]. *)
Definition re_anchor : regex :=
  seqs [ilit "<"; ilit "a"; star (Cls true [gt_sign]); ilits "href=";
        Cls false quotes; Group 1 (star (Cls true quotes)); Cls false quotes;
        star (Cls true [gt_sign]); ilit ">"].
(** The [href] pattern of [countLinks], flag [i]: [href=], a quote, a
    captured run of non-quotes, a quote. *)
Definition re_href : regex :=
  seqs [ilits "href="; Cls false quotes; Group 1 (star (Cls true quotes));
        Cls false quotes].
(** [/<img[^>]*>/gi] *)
Definition re_img : regex :=
  seqs [ilits "<img"; star (Cls true [gt_sign]); ilit ">"].
(** The [alt] pattern of [countImages], flag [i]: [alt=], a quote, a
    non-empty run of non-quotes, a quote. *)
Definition re_alt : regex :=
  seqs [ilits "alt="; Cls false quotes; plus (Cls true quotes);
        Cls false quotes].
(** [/[.!?]+/] *)
Definition re_sentence_end : regex :=
  plus (Cls false [(cu ".", cu "."); (cu "!", cu "!"); (cu "?", cu "?")]).
(** [/\b[a-z]+\b/g] *)
Definition re_lower_word : regex :=
  seqs [WordBoundary true; plus (Cls false [(97, 122)%N]); WordBoundary true].
(** [/[aeiouy]{1,2}/g] *)
Definition re_vowels : regex :=
  Repeat (Cls false (map (fun a => (cu a, cu a))
                       ["a"; "e"; "i"; "o"; "u"; "y"]%char))
         1 (Some 2) true.
(** [/^[a-z0-9-]+$/] *)
Definition re_slug : regex :=
  seqs [Bol; plus (Cls false [(97, 122); (48, 57); (45, 45)]%N); Eol].

(** *** Patterns built at run time *)

(** The error [new RegExp] throws on an invalid pattern. *)
Inductive js_error : Type := SyntaxError.

(** What evaluating an expression can do: complete with a value, throw,
    or meet a pattern outside the fragment of the pattern language
    parsed here (a braced quantifier, a group that starts with a
    question mark, a back-reference or an escape not listed below).
    For such a pattern the analyzer asks the host, [RegExp_host] below,
    so that [analyzeSEO] itself always completes or throws. *)
Inductive completion (A : Type) : Type :=
| Normal (a : A)
| Throw (e : js_error)
| OutOfFragment.
Arguments Normal {A} a.
Arguments Throw {A} e.
Arguments OutOfFragment {A}.

Definition bind {A B} (c : completion A) (f : A -> completion B)
  : completion B :=
  match c with
  | Normal a => f a
  | Throw e => Throw e
  | OutOfFragment => OutOfFragment
  end.

Declare Scope completion_scope.
Delimit Scope completion_scope with completion.
Notation "x <- c ;; k" := (bind c (fun x => k))
  (at level 61, c at next level, right associativity) : completion_scope.
Notation "' p <- c ;; k" := (bind c (fun x => let 'p := x in k))
  (at level 61, p pattern, c at next level, right associativity)
  : completion_scope.
Local Open Scope completion_scope.

Definition is_alnum (c : code_unit) : bool :=
  in_ranges c [(97, 122); (65, 90); (48, 57)]%N.

(** [\] followed by [c], outside a character class. *)
Definition parse_escape (c : code_unit) : completion regex :=
  if N.eqb c (cu "b") then Normal (WordBoundary true)
  else if N.eqb c (cu "B") then Normal (WordBoundary false)
  else if N.eqb c (cu "d") then Normal (Cls false [(48, 57)%N])
  else if N.eqb c (cu "D") then Normal (Cls true [(48, 57)%N])
  else if N.eqb c (cu "w") then Normal (Cls false word_ranges)
  else if N.eqb c (cu "W") then Normal (Cls true word_ranges)
  else if N.eqb c (cu "s") then Normal (Cls false space_ranges)
  else if N.eqb c (cu "S") then Normal (Cls true space_ranges)
  else if N.eqb c (cu "t") then Normal (Cls false [(9, 9)%N])
  else if N.eqb c (cu "n") then Normal (Cls false [(10, 10)%N])
  else if N.eqb c (cu "v") then Normal (Cls false [(11, 11)%N])
  else if N.eqb c (cu "f") then Normal (Cls false [(12, 12)%N])
  else if N.eqb c (cu "r") then Normal (Cls false [(13, 13)%N])
  else if is_alnum c then OutOfFragment
  else Normal (Cls false [(c, c)]).

Definition is_assertion (r : regex) : bool :=
  match r with
  | Bol | Eol | WordBoundary _ => true
  | _ => false
  end.

(** The quantifier, if any, that follows an atom. *)
Definition parse_quantifier (atom : regex) (s : jsstring)
  : completion (regex * jsstring) :=
  let lazy (min : nat) (max : option nat) (tl : jsstring) :=
    match tl with
    | q :: tl' =>
        if N.eqb q (cu "?") then Normal (Repeat atom min max false, tl')
        else Normal (Repeat atom min max true, tl)
    | [] => Normal (Repeat atom min max true, tl)
    end in
  match s with
  | c :: tl =>
      if is_assertion atom then Normal (atom, s)
      else if N.eqb c (cu "*") then lazy 0 None tl
      else if N.eqb c (cu "+") then lazy 1 None tl
      else if N.eqb c (cu "?") then lazy 0 (Some 1) tl
      else Normal (atom, s)
  | [] => Normal (atom, s)
  end.

(** The members of a character class up to the closing bracket.  Escapes
    inside a class are outside the fragment. *)
Fixpoint parse_class (s : jsstring) (acc : list (N * N))
  : completion (list (N * N) * jsstring) :=
  match s with
  | [] => Throw SyntaxError
  | c :: tl =>
      if N.eqb c (cu "]") then Normal (rev acc, tl)
      else if N.eqb c (cu "\") then OutOfFragment
      else
        match tl with
        | d :: e :: tl' =>
            if (N.eqb d (cu "-") && negb (N.eqb e (cu "]")))%bool then
              if N.eqb e (cu "\") then OutOfFragment
              else if N.ltb e c then Throw SyntaxError
              else parse_class tl' ((c, e) :: acc)
            else parse_class tl ((c, c) :: acc)
        | _ => parse_class tl ((c, c) :: acc)
        end
  end.

Definition join_alt (d : regex * option regex) : regex :=
  match d with
  | (a, Some b) => Alt a b
  | (a, None) => a
  end.

(** A Disjunction, up to the end of the pattern or an unmatched closing
    parenthesis: its first alternative and, after a bar, the others.
    [n] is the number of capture groups opened so far. *)
Fixpoint parse_disjunction (fuel : nat) (s : jsstring) (n : nat)
  : completion ((regex * option regex) * jsstring * nat) :=
  match fuel with
  | O => OutOfFragment
  | S f =>
      let continue (atom : regex) (tl : jsstring) (n : nat) :=
        '(t, tl') <- parse_quantifier atom tl ;;
        '(a, bs, tl'', n') <- parse_disjunction f tl' n ;;
        Normal ((Seq t a, bs), tl'', n') in
      match s with
      | [] => Normal ((Empty, None), [], n)
      | c :: tl =>
          if N.eqb c (cu ")") then Normal ((Empty, None), s, n)
          else if N.eqb c (cu "|") then
            '(d, tl', n') <- parse_disjunction f tl n ;;
            Normal ((Empty, Some (join_alt d)), tl', n')
          else if (N.eqb c (cu "*") || N.eqb c (cu "+") ||
                   N.eqb c (cu "?"))%bool then Throw SyntaxError
          else if N.eqb c (cu "{") then OutOfFragment
          else if N.eqb c (cu "^") then continue Bol tl n
          else if N.eqb c (cu "$") then continue Eol tl n
          else if N.eqb c (cu ".") then
            continue (Cls true line_terminator_ranges) tl n
          else if N.eqb c (cu "\") then
            match tl with
            | [] => Throw SyntaxError
            | e :: tl' => atom <- parse_escape e ;; continue atom tl' n
            end
          else if N.eqb c (cu "[") then
            match tl with
            | e :: tl' =>
                if N.eqb e (cu "^") then
                  '(rs, tl'') <- parse_class tl' [] ;;
                  continue (Cls true rs) tl'' n
                else
                  '(rs, tl'') <- parse_class tl [] ;;
                  continue (Cls false rs) tl'' n
            | [] => Throw SyntaxError
            end
          else if N.eqb c (cu "(") then
            match tl with
            | e :: _ =>
                if N.eqb e (cu "?") then OutOfFragment
                else
                  '(d, tl', n') <- parse_disjunction f tl (S n) ;;
                  match tl' with
                  | _ :: tl'' => continue (Group (S n) (join_alt d)) tl'' n'
                  | [] => Throw SyntaxError
                  end
            | [] => Throw SyntaxError
            end
          else continue (Cls false [(c, c)]) tl n
      end
  end.

(** [new RegExp(pattern, 'g')] on the fragment: the compiled pattern or
    a SyntaxError; [OutOfFragment] for a pattern with a construct that
    is left to the host. *)
Definition RegExp_new (pattern : jsstring) : completion regex :=
  '(d, tl, _) <- parse_disjunction (S (length pattern)) pattern 0 ;;
  match tl with
  | [] => Normal (join_alt d)
  | _ :: _ => Throw SyntaxError
  end.

(** ** Numbers *)

(** A JavaScript number is an IEEE 754 binary64 value. *)
Definition float := spec_float.
Definition prec : Z := 53.
Definition emax : Z := 1024.

Definition of_Z (z : Z) : float := binary_normalize prec emax z 0 false.
Definition of_nat (n : nat) : float := of_Z (Z.of_nat n).
Definition fadd : float -> float -> float := SFadd prec emax.
Definition fsub : float -> float -> float := SFsub prec emax.
Definition fmul : float -> float -> float := SFmul prec emax.
Definition fdiv : float -> float -> float := SFdiv prec emax.
(** [a <= b], [a < b]; false when either side is NaN. *)
Definition fle : float -> float -> bool := SFleb.
Definition flt : float -> float -> bool := SFltb.

(** A decimal literal [n/d] of the source: the binary64 value nearest to
    it, which is the correctly rounded quotient of the two integers. *)
Definition decimal (n d : Z) : float := fdiv (of_Z n) (of_Z d).

Definition is_nan (x : float) : bool :=
  match x with S754_nan => true | _ => false end.

Definition is_neg_zero (x : float) : bool :=
  match x with S754_zero true => true | _ => false end.

(** [Math.min] and [Math.max] of two numbers: NaN if either is NaN, and
    -0 counts as smaller than +0. *)
Definition Math_min (a b : float) : float :=
  if (is_nan a || is_nan b)%bool then S754_nan
  else if flt b a then b
  else if flt a b then a
  else if is_neg_zero b then b else a.

Definition Math_max (a b : float) : float :=
  if (is_nan a || is_nan b)%bool then S754_nan
  else if flt a b then b
  else if flt b a then a
  else if is_neg_zero a then b else a.

(** [n] printed with at least [f + 1] digits and a point before the last
    [f] of them. *)
Definition fixed_digits (f : nat) (n : N) : jsstring :=
  let ds := N_to_str n in
  let ds := repeat (digit 0) (S f - length ds) ++ ds in
  match f with
  | O => ds
  | _ => firstn (length ds - f) ds ++ str "." ++ skipn (length ds - f) ds
  end.

(** [Number.prototype.toFixed(f)] for a number below 10^21 in magnitude:
    the integer [n] nearest to [x * 10^f], the larger one on a tie,
    printed with [f] fraction digits.  (From 10^21 on JavaScript prints
    in exponent notation; no quantity printed by the analyzer gets there,
    a string having fewer than 2^53 code units.) *)
Definition toFixed (f : nat) (x : float) : jsstring :=
  match x with
  | S754_nan => str "NaN"
  | S754_infinity s => (if s then str "-" else []) ++ str "Infinity"
  | S754_zero _ => fixed_digits f 0
  | S754_finite s m e =>
      let scaled := (Zpos m * 10 ^ Z.of_nat f)%Z in
      let n := match e with
               | Zneg p => ((2 * scaled + 2 ^ Zpos p) / 2 ^ (Zpos p + 1))%Z
               | _ => (scaled * 2 ^ e)%Z
               end in
      (if s then str "-" else []) ++ fixed_digits f (Z.to_N n)
  end.

(** [Math.ceil(x)] printed by a template literal, for [x] below 10^21 in
    magnitude; a negative zero prints as [0]. *)
Definition ceil_to_str (x : float) : jsstring :=
  match x with
  | S754_nan => str "NaN"
  | S754_infinity s => (if s then str "-" else []) ++ str "Infinity"
  | S754_zero _ => str "0"
  | S754_finite s m e =>
      let up := match e with
                | Zneg p => ((Zpos m + 2 ^ Zpos p - 1) / 2 ^ Zpos p)%Z
                | _ => (Zpos m * 2 ^ e)%Z
                end in
      let down := match e with
                  | Zneg p => (Zpos m / 2 ^ Zpos p)%Z
                  | _ => (Zpos m * 2 ^ e)%Z
                  end in
      Z_to_str (if s then (- down)%Z else up)
  end.

(** ** The SEO analysis records ([src/lib/seo-utils.ts]) *)

Inductive Status : Type := good | warning | error.

(** [value: string | number] *)
Inductive Value : Type :=
| Num (n : nat)
| Text (s : jsstring).

Module SEOCheck.
Record t : Type := Make {
  status : Status;
  value : Value;
  message : jsstring;
  score : Z
}.
End SEOCheck.

Module ContentCheck.
Record t : Type := Make {
  base : SEOCheck.t;
  wordCount : nat
}.
End ContentCheck.

Module KeywordCheck.
Record t : Type := Make {
  base : SEOCheck.t;
  keyword : jsstring;
  density : float;
  inTitle : bool;
  inFirstParagraph : bool;
  inLastParagraph : bool;
  count : nat
}.
End KeywordCheck.

Module HeadingCheck.
Record t : Type := Make {
  base : SEOCheck.t;
  h1Count : nat;
  h2Count : nat;
  h3Count : nat
}.
End HeadingCheck.

Module LinkCheck.
Record t : Type := Make {
  base : SEOCheck.t;
  internal : nat;
  external : nat
}.
End LinkCheck.

Module ImageCheck.
Record t : Type := Make {
  base : SEOCheck.t;
  total : nat;
  withAlt : nat
}.
End ImageCheck.

Module ReadabilityCheck.
Record t : Type := Make {
  base : SEOCheck.t;
  grade : float
}.
End ReadabilityCheck.

Module SEOAnalysis.
Record t : Type := Make {
  score : Z;
  title : SEOCheck.t;
  description : SEOCheck.t;
  content : ContentCheck.t;
  keyword : KeywordCheck.t;
  headings : HeadingCheck.t;
  links : LinkCheck.t;
  images : ImageCheck.t;
  slug : SEOCheck.t;
  readability : ReadabilityCheck.t;
  suggestions : list jsstring
}.
End SEOAnalysis.

Coercion ContentCheck.base : ContentCheck.t >-> SEOCheck.t.
Coercion KeywordCheck.base : KeywordCheck.t >-> SEOCheck.t.
Coercion HeadingCheck.base : HeadingCheck.t >-> SEOCheck.t.
Coercion LinkCheck.base : LinkCheck.t >-> SEOCheck.t.
Coercion ImageCheck.base : ImageCheck.t >-> SEOCheck.t.
Coercion ReadabilityCheck.base : ReadabilityCheck.t >-> SEOCheck.t.

(** ** The text utilities *)

Definition stopWords : list jsstring :=
  map str
    ["the"; "a"; "an"; "and"; "or"; "but"; "in"; "on"; "at"; "to"; "for";
     "of"; "with"; "by"; "from"; "as"; "is"; "was"; "are"; "be"; "been";
     "being"; "have"; "has"; "had"; "do"; "does"; "did"; "will"; "would";
     "should"; "could"; "may"; "might"; "must"; "can"; "how"; "what";
     "when"; "where"; "why"; "which"; "who"; "best"; "top"; "guide";
     "tutorial"; "2024"; "2025"]%string.

Definition nonempty (s : jsstring) : bool := Nat.ltb 0 (length s).

(** [countWords] *)
Definition countWords (text : jsstring) : nat :=
  length (filter nonempty (split re_spaces (trim text))).

(** [getFirstParagraph]: [paragraphs[0] || ''] *)
Definition getFirstParagraph (content : jsstring) : jsstring :=
  let text := remove_all re_tag content in
  let paragraphs := split re_blank_line text in
  hd [] paragraphs.

(** [getLastParagraph]: [paragraphs[paragraphs.length - 1] || ''] *)
Definition getLastParagraph (content : jsstring) : jsstring :=
  let text := remove_all re_tag content in
  let paragraphs :=
    filter (fun p => nonempty (trim p)) (split re_blank_line text) in
  last paragraphs [].

(** [countHeadings] *)
Definition countHeadings (content : jsstring) : nat * nat * nat :=
  let h1Count := length (match_all (re_heading "1") content) in
  let h2Count := length (match_all (re_heading "2") content) in
  let h3Count := length (match_all (re_heading "3") content) in
  (h1Count, h2Count, h3Count).

Definition currentDomain : jsstring := str "iptv-blogg.site".

(** [countLinks], with the default [currentDomain]: the pair of the
    internal and the external count. *)
Definition countLinks (content : jsstring) : nat * nat :=
  let links := match_all re_anchor content in
  fold_left
    (fun (acc : nat * nat) (link : jsstring) =>
       let '(internal, external) := acc in
       match match_first re_href link with
       | Some (_, cs) =>
           let href := match capture 1 cs with Some h => h | None => [] end in
           if (startsWith href (str "/") || includes href currentDomain)%bool
           then (S internal, external)
           else if startsWith href (str "http") then (internal, S external)
           else acc
       | None => acc
       end)
    links (0, 0).

(** [countImages]: the pair of [total] and [withAlt]. *)
Definition countImages (content : jsstring) : nat * nat :=
  let images := match_all re_img content in
  let total := length images in
  let withAlt := length (filter (test re_alt) images) in
  (total, withAlt).

(** What the host does with a pattern: a SyntaxError, or the function
    that counts the matches of the pattern in a text. *)
Definition HostRegExp : Type := jsstring -> js_error + (jsstring -> nat).

Section Analyzer.

(** [String.prototype.toLowerCase], the case mapping of the host's
    Unicode tables. *)
Variable toLowerCase : jsstring -> jsstring.

(** The [titleWords] of [extractFocusKeyword] *)
Definition titleWords (title : jsstring) : list jsstring :=
  filter
    (fun word =>
       (Nat.ltb 2 (length word) && negb (array_includes stopWords word))%bool)
    (split re_spaces (remove_all re_punctuation (toLowerCase title))).

(** [extractFocusKeyword]: [titleWords[0] || ''] is the first word or
    the empty string. *)
Definition extractFocusKeyword (title : jsstring) (tags : list jsstring)
  : jsstring :=
  match titleWords title with
  | w0 :: w1 :: _ => w0 ++ str " " ++ w1
  | ws =>
      match tags with
      | tag0 :: _ => toLowerCase tag0
      | [] => match ws with w0 :: _ => w0 | [] => [] end
      end
  end.

(** [new RegExp(pattern, 'g')] for a pattern outside the fragment that
    [RegExp_new] parses: the host throws, or it builds a pattern, of
    which the analyzer uses the number of matches in a text only. *)
Variable RegExp_host : HostRegExp.

(** [(text.match(new RegExp(keywordLower, 'g')) || []).length] *)
Definition keywordMatches (textLower keywordLower : jsstring)
  : completion nat :=
  match RegExp_new keywordLower with
  | Normal re => Normal (length (match_all re textLower))
  | Throw e => Throw e
  | OutOfFragment =>
      match RegExp_host keywordLower with
      | inl e => Throw e
      | inr count => Normal (count textLower)
      end
  end.

(** [calculateKeywordDensity] *)
Definition calculateKeywordDensity (content keyword : jsstring)
  : completion float :=
  match keyword with
  | [] => Normal (of_nat 0)
  | _ =>
      let contentLower := toLowerCase content in
      let keywordLower := toLowerCase keyword in
      keywordCount <- keywordMatches contentLower keywordLower ;;
      let totalWords := countWords content in
      Normal (if Nat.ltb 0 totalWords
              then fmul (fdiv (of_nat keywordCount) (of_nat totalWords))
                        (of_nat 100)
              else of_nat 0)
  end.

(** [keywordInText] *)
Definition keywordInText (text keyword : jsstring) : bool :=
  match keyword with
  | [] => false
  | _ => includes (toLowerCase text) (toLowerCase keyword)
  end.

(** [estimateSyllables]: [word.match(...)?.length || 1] *)
Definition estimateSyllables (text : jsstring) : nat :=
  let words := match_all re_lower_word (toLowerCase text) in
  fold_left
    (fun syllables word =>
       syllables + match length (match_all re_vowels word) with
                   | O => 1
                   | n => n
                   end)
    words 0.

(** [calculateReadability] *)
Definition calculateReadability (content : jsstring) : float :=
  let text := remove_all re_tag content in
  let sentences :=
    length (filter (fun s => nonempty (trim s))
              (split re_sentence_end text)) in
  let words := countWords text in
  let syllables := estimateSyllables text in
  if (Nat.eqb sentences 0 || Nat.eqb words 0)%bool then of_nat 0
  else
    let score :=
      fsub (fsub (decimal 206835 1000)
                 (fmul (decimal 1015 1000)
                       (fdiv (of_nat words) (of_nat sentences))))
           (fmul (decimal 846 10)
                 (fdiv (of_nat syllables) (of_nat words))) in
    Math_max (of_nat 0) (Math_min (of_nat 100) score).

(** The two locals that [analyzeSEO] updates as it goes. *)
Record Locals : Type := MkLocals {
  suggestions : list jsstring;
  totalScore : Z
}.

Definition push (s : jsstring) (l : Locals) : Locals :=
  MkLocals (suggestions l ++ [s]) (totalScore l).

Definition add (n : Z) (l : Locals) : Locals :=
  MkLocals (suggestions l) (totalScore l + n).

(** The double quote of the templates. *)
Definition dq : jsstring := [34%N].

(** Title check (15 points) *)
Definition checkTitle (title : jsstring) (l : Locals)
  : SEOCheck.t * Locals :=
  let len := length title in
  let '(titleCheck, l) :=
    if Nat.eqb len 0 then
      (SEOCheck.Make error (Num len) (str "Title is required") 0,
       push (str "Add a title to your article") l)
    else if Nat.ltb len 30 then
      (SEOCheck.Make warning (Num len)
         (str "Title too short (" ++ nat_to_str len
            ++ str " chars). Aim for 50-60.") 7,
       push (str "Lengthen your title to 50-60 characters") l)
    else if Nat.ltb 60 len then
      (SEOCheck.Make warning (Num len)
         (str "Title too long (" ++ nat_to_str len
            ++ str " chars). Keep under 60.") 10,
       push (str "Shorten your title to under 60 characters") l)
    else
      (SEOCheck.Make good (Num len)
         (str "Title length perfect (" ++ nat_to_str len ++ str " chars)")
         15,
       l) in
  (titleCheck, add (SEOCheck.score titleCheck) l).

(** Description check (10 points) *)
Definition checkDescription (description : jsstring) (l : Locals)
  : SEOCheck.t * Locals :=
  let len := length description in
  let '(descCheck, l) :=
    if Nat.eqb len 0 then
      (SEOCheck.Make error (Num len) (str "Meta description is required") 0,
       push (str "Add a meta description") l)
    else if Nat.ltb len 120 then
      (SEOCheck.Make warning (Num len)
         (str "Too short (" ++ nat_to_str len
            ++ str " chars). Aim for 150-160.") 5,
       push (str "Add " ++ nat_to_str (160 - len)
               ++ str " more characters to meta description") l)
    else if Nat.ltb 160 len then
      (SEOCheck.Make warning (Num len)
         (str "Too long (" ++ nat_to_str len
            ++ str " chars). Keep under 160.") 7,
       push (str "Shorten meta description to under 160 characters") l)
    else
      (SEOCheck.Make good (Num len)
         (str "Perfect length (" ++ nat_to_str len ++ str " chars)") 10,
       l) in
  (descCheck, add (SEOCheck.score descCheck) l).

(** Content check (20 points) *)
Definition checkContent (wordCount : nat) (l : Locals)
  : ContentCheck.t * Locals :=
  let mk st msg sc :=
    ContentCheck.Make (SEOCheck.Make st (Num wordCount) msg sc) wordCount in
  let '(contentCheck, l) :=
    if Nat.eqb wordCount 0 then
      (mk error (str "Content is empty") 0%Z,
       push (str "Write your article content") l)
    else if Nat.ltb wordCount 300 then
      (mk error
         (str "Too short (" ++ nat_to_str wordCount
            ++ str " words). Minimum 1500 words.") 5%Z,
       push (str "Add " ++ nat_to_str (1500 - wordCount)
               ++ str " more words to reach minimum") l)
    else if Nat.ltb wordCount 1000 then
      (mk warning
         (str "Short (" ++ nat_to_str wordCount
            ++ str " words). Aim for 1500+.") 10%Z,
       push (str "Add " ++ nat_to_str (1500 - wordCount)
               ++ str " more words for better SEO") l)
    else if Nat.ltb wordCount 1500 then
      (mk warning
         (str "Good (" ++ nat_to_str wordCount
            ++ str " words). Aim for 1500+.") 15%Z,
       push (str "Add " ++ nat_to_str (1500 - wordCount)
               ++ str " more words to reach target") l)
    else
      (mk good
         (str "Excellent (" ++ nat_to_str wordCount ++ str " words)") 20%Z,
       l) in
  (contentCheck, add (SEOCheck.score contentCheck) l).

(** Keyword check (20 points) *)
Definition checkKeyword (title firstParagraph lastParagraph : jsstring)
  (focusKeyword : jsstring) (keywordDensity : float)
  (wordCount keywordCount : nat) (l : Locals)
  : KeywordCheck.t * Locals :=
  let inTitle := keywordInText title focusKeyword in
  let inFirstParagraph := keywordInText firstParagraph focusKeyword in
  let inLastParagraph := keywordInText lastParagraph focusKeyword in
  let quoted := dq ++ focusKeyword ++ dq in
  let keywordScore := 0%Z in
  let '(keywordScore, l) :=
    if inTitle then ((keywordScore + 5)%Z, l)
    else (keywordScore,
          push (str "Add " ++ quoted ++ str " to your title") l) in
  let '(keywordScore, l) :=
    if inFirstParagraph then ((keywordScore + 5)%Z, l)
    else (keywordScore,
          push (str "Add " ++ quoted ++ str " to first paragraph") l) in
  let '(keywordScore, l) :=
    if inLastParagraph then ((keywordScore + 3)%Z, l)
    else (keywordScore,
          push (str "Add " ++ quoted ++ str " to last paragraph") l) in
  let '(keywordScore, st, msg, l) :=
    if (fle (decimal 1 2) keywordDensity &&
        fle keywordDensity (decimal 5 2))%bool then
      ((keywordScore + 7)%Z, good,
       str "Keyword density perfect (" ++ toFixed 1 keywordDensity
         ++ str "%)",
       l)
    else if flt keywordDensity (decimal 1 2) then
      ((keywordScore + 3)%Z, warning,
       str "Keyword density low (" ++ toFixed 1 keywordDensity
         ++ str "%). Use " ++ quoted ++ str " more.",
       push (str "Use " ++ quoted ++ str " "
               ++ ceil_to_str
                    (fsub (fmul (decimal 1 100) (of_nat wordCount))
                          (of_nat keywordCount))
               ++ str " more times") l)
    else
      ((keywordScore + 3)%Z, warning,
       str "Keyword density high (" ++ toFixed 1 keywordDensity
         ++ str "%). Reduce usage.",
       push (str "Reduce keyword usage to avoid keyword stuffing") l) in
  (KeywordCheck.Make
     (SEOCheck.Make st (Text (toFixed 2 keywordDensity)) msg keywordScore)
     focusKeyword keywordDensity inTitle inFirstParagraph inLastParagraph
     keywordCount,
   add keywordScore l).

(** Headings check (10 points) *)
Definition checkHeadings (headings : nat * nat * nat) (l : Locals)
  : HeadingCheck.t * Locals :=
  let '(h1, h2, h3) := headings in
  let val :=
    Text (str "H1:" ++ nat_to_str h1 ++ str " H2:" ++ nat_to_str h2
            ++ str " H3:" ++ nat_to_str h3) in
  let mk st msg sc :=
    HeadingCheck.Make (SEOCheck.Make st val msg sc) h1 h2 h3 in
  let '(headingCheck, l) :=
    if Nat.eqb h1 0 then
      (mk error (str "No H1 heading found") 0%Z,
       push (str "Add one H1 heading") l)
    else if Nat.ltb 1 h1 then
      (mk warning
         (str "Multiple H1 headings (" ++ nat_to_str h1
            ++ str "). Use only one.") 5%Z,
       push (str "Use only one H1 heading per article") l)
    else if Nat.ltb h2 2 then
      (mk warning (str "Add more H2 headings for structure") 7%Z,
       push (str "Add at least 3-5 H2 headings") l)
    else
      (mk good (str "Good heading structure") 10%Z, l) in
  (headingCheck, add (SEOCheck.score headingCheck) l).

(** Links check (10 points) *)
Definition checkLinks (links : nat * nat) (l : Locals)
  : LinkCheck.t * Locals :=
  let '(internal, external) := links in
  let st := good in
  let linkScore := 0%Z in
  let '(linkScore, st, l) :=
    if (Nat.leb 3 internal && Nat.leb internal 7)%bool then
      ((linkScore + 6)%Z, st, l)
    else if Nat.ltb internal 3 then
      ((linkScore + 3)%Z, warning,
       push (str "Add " ++ nat_to_str (3 - internal)
               ++ str " more internal links") l)
    else ((linkScore + 5)%Z, st, l) in
  let '(linkScore, st, l) :=
    if (Nat.leb 2 external && Nat.leb external 5)%bool then
      ((linkScore + 4)%Z, st, l)
    else if Nat.ltb external 2 then
      ((linkScore + 2)%Z, warning,
       push (str "Add " ++ nat_to_str (2 - external)
               ++ str " more external links") l)
    else ((linkScore + 3)%Z, st, l) in
  let msg := match st with
             | good => str "Good link structure"
             | _ => str "Improve link structure"
             end in
  (LinkCheck.Make
     (SEOCheck.Make st
        (Text (str "Internal:" ++ nat_to_str internal ++ str " External:"
                 ++ nat_to_str external))
        msg linkScore)
     internal external,
   add linkScore l).

(** Images check (5 points) *)
Definition checkImages (images : nat * nat) (l : Locals)
  : ImageCheck.t * Locals :=
  let '(total, withAlt) := images in
  let val :=
    Text (nat_to_str total ++ str " images, " ++ nat_to_str withAlt
            ++ str " with alt") in
  let mk st msg sc :=
    ImageCheck.Make (SEOCheck.Make st val msg sc) total withAlt in
  let '(imageCheck, l) :=
    if Nat.eqb total 0 then
      (mk warning
         (str "No images found. Add images to improve engagement.") 2%Z,
       push (str "Add at least 3-5 images to your article") l)
    else if Nat.ltb withAlt total then
      (mk warning
         (nat_to_str (total - withAlt) ++ str " images missing alt text")
         3%Z,
       push (str "Add alt text to " ++ nat_to_str (total - withAlt)
               ++ str " images") l)
    else
      (mk good (str "All images have alt text") 5%Z, l) in
  (imageCheck, add (SEOCheck.score imageCheck) l).

(** Slug check (5 points) *)
Definition checkSlug (slug : jsstring) (l : Locals)
  : SEOCheck.t * Locals :=
  let '(slugCheck, l) :=
    if Nat.eqb (length slug) 0 then
      (SEOCheck.Make error (Text slug) (str "URL slug is required") 0,
       push (str "Add a URL slug") l)
    else if Nat.ltb 60 (length slug) then
      (SEOCheck.Make warning (Text slug)
         (str "Slug too long. Keep under 60 characters.") 3,
       push (str "Shorten URL slug") l)
    else if negb (test re_slug slug) then
      (SEOCheck.Make warning (Text slug)
         (str "Use only lowercase letters, numbers, and hyphens") 3,
       push (str "Fix URL slug format") l)
    else
      (SEOCheck.Make good (Text slug) (str "Good URL slug") 5, l) in
  (slugCheck, add (SEOCheck.score slugCheck) l).

(** Readability check (5 points) *)
Definition checkReadability (readability : float) (l : Locals)
  : ReadabilityCheck.t * Locals :=
  let mk st msg sc :=
    ReadabilityCheck.Make
      (SEOCheck.Make st (Text (toFixed 0 readability)) msg sc)
      readability in
  let '(readabilityCheck, l) :=
    if fle (of_nat 60) readability then
      (mk good (str "Easy to read") 5%Z, l)
    else if fle (of_nat 30) readability then
      (mk warning (str "Fairly difficult to read") 3%Z,
       push (str "Simplify sentences for better readability") l)
    else
      (mk warning (str "Difficult to read") 2%Z,
       push (str "Use shorter sentences and simpler words") l) in
  (readabilityCheck, add (SEOCheck.score readabilityCheck) l).

(** [Math.round] of a sum of integer literals. *)
Definition Math_round (n : Z) : Z := n.

(** The checks of [analyzeSEO], from the two locals on: the nine
    blocks in source order and the record returned. *)
Definition runChecks (title description slug : jsstring)
  (focusKeyword : jsstring) (wordCount : nat) (keywordDensity : float)
  (keywordCount : nat) (firstParagraph lastParagraph : jsstring)
  (headings : nat * nat * nat) (links images : nat * nat)
  (readability : float) : SEOAnalysis.t :=
  let l := MkLocals [] 0 in
  let '(titleCheck, l) := checkTitle title l in
  let '(descCheck, l) := checkDescription description l in
  let '(contentCheck, l) := checkContent wordCount l in
  let '(keywordCheck, l) :=
    checkKeyword title firstParagraph lastParagraph focusKeyword
      keywordDensity wordCount keywordCount l in
  let '(headingCheck, l) := checkHeadings headings l in
  let '(linkCheck, l) := checkLinks links l in
  let '(imageCheck, l) := checkImages images l in
  let '(slugCheck, l) := checkSlug slug l in
  let '(readabilityCheck, l) := checkReadability readability l in
  SEOAnalysis.Make (Math_round (totalScore l)) titleCheck descCheck
    contentCheck keywordCheck headingCheck linkCheck imageCheck
    slugCheck readabilityCheck (firstn 5 (suggestions l)).

(** [analyzeSEO] *)
Definition analyzeSEO (title description content slug : jsstring)
  (tags : list jsstring) : completion SEOAnalysis.t :=
  let focusKeyword := extractFocusKeyword title tags in
  let wordCount := countWords content in
  keywordDensity <- calculateKeywordDensity content focusKeyword ;;
  keywordCount <-
    keywordMatches (toLowerCase content) (toLowerCase focusKeyword) ;;
  let firstParagraph := getFirstParagraph content in
  let lastParagraph := getLastParagraph content in
  let headings := countHeadings content in
  let links := countLinks content in
  let images := countImages content in
  let readability := calculateReadability content in
  Normal
    (runChecks title description slug focusKeyword wordCount
       keywordDensity keywordCount firstParagraph lastParagraph headings
       links images readability).

End Analyzer.

(** The case mapping on Basic Latin text: [A-Z] to [a-z], every other
    code unit unchanged.  [String.prototype.toLowerCase] agrees with it
    on strings of code units below 128; it instantiates the analyzer
    for evaluation on such inputs. *)
Definition lower_code_unit (c : code_unit) : code_unit :=
  if in_range c (65, 90)%N then (c + 32)%N else c.

Definition basic_latin_lower (s : jsstring) : jsstring :=
  map lower_code_unit s.

(** Two hosts for evaluation: one rejects every pattern outside the
    fragment, one finds [n] matches of each. *)
Definition host_rejects : HostRegExp := fun _ => inl SyntaxError.
Definition host_counts (n : nat) : HostRegExp := fun _ => inr (fun _ => n).

(** ** The upload handler ([src/app/api/upload/route.ts]) *)

(** A thrown value: an [Error] with its message, or anything else. *)
Inductive Thrown : Type :=
| ErrorObject (message : jsstring)
| OtherValue.

(** The outcome of an effectful step: a value, or a thrown exception (a
    rejected promise, once awaited). *)
Definition result (A : Type) : Type := (Thrown + A)%type.

Definition try_catch {A} (body : result A) (handler : Thrown -> result A)
  : result A :=
  match body with
  | inl e => handler e
  | inr a => inr a
  end.

(** Sequencing: a thrown exception skips the steps that follow. *)
Definition and_then {A B} (r : result A) (f : A -> result B) : result B :=
  match r with
  | inl e => inl e
  | inr a => f a
  end.

Declare Scope result_scope.
Delimit Scope result_scope with result.
Notation "x <- c ;; k" := (and_then c (fun x => k))
  (at level 61, c at next level, right associativity) : result_scope.

Module File.
Record t : Type := Make {
  name : jsstring;
  type : jsstring;
  size : N;
  arrayBuffer : result (list N)
}.
End File.

(** An entry of a multipart form ([FormDataEntryValue]). *)
Inductive FormValue : Type :=
| FileValue (f : File.t)
| StringValue (s : jsstring).

(** [formData.get] of the four fields the handler reads; [None] is
    JavaScript's [null]. *)
Module FormData.
Record t : Type := Make {
  file : option FormValue;
  context : option FormValue;
  altText : option FormValue;
  description : option FormValue
}.
End FormData.

Module UploadResponse.
Record t : Type := Make {
  url : jsstring;
  fileId : jsstring;
  name : jsstring;
  size : N;
  thumbnailUrl : jsstring
}.
End UploadResponse.

(** The ImageKit client: the outcome of [imagekit.upload] on the
    parameters the handler builds (lines 103 to 135) from the file's
    bytes, the file and the text of the context field. *)
Definition ImageKit : Type :=
  list N -> File.t -> option jsstring -> result UploadResponse.t.

(** The JSON bodies the handler sends.  Of a success body the model keeps
    what it is built from; its fields derived from the clock and the
    random source are left out. *)
Inductive Body : Type :=
| ErrorJson (error : jsstring) (details : option jsstring)
| FallbackJson (file : option FormValue)
| UploadedJson (uploaded : UploadResponse.t).

Module Response.
Record t : Type := Make {
  status : nat;
  body : Body
}.
End Response.

(** [NextResponse.json(body)] and [NextResponse.json(body, { status })] *)
Definition json (body : Body) : Response.t := Response.Make 200 body.
Definition json_status (body : Body) (status : nat) : Response.t :=
  Response.Make status body.

Definition allowedTypes : list jsstring :=
  map str ["image/jpeg"; "image/jpg"; "image/png"; "image/webp";
           "image/gif"]%string.

Definition maxSize : N := (10 * 1024 * 1024)%N.

(** [!file] for a form entry: [null] and the empty string are falsy. *)
Definition missing (v : option FormValue) : bool :=
  match v with
  | None => true
  | Some (StringValue []) => true
  | Some _ => false
  end.

(** The text of a truthy string field; calling a string method on a file
    entry throws a TypeError. *)
Definition text_field (v : option FormValue) : result (option jsstring) :=
  match v with
  | None => inr None
  | Some (StringValue []) => inr None
  | Some (StringValue s) => inr (Some s)
  | Some (FileValue _) =>
      inl (ErrorObject (str "context.toLowerCase is not a function"))
  end.

(** The three answers with status 400. *)
Definition noFile : Response.t :=
  json_status (ErrorJson (str "No file uploaded") None) 400.
Definition invalidType : Response.t :=
  json_status
    (ErrorJson (str "Invalid file type. Only images are allowed.") None) 400.
Definition tooLarge : Response.t :=
  json_status
    (ErrorJson (str "File too large. Maximum size is 10MB.") None) 400.

(** The body of the [try] block of [POST].  [formData] is the outcome of
    [await request.formData()]; a form entry that is a non-empty string
    has no [type], so it fails the type check. *)
Definition POST_body (imagekit : option ImageKit)
  (formData : result FormData.t) : result Response.t :=
  (match imagekit with
   | None =>
       fd <- formData ;;
       if missing (FormData.file fd) then inr noFile
       else inr (json (FallbackJson (FormData.file fd)))
   | Some upload =>
       fd <- formData ;;
       if missing (FormData.file fd) then inr noFile
       else
         match FormData.file fd with
         | Some (FileValue file) =>
             if negb (array_includes allowedTypes (File.type file))
             then inr invalidType
             else if N.ltb maxSize (File.size file) then inr tooLarge
             else
               bytes <- File.arrayBuffer file ;;
               context <- text_field (FormData.context fd) ;;
               uploadResponse <- upload bytes file context ;;
               inr (json (UploadedJson uploadResponse))
         | _ => inr invalidType
         end
   end)%result.

(** [POST]: the [try] block and its [catch]. *)
Definition POST (imagekit : option ImageKit) (formData : result FormData.t)
  : result Response.t :=
  try_catch (POST_body imagekit formData)
    (fun e =>
       inr (json_status
              (ErrorJson (str "Failed to upload file to ImageKit")
                 (Some match e with
                       | ErrorObject message => message
                       | OtherValue => str "Unknown error"
                       end))
              500)).

(** ** The sitemap ([src/app/sitemap.ts]) *)

Inductive ArticleStatus : Type := DRAFT | PUBLISHED | ARCHIVED.

Module Article.
Record t : Type := Make {
  slug : jsstring;
  updatedAt : Z;
  status : ArticleStatus
}.
End Article.

Module Category.
Record t : Type := Make {
  slug : jsstring;
  updatedAt : Z;
  isActive : bool
}.
End Category.

Module Page.
Record t : Type := Make {
  slug : jsstring;
  updatedAt : Z;
  isActive : bool
}.
End Page.

(** The three tables the sitemap reads, rows in storage order. *)
Record Database : Type := MkDatabase {
  articles : list Article.t;
  categories : list Category.t;
  pages : list Page.t
}.

Inductive ChangeFrequency : Type := daily | weekly | monthly.

Module Entry.
Record t : Type := Make {
  url : jsstring;
  lastModified : Z;
  changeFrequency : ChangeFrequency;
  priority : float
}.
End Entry.

(** The rows a query selects: [slug] and [updatedAt]. *)
Definition Row : Type := (jsstring * Z)%type.

(** [orderBy: { updatedAt: 'desc' }], rows of equal date in storage
    order. *)
Fixpoint insert_desc (r : Row) (l : list Row) : list Row :=
  match l with
  | [] => [r]
  | r' :: l' =>
      if (snd r' <? snd r)%Z then r :: l
      else r' :: insert_desc r l'
  end.

Definition order_desc (l : list Row) : list Row :=
  fold_right insert_desc [] l.

Definition is_published (a : Article.t) : bool :=
  match Article.status a with PUBLISHED => true | _ => false end.

(** The rows of the three [findMany] queries. *)
Definition findPublishedArticles (db : Database) : list Row :=
  order_desc
    (map (fun a => (Article.slug a, Article.updatedAt a))
       (filter is_published (articles db))).

Definition findActiveCategories (db : Database) : list Row :=
  map (fun c => (Category.slug c, Category.updatedAt c))
    (filter Category.isActive (categories db)).

Definition findActivePages (db : Database) : list Row :=
  map (fun p => (Page.slug p, Page.updatedAt p))
    (filter Page.isActive (pages db)).

Definition baseUrl : jsstring := str "https://iptv-blogg.site".

Definition articlePage (r : Row) : Entry.t :=
  Entry.Make (baseUrl ++ str "/article/" ++ fst r) (snd r) weekly
    (decimal 8 10).

Definition categoryPage (r : Row) : Entry.t :=
  Entry.Make (baseUrl ++ str "/category/" ++ fst r) (snd r) weekly
    (decimal 7 10).

Definition customPage (r : Row) : Entry.t :=
  Entry.Make (baseUrl ++ str "/pages/" ++ fst r) (snd r) monthly
    (decimal 5 10).

(** [x || []] for a result that may be [null]. *)
Definition or_empty {A} (x : option (list A)) : list A :=
  match x with Some l => l | None => [] end.

(** A query on the database: its rows when the database answers, a
    rejected promise ([None]) when it does not. *)
Definition query {A} (online : bool) (rows : list A) : option (list A) :=
  if online then Some rows else None.

Section Sitemap.

(** [safeDbOperation] of [@/lib/db-utils], which is not part of the
    sources at hand: it is given an operation and a fallback, and
    returns a value or [null]. *)
Variable safeDbOperation :
  forall T : Type, (unit -> option T) -> T -> option T.

(** [sitemap]; [now1] and [now2] are the two [new Date()] of the static
    pages. *)
Definition sitemap (online : bool) (db : Database) (now1 now2 : Z)
  : list Entry.t :=
  let staticPages :=
    [Entry.Make baseUrl now1 daily (decimal 10 10);
     Entry.Make (baseUrl ++ str "/articles") now2 daily (decimal 9 10)] in
  let articles :=
    or_empty
      (safeDbOperation _
         (fun _ => query online (findPublishedArticles db)) []) in
  let articlePages := map articlePage articles in
  let categories :=
    or_empty
      (safeDbOperation _
         (fun _ => query online (findActiveCategories db)) []) in
  let categoryPages := map categoryPage categories in
  let pages :=
    or_empty
      (safeDbOperation _ (fun _ => query online (findActivePages db)) []) in
  let customPages := map customPage pages in
  staticPages ++ articlePages ++ categoryPages ++ customPages.

End Sitemap.

(** A [safeDbOperation] that runs the operation and falls back when it
    fails. *)
Definition run_or_fallback (T : Type) (operation : unit -> option T)
  (fallback : T) : option T :=
  match operation tt with
  | Some r => Some r
  | None => Some fallback
  end.

(** ** Reference definitions for the statements *)

(** The maximal runs of non-whitespace code units of a string, in order;
    [cur] holds, reversed, the run being read. *)
Fixpoint tokens_from (cur : jsstring) (s : jsstring) : list jsstring :=
  match s with
  | [] => match cur with [] => [] | _ => [rev cur] end
  | c :: tl =>
      if is_space c then
        match cur with
        | [] => tokens_from [] tl
        | _ => rev cur :: tokens_from [] tl
        end
      else tokens_from (c :: cur) tl
  end.

Definition tokens (s : jsstring) : list jsstring := tokens_from [] s.

(** The number of whitespace-separated tokens of a string. *)
Definition token_count (s : jsstring) : nat := length (tokens s).

(** The content score and status as a table of the word count. *)
Definition content_table (n : nat) : Z * Status :=
  if Nat.eqb n 0 then (0%Z, error)
  else if Nat.leb n 299 then (5%Z, error)
  else if Nat.leb n 999 then (10%Z, warning)
  else if Nat.leb n 1499 then (15%Z, warning)
  else (20%Z, good).

Definition keeps_word_or_space (c : code_unit) : bool :=
  (is_word c || is_space c)%bool.

Definition is_stop_word (w : jsstring) : bool := array_includes stopWords w.

Section FocusKeyword.
Variable toLowerCase : jsstring -> jsstring.

(** The words of a title: the whitespace-separated tokens of the
    lowercased title from which every code unit other than a word
    character (a letter of Basic Latin, a digit, an underscore) and
    whitespace has been dropped. *)
Definition title_tokens (title : jsstring) : list jsstring :=
  tokens (filter keeps_word_or_space (toLowerCase title)).

(** The focus keyword as the specification words it: the first two
    non-stop-words of the title, else the first tag lowercased, else the
    first title word, else the empty string. *)
Definition claimed_focus_keyword (title : jsstring) (tags : list jsstring)
  : jsstring :=
  match filter (fun w => negb (is_stop_word w)) (title_tokens title) with
  | w0 :: w1 :: _ => w0 ++ str " " ++ w1
  | _ =>
      match tags with
      | tag0 :: _ => toLowerCase tag0
      | [] => hd [] (title_tokens title)
      end
  end.

(** The words of a title that can make a focus keyword: longer than
    two code units and not stop words. *)
Definition usable_words (title : jsstring) : list jsstring :=
  filter (fun w => (Nat.ltb 2 (length w) && negb (is_stop_word w))%bool)
    (title_tokens title).

(** The focus keyword of the code: the first two usable words of the
    title, else the first tag lowercased, else the first usable word,
    else the empty string. *)
Definition focus_keyword (title : jsstring) (tags : list jsstring)
  : jsstring :=
  match usable_words title with
  | w0 :: w1 :: _ => w0 ++ str " " ++ w1
  | ws =>
      match tags with
      | tag0 :: _ => toLowerCase tag0
      | [] => hd [] ws
      end
  end.
End FocusKeyword.

(** The error message of a response, if its body is an error. *)
Definition error_of (r : result Response.t) : option jsstring :=
  match r with
  | inr (Response.Make _ (ErrorJson e _)) => Some e
  | _ => None
  end.

Definition status_of (r : result Response.t) : option nat :=
  match r with
  | inr resp => Some (Response.status resp)
  | inl _ => None
  end.

(** Where a greedy run of code units satisfying [p] ends: the code unit
    before the end, and the rest of the input. *)
Fixpoint run_end (p : code_unit -> bool) (b : option code_unit)
  (s : jsstring) : option code_unit * jsstring :=
  match s with
  | c :: tl => if p c then run_end p (Some c) tl else (b, s)
  | [] => (b, [])
  end.

Definition cls_accepts (neg : bool) (rs : list (N * N)) (c : code_unit)
  : bool :=
  xorb neg (in_ranges c rs).

(** The characters that are not literal in the pattern fragment. *)
Definition syntax_chars : list code_unit :=
  map cu [")"; "|"; "*"; "+"; "?"; "{"; "^"; "$"; "."; "\"; "["; "("]%char.

Definition is_syntax_char (c : code_unit) : bool :=
  existsb (N.eqb c) syntax_chars.

(** The pattern that matches a string literally. *)
Definition literal (s : jsstring) : regex :=
  fold_right (fun c r => Seq (Cls false [(c, c)]) r) Empty s.

Section KeywordScore.
Variable toLowerCase : jsstring -> jsstring.

(** A keyword occurs in a text: it is not empty and, both lowercased,
    it is a substring of the text. *)
Definition occurs_in (keyword text : jsstring) : bool :=
  (nonempty keyword
   && includes (toLowerCase text) (toLowerCase keyword))%bool.
End KeywordScore.

(** A density within [0.5, 2.5] percent. *)
Definition in_band (density : float) : bool :=
  (fle (decimal 1 2) density && fle density (decimal 5 2))%bool.

Definition points (b : bool) (n : Z) : Z := if b then n else 0%Z.

(** The order of two rows in a list sorted by [updatedAt], newest
    first. *)
Definition newer_first (r1 r2 : Row) : Prop := (snd r2 <= snd r1)%Z.

(** ** Sample inputs *)

Definition sample_title : jsstring :=
  str "Best IPTV Box Review for Streaming in 2025".
Definition sample_description : jsstring :=
  str "An honest review of the most popular IPTV box.".
Definition sample_content : jsstring :=
  str "<h1>IPTV box</h1><p>The iptv box is great. Buy an IPTV BOX today!</p>"
  ++ [10; 10]%N
  ++ str "<p>See <a href='/x'>here</a> and <img src='a.png' alt='pic'>.</p>".
Definition sample_slug : jsstring := str "iptv-box-review".

Definition png_file (size : N) : File.t :=
  File.Make (str "photo.png") (str "image/png") size (inr []).
Definition pdf_file (size : N) : File.t :=
  File.Make (str "paper.pdf") (str "application/pdf") size (inr []).
Definition form_with (f : File.t) : FormData.t :=
  FormData.Make (Some (FileValue f)) None None None.
Definition sample_upload : ImageKit :=
  fun _ f _ =>
    inr (UploadResponse.Make (str "https://ik.example/x.png") (str "id1")
           (File.name f) (File.size f) (str "https://ik.example/t.png")).
Definition failing_upload : ImageKit :=
  fun _ _ _ => inl (ErrorObject (str "network down")).

Definition sample_db : Database :=
  MkDatabase
    [Article.Make (str "old") 10 PUBLISHED;
     Article.Make (str "draft") 30 DRAFT;
     Article.Make (str "new") 20 PUBLISHED;
     Article.Make (str "gone") 40 ARCHIVED]
    [Category.Make (str "sports") 5 true;
     Category.Make (str "hidden") 6 false]
    [Page.Make (str "about") 7 true; Page.Make (str "off") 8 false].

(** The two sums the [SEOAnalyzer] component displays next to the four
    leading scores: Structure and Technical. *)
Definition structureScore (a : SEOAnalysis.t) : Z :=
  (SEOCheck.score (SEOAnalysis.headings a)
   + SEOCheck.score (SEOAnalysis.links a)
   + SEOCheck.score (SEOAnalysis.images a))%Z.

Definition technicalScore (a : SEOAnalysis.t) : Z :=
  (SEOCheck.score (SEOAnalysis.slug a)
   + SEOCheck.score (SEOAnalysis.readability a))%Z.


(** ** More of the host: replacement *)

(** The text left by the loop of [replace] when every match is replaced
    by [rep]. *)
Definition rebuild (rep : jsstring)
  (r : list (jsstring * jsstring) * jsstring) : jsstring :=
  concat (map (fun m => fst m ++ rep) (fst r)) ++ snd r.

(** [s.replace(/r/g, rep)] for a replacement text without dollar
    patterns. *)
Definition replace_all (r : regex) (rep : jsstring) (s : jsstring)
  : jsstring :=
  rebuild rep (scan (S (length s)) r None s).

(** [s.replace(/r/, rep)] for a pattern without the global flag: only the
    leftmost match is replaced. *)
Definition replace_first (r : regex) (rep : jsstring) (s : jsstring)
  : jsstring :=
  match search r None s with
  | Some (skip, _, y) => skip ++ rep ++ rest y
  | None => s
  end.

(** [s.substring(0, n)] *)
Definition substring0 (n : nat) (s : jsstring) : jsstring := firstn n s.

(** ** The file names of the upload handler
    ([src/app/api/upload/route.ts]) *)

Definition name_ranges : list (N * N) :=
  [(97, 122); (48, 57)]%N ++ space_ranges ++ [(45, 45)]%N.

(** [/\.[^/.]+$/] *)
Definition re_extension : regex :=
  seqs [lit "."; plus (Cls true [(cu "/", cu "/"); (cu ".", cu ".")]); Eol].
(** [/[^a-z0-9\s-]/g] *)
Definition re_not_name : regex := Cls true name_ranges.
(** [/-+/g] *)
Definition re_hyphens : regex := plus (Cls false [(45, 45)%N]).
(** [/[^a-z0-9]/g] *)
Definition re_not_alnum : regex := Cls true [(97, 122); (48, 57)]%N.

Section UploadNames.

Variable toLowerCase : jsstring -> jsstring.

(** The [cleanName] of [generateSEOFilename]. *)
Definition cleanName (originalName : jsstring) : jsstring :=
  let nameWithoutExt := replace_first re_extension [] originalName in
  substring0 50
    (replace_all re_hyphens (str "-")
       (replace_all re_spaces (str "-")
          (remove_all re_not_name (toLowerCase nameWithoutExt)))).

(** The [contextPart] of [generateSEOFilename]; an absent or empty
    context is falsy. *)
Definition contextPart (context : option jsstring) : jsstring :=
  match context with
  | Some ((_ :: _) as c) =>
      str "-" ++ substring0 20 (remove_all re_not_alnum (toLowerCase c))
  | _ => []
  end.

(** [generateSEOFilename]; [timestamp] is [Date.now()] and [randomId]
    the hexadecimal text of [crypto.randomBytes(4)]. *)
Definition generateSEOFilename (timestamp : Z) (randomId : jsstring)
  (originalName : jsstring) (context : option jsstring) : jsstring :=
  cleanName originalName ++ contextPart context ++ str "-"
    ++ Z_to_str timestamp ++ str "-" ++ randomId.

End UploadNames.

(** [generateCacheBustingUrl]; [timestamp] is [Date.now()]. *)
Definition generateCacheBustingUrl (timestamp : Z) (baseUrl : jsstring)
  : jsstring :=
  let separator :=
    if includes baseUrl (str "?") then str "&" else str "?" in
  baseUrl ++ separator ++ str "v=" ++ Z_to_str timestamp
    ++ str "&cache=fresh".

(** ** The upload form ([src/components/admin/seo-image-upload.tsx]) *)

(** [/[^a-zA-Z0-9\s]/g] and [/\s+/g] *)
Definition re_not_alnum_space : regex :=
  Cls true ([(97, 122); (65, 90); (48, 57)]%N ++ space_ranges).

(** The [cleanFilename] of [generateSmartAltText]. *)
Definition cleanFilename (filename : jsstring) : jsstring :=
  trim (replace_all re_spaces (str " ")
          (replace_all re_not_alnum_space (str " ") filename)).

(** [generateSmartAltText]; an absent or empty [context] is falsy. *)
Definition generateSmartAltText (context : option jsstring)
  (filename : jsstring) : jsstring :=
  let contextPart :=
    match context with
    | Some ((_ :: _) as c) => c ++ str " - "
    | _ => []
    end in
  contextPart ++ cleanFilename filename ++ str " - IPTV Guide Image".

(** [refreshCache]: the new URL, from the original one. *)
Definition refreshUrl (timestamp : Z) (originalUrl : jsstring) : jsstring :=
  let separator :=
    if includes originalUrl (str "?") then str "&" else str "?" in
  originalUrl ++ separator ++ str "v=" ++ Z_to_str timestamp
    ++ str "&cache=refresh".

(** ** The score display ([src/components/admin/seo-analyzer.tsx]) *)

Definition getScoreColor (score : Z) : jsstring :=
  if (90 <=? score)%Z then str "text-green-600"
  else if (75 <=? score)%Z then str "text-green-500"
  else if (60 <=? score)%Z then str "text-yellow-500"
  else if (40 <=? score)%Z then str "text-orange-500"
  else str "text-red-500".

Definition getScoreBg (score : Z) : jsstring :=
  if (90 <=? score)%Z then str "bg-green-600"
  else if (75 <=? score)%Z then str "bg-green-500"
  else if (60 <=? score)%Z then str "bg-yellow-500"
  else if (40 <=? score)%Z then str "bg-orange-500"
  else str "bg-red-500".

Definition getScoreLabel (score : Z) : jsstring :=
  if (90 <=? score)%Z then str "Excellent"
  else if (75 <=? score)%Z then str "Good"
  else if (60 <=? score)%Z then str "Fair"
  else if (40 <=? score)%Z then str "Poor"
  else str "Needs Work".

(** ** The media library ([src/app/api/admin/media/route.ts]) *)

(** An element of the [files] array sent to the client, and of the
    module-level array [uploadedFiles]. *)
Module MediaFile.
Record t : Type := Make {
  id : jsstring;
  filename : jsstring;
  originalName : jsstring;
  url : jsstring;
  size : Z;
  mimeType : jsstring;
  uploadedAt : jsstring;
  usedInArticles : nat;
  articleTitles : list jsstring;
  articleSlugs : list jsstring
}.
End MediaFile.

(** A row of [prisma.media.findMany] with the title and the slug of
    each of its articles; [createdAt] in milliseconds. *)
Module MediaRow.
Record t : Type := Make {
  id : jsstring;
  filename : jsstring;
  originalName : jsstring;
  filePath : jsstring;
  fileSize : Z;
  mimeType : jsstring;
  createdAt : Z;
  articles : list (jsstring * jsstring)
}.
End MediaRow.

Module MediaStats.
Record t : Type := Make {
  totalFiles : nat;
  totalSize : float;
  totalUsage : float
}.
End MediaStats.

(** The JSON bodies of the media route: the list of files with its
    statistics, a failure with its error, the uploaded file with a
    message, a bare message. *)
Inductive MediaBody : Type :=
| MediaFilesJson (files : list MediaFile.t) (stats : MediaStats.t)
| MediaFailureJson (error : jsstring)
| MediaUploadedJson (data : MediaFile.t) (message : jsstring)
| MediaMessageJson (message : jsstring).

Module MediaResponse.
Record t : Type := Make {
  status : nat;
  body : MediaBody
}.
End MediaResponse.

(** [/[^a-zA-Z0-9.-]/g] *)
Definition re_not_filename : regex :=
  Cls true [(97, 122); (65, 90); (48, 57); (46, 46); (45, 45)]%N.

Module Media.
Section Handlers.

(** [Date.prototype.toISOString] of a date given in milliseconds, and
    [Buffer.from(bytes).toString('base64')]. *)
Variable toISOString : Z -> jsstring.
Variable base64 : list N -> jsstring.

(** The state of the module: [let uploadedFiles: any[] = []]. *)
Definition State : Type := list MediaFile.t.
Definition initial : State := [].

(** The two [reduce] calls, on numbers. *)
Definition stats (files : list MediaFile.t) : MediaStats.t :=
  MediaStats.Make (length files)
    (fold_left (fun sum file => fadd sum (of_Z (MediaFile.size file)))
       files (of_nat 0))
    (fold_left
       (fun sum file => fadd sum (of_nat (MediaFile.usedInArticles file)))
       files (of_nat 0)).

(** The mock data of the fallback; the clock is read once for each
    file. *)
Definition mockData (now1 now2 now3 : Z) : list MediaFile.t :=
  [MediaFile.Make (str "1") (str "iptv-player-comparison.jpg")
     (str "IPTV Player Comparison.jpg")
     (str "https://images.unsplash.com/photo-1593359677879-a4bb92f829d1?w=800&h=400&fit=crop")
     245760 (str "image/jpeg") (toISOString now1) 2
     [str "Best IPTV Players 2024"; str "IPTV Setup Guide"]
     [str "best-iptv-players-2024"; str "iptv-setup-guide"];
   MediaFile.Make (str "2") (str "firestick-iptv-setup.png")
     (str "Firestick IPTV Setup Guide.png")
     (str "https://images.unsplash.com/photo-1574375927938-d5a98e8ffe85?w=800&h=400&fit=crop")
     189440 (str "image/png") (toISOString (now2 - 86400000)) 1
     [str "Firestick IPTV Guide"] [str "firestick-iptv-guide"];
   MediaFile.Make (str "3") (str "tivimate-interface.webp")
     (str "TiviMate Interface Screenshot.webp")
     (str "https://images.unsplash.com/photo-1611532736597-de2d4265fba3?w=800&h=400&fit=crop")
     156320 (str "image/webp") (toISOString (now3 - 172800000)) 3
     [str "TiviMate Review"; str "Best IPTV Apps";
      str "IPTV Player Comparison"]
     [str "tivimate-review"; str "best-iptv-apps";
      str "iptv-player-comparison"]].

Definition transform (file : MediaRow.t) : MediaFile.t :=
  MediaFile.Make (MediaRow.id file) (MediaRow.filename file)
    (MediaRow.originalName file) (MediaRow.filePath file)
    (MediaRow.fileSize file) (MediaRow.mimeType file)
    (toISOString (MediaRow.createdAt file))
    (length (MediaRow.articles file))
    (map fst (MediaRow.articles file))
    (map snd (MediaRow.articles file)).

(** [GET].  [mediaFiles] is the outcome of the awaited call of
    [safeDbOperation] (from [@/lib/db-utils]): a thrown exception, or
    its value, where [None] is [null]; the three clocks are read in the
    fallback only.  The handler reads [uploadedFiles] in its [catch]
    block. *)
Definition GET (mediaFiles : result (option (list MediaRow.t)))
  (now1 now2 now3 : Z) (uploadedFiles : State) : MediaResponse.t :=
  match mediaFiles with
  | inr value =>
      let mediaFiles := match value with Some rows => rows | None => [] end in
      let transformedFiles := map transform mediaFiles in
      MediaResponse.Make 200
        (MediaFilesJson transformedFiles (stats transformedFiles))
  | inl _ =>
      let allFiles := mockData now1 now2 now3 ++ uploadedFiles in
      MediaResponse.Make 200 (MediaFilesJson allFiles (stats allFiles))
  end.

(** The body of the [try] block of [POST], with the state it leaves.
    [file] is [formData.get('file')] after the awaited
    [request.formData()]; [now1] is [Date.now()] and [now2] is
    [new Date()].  [allowedTypes] and [maxSize] have the values of the
    upload handler. *)
Definition POST_body (file : result (option FormValue)) (now1 now2 : Z)
  (uploadedFiles : State) : result (MediaResponse.t * State) :=
  (entry <- file ;;
   if missing entry then
     inr (MediaResponse.Make 400 (MediaFailureJson (str "No file provided")),
          uploadedFiles)
   else
     match entry with
     | Some (FileValue file) =>
         if negb (array_includes allowedTypes (File.type file)) then
           inr (MediaResponse.Make 400
                  (MediaFailureJson
                     (str "Invalid file type. Only images are allowed.")),
                uploadedFiles)
         else if N.ltb maxSize (File.size file) then
           inr (MediaResponse.Make 400
                  (MediaFailureJson
                     (str "File too large. Maximum size is 10MB.")),
                uploadedFiles)
         else
           arrayBuffer <- File.arrayBuffer file ;;
           let dataUrl :=
             str "data:" ++ File.type file ++ str ";base64,"
               ++ base64 arrayBuffer in
           let uploadedFile :=
             MediaFile.Make (Z_to_str now1)
               (replace_all re_not_filename (str "-") (File.name file))
               (File.name file) dataUrl (Z.of_N (File.size file))
               (File.type file) (toISOString now2) 0 [] [] in
           inr (MediaResponse.Make 201
                  (MediaUploadedJson uploadedFile
                     (str "File uploaded successfully")),
                uploadedFiles ++ [uploadedFile])
     | _ =>
         inr (MediaResponse.Make 400
                (MediaFailureJson
                   (str "Invalid file type. Only images are allowed.")),
              uploadedFiles)
     end)%result.

(** [POST]: nothing is pushed before an exception is thrown. *)
Definition POST (file : result (option FormValue)) (now1 now2 : Z)
  (uploadedFiles : State) : MediaResponse.t * State :=
  match POST_body file now1 now2 uploadedFiles with
  | inr answer => answer
  | inl _ =>
      (MediaResponse.Make 500 (MediaFailureJson (str "Failed to upload file")),
       uploadedFiles)
  end.

(** [DELETE].  [fileId] is [searchParams.get('id')] of the URL of the
    request, or the exception thrown when the URL cannot be parsed. *)
Definition DELETE (fileId : result (option jsstring))
  (uploadedFiles : State) : MediaResponse.t * State :=
  match fileId with
  | inl _ =>
      (MediaResponse.Make 500 (MediaFailureJson (str "Failed to delete file")),
       uploadedFiles)
  | inr None | inr (Some []) =>
      (MediaResponse.Make 400 (MediaFailureJson (str "File ID is required")),
       uploadedFiles)
  | inr (Some fileId) =>
      let initialLength := length uploadedFiles in
      let uploadedFiles :=
        filter (fun file => negb (eqb_str (MediaFile.id file) fileId))
          uploadedFiles in
      if Nat.ltb (length uploadedFiles) initialLength then
        (MediaResponse.Make 200
           (MediaMessageJson (str "File deleted successfully")),
         uploadedFiles)
      else
        (MediaResponse.Make 200
           (MediaMessageJson (str "File deleted successfully")),
         uploadedFiles)
  end.

End Handlers.
End Media.

(** The files of a body that lists files. *)
Definition files_of (r : MediaResponse.t) : list MediaFile.t :=
  match MediaResponse.body r with
  | MediaFilesJson files _ => files
  | _ => []
  end.

(** Stand-ins for the two host functions, for evaluation. *)
Definition sample_toISOString (t : Z) : jsstring := Z_to_str t.
Definition sample_base64 (bytes : list N) : jsstring := [].

(** No shared mutable state, as the specification words it, for the
    handler that reads the state: the answer to a request is the same
    whatever the requests answered before have left. *)
Definition claimed_no_shared_state (toISOString : Z -> jsstring) : Prop :=
  forall mediaFiles now1 now2 now3 (uploadedFiles1 uploadedFiles2 : Media.State),
    Media.GET toISOString mediaFiles now1 now2 now3 uploadedFiles1
    = Media.GET toISOString mediaFiles now1 now2 now3 uploadedFiles2.

(** ** Reference definitions for the further statements *)

(** A greedy run of code units satisfying [p] followed by [k]: the
    longest run first, then the shorter ones. *)
Fixpoint greedy_run {A} (p : code_unit -> bool) (k : mstate -> option A)
  (b : option code_unit) (s : jsstring) (cs : list (nat * jsstring))
  : option A :=
  match s with
  | c :: tl =>
      if p c then orelse (greedy_run p k (Some c) tl cs) (k (MState b s cs))
      else k (MState b s cs)
  | [] => k (MState b [] cs)
  end.

Definition is_lt (c : code_unit) : bool := N.eqb c (cu "<").
Definition is_gt (c : code_unit) : bool := N.eqb c (cu ">").

(** The text after the first [>], if there is one. *)
Fixpoint after_gt (s : jsstring) : option jsstring :=
  match s with
  | [] => None
  | c :: tl => if is_gt c then Some tl else after_gt tl
  end.

(** Tag removal as a scanner: a [<] with a [>] somewhere after it opens
    a tag, which the first [>] closes. *)
Fixpoint skip_tags (inside : bool) (s : jsstring) : jsstring :=
  match s with
  | [] => []
  | c :: tl =>
      if inside then skip_tags (negb (is_gt c)) tl
      else if (is_lt c && existsb is_gt tl)%bool then skip_tags true tl
      else c :: skip_tags false tl
  end.

(** No [<] of the text has a [>] after it. *)
Fixpoint tag_free (s : jsstring) : bool :=
  match s with
  | [] => true
  | c :: tl => (negb (is_lt c && existsb is_gt tl) && tag_free tl)%bool
  end.

(** Every maximal run of code units satisfying [p] replaced by [rep];
    [in_run] tells whether the code unit before belongs to a run. *)
Fixpoint squeeze (p : code_unit -> bool) (rep : jsstring) (in_run : bool)
  (s : jsstring) : jsstring :=
  match s with
  | [] => []
  | c :: tl =>
      if p c then (if in_run then [] else rep) ++ squeeze p rep true tl
      else c :: squeeze p rep false tl
  end.

(** No two adjacent code units of the text are both [h]. *)
Fixpoint no_double (h : code_unit) (s : jsstring) : bool :=
  match s with
  | c :: (d :: _) as tl => (negb (N.eqb c h && N.eqb d h) && no_double h tl)%bool
  | _ => true
  end.

(** The text starts with [h]. *)
Definition starts_with (h : code_unit) (s : jsstring) : bool :=
  match s with c :: _ => N.eqb c h | [] => false end.

(** The code units of a slug: lower-case letters, digits, hyphen. *)
Definition is_slug_char (c : code_unit) : bool :=
  in_ranges c [(97, 122); (48, 57); (45, 45)]%N.

Definition is_hex_digit (c : code_unit) : bool :=
  in_ranges c [(48, 57); (97, 102)]%N.

(** The words of a text joined by single spaces. *)
Fixpoint join_words (ws : list jsstring) : jsstring :=
  match ws with
  | [] => []
  | [w] => w
  | w :: ws' => w ++ str " " ++ join_words ws'
  end.

(** ** Further sample inputs *)

(** An article that gets every point. *)
Definition perfect_title : jsstring :=
  str "Fast streaming box setup made simple".
Definition perfect_description : jsstring :=
  str "Learn how a fast streaming box is set up at home in a few minutes, "
  ++ str "with clear steps, honest tips and the best settings for your screen.".
Definition perfect_content : jsstring :=
  str "<h1>Fast streaming box</h1> <p>Fast streaming is fun. "
  ++ str "<img src='/a.png' alt='box'> <a href='/a'>a</a> <a href='/b'>b</a> "
  ++ str "<a href='/c'>c</a> <a href='http://x.org'>x</a> "
  ++ str "<a href='http://y.org'>y</a></p>"
  ++ [10; 10]%N
  ++ str "<h2>One</h2> <h2>Two</h2> "
  ++ concat (repeat (str "We do fast streaming. ") 12)
  ++ concat (repeat (str "a b c d e f g h i. ") 168)
  ++ [10; 10]%N
  ++ str "<p>So fast streaming is set up.</p>".
Definition perfect_slug : jsstring := str "fast-streaming-box".

(** Replacement along a description [next] of the matches of a pattern:
    [next s] is the text after the match that starts at the head of [s],
    if there is one. *)
Fixpoint replace_by (next : jsstring -> option jsstring) (rep : jsstring)
  (fuel : nat) (s : jsstring) {struct fuel} : jsstring :=
  match fuel with
  | O => s
  | S f =>
      (fix go (s : jsstring) : jsstring :=
         match s with
         | [] => []
         | c :: tl =>
             match next s with
             | Some r' => rep ++ replace_by next rep f r'
             | None => c :: go tl
             end
         end) s
  end.

(** The three descriptions used below: a tag, a run of code units
    satisfying [p], one code unit satisfying [p]. *)
Definition next_tag (s : jsstring) : option jsstring :=
  match s with
  | c :: tl => if is_lt c then after_gt tl else None
  | [] => None
  end.

Definition next_run (p : code_unit -> bool) (s : jsstring)
  : option jsstring :=
  match s with
  | c :: tl => if p c then Some (snd (run_end p (Some c) tl)) else None
  | [] => None
  end.

Definition next_one (p : code_unit -> bool) (s : jsstring)
  : option jsstring :=
  match s with
  | c :: tl => if p c then Some tl else None
  | [] => None
  end.

(** The number of occurrences of [h] in a text. *)
Definition count_char (h : code_unit) (s : jsstring) : nat :=
  length (filter (N.eqb h) s).

(** The five bands of the score display: shade and label. *)
Definition score_bands : list (jsstring * jsstring) :=
  [(str "green-600", str "Excellent"); (str "green-500", str "Good");
   (str "yellow-500", str "Fair"); (str "orange-500", str "Poor");
   (str "red-500", str "Needs Work")].

(** The code unit before the position reached by matching [kw]. *)
Definition before_after (b : option code_unit) (kw : jsstring)
  : option code_unit :=
  fold_left (fun _ c => Some c) kw b.

(** ** More sample inputs *)

Definition sample_cleanName_input : jsstring :=
  str "My Holiday  Photo (1).JPG".

(** The text with a space for every code unit that is neither a letter,
    a digit nor whitespace. *)
Definition blank_others (s : jsstring) : jsstring :=
  map (fun c => if (is_alnum c || is_space c)%bool then c else cu " ") s.

(** The text starts with whitespace. *)
Definition starts_space (s : jsstring) : bool :=
  match s with c :: _ => is_space c | [] => false end.

Definition no_space (s : jsstring) : bool :=
  forallb (fun c => negb (is_space c)) s.

(** * Proofs *)

(** ** The nine checks *)

Ltac split_ifs :=
  repeat match goal with
         | |- context [if ?b then _ else _] => destruct b
         end.

Ltac check_cases f := intros; unfold f, add; split_ifs; simpl; lia.

Section Checks.
Variable toLowerCase : jsstring -> jsstring.
Local Open Scope Z_scope.

Lemma checkTitle_spec title l :
  let '(c, l') := checkTitle title l in
  totalScore l' = totalScore l + SEOCheck.score c /\
  0 <= SEOCheck.score c <= 15.
Proof. check_cases checkTitle. Qed.

Lemma checkDescription_spec description l :
  let '(c, l') := checkDescription description l in
  totalScore l' = totalScore l + SEOCheck.score c /\
  0 <= SEOCheck.score c <= 10.
Proof. check_cases checkDescription. Qed.

Lemma checkContent_spec wordCount l :
  let '(c, l') := checkContent wordCount l in
  totalScore l' = totalScore l + SEOCheck.score c /\
  0 <= SEOCheck.score c <= 20.
Proof. check_cases checkContent. Qed.

Lemma checkKeyword_spec title p1 p2 kw d wc kc l :
  let '(c, l') := checkKeyword toLowerCase title p1 p2 kw d wc kc l in
  totalScore l' = totalScore l + SEOCheck.score c /\
  3 <= SEOCheck.score c <= 20.
Proof. check_cases checkKeyword. Qed.

Lemma checkHeadings_spec h l :
  let '(c, l') := checkHeadings h l in
  totalScore l' = totalScore l + SEOCheck.score c /\
  0 <= SEOCheck.score c <= 10.
Proof. destruct h as [[h1 h2] h3]. check_cases checkHeadings. Qed.

Lemma checkLinks_spec k l :
  let '(c, l') := checkLinks k l in
  totalScore l' = totalScore l + SEOCheck.score c /\
  5 <= SEOCheck.score c <= 10.
Proof. destruct k as [i e]. check_cases checkLinks. Qed.

Lemma checkImages_spec i l :
  let '(c, l') := checkImages i l in
  totalScore l' = totalScore l + SEOCheck.score c /\
  2 <= SEOCheck.score c <= 5.
Proof. destruct i as [t a]. check_cases checkImages. Qed.

Lemma checkSlug_spec slug l :
  let '(c, l') := checkSlug slug l in
  totalScore l' = totalScore l + SEOCheck.score c /\
  0 <= SEOCheck.score c <= 5.
Proof. check_cases checkSlug. Qed.

Lemma checkReadability_spec r l :
  let '(c, l') := checkReadability r l in
  totalScore l' = totalScore l + SEOCheck.score c /\
  2 <= SEOCheck.score c <= 5.
Proof. check_cases checkReadability. Qed.
End Checks.

(** ** The overall score *)

Section Score.
Variable toLowerCase : jsstring -> jsstring.
Variable RegExp_host : HostRegExp.
Local Open Scope Z_scope.

(** With the host answering for the patterns outside the fragment,
    counting the matches of a keyword completes or throws. *)
Lemma keywordMatches_outcome text kw :
  (exists e, keywordMatches RegExp_host text kw = Throw e) \/
  (exists n, keywordMatches RegExp_host text kw = Normal n).
Proof.
  unfold keywordMatches.
  destruct (RegExp_new kw) as [re | e |]; [right | left |]; eauto.
  destruct (RegExp_host kw) as [e | count]; [left | right]; eauto.
Qed.

(** [analyzeSEO] throws, or it returns the record that the nine blocks
    build from the keyword density and the keyword count. *)
Lemma analyzeSEO_outcome title description content slug tags :
  (exists e,
     analyzeSEO toLowerCase RegExp_host title description content slug tags
     = Throw e) \/
  (exists keywordDensity keywordCount,
     analyzeSEO toLowerCase RegExp_host title description content slug tags
     = Normal
         (runChecks toLowerCase title description slug
            (extractFocusKeyword toLowerCase title tags) (countWords content)
            keywordDensity keywordCount (getFirstParagraph content)
            (getLastParagraph content) (countHeadings content)
            (countLinks content) (countImages content)
            (calculateReadability toLowerCase content))).
Proof.
  unfold analyzeSEO, calculateKeywordDensity.
  set (kw := extractFocusKeyword toLowerCase title tags).
  destruct (keywordMatches_outcome (toLowerCase content) (toLowerCase kw))
    as [[e E] | [n E]]; rewrite E.
  - left. destruct kw; cbn [bind]; eauto.
  - right. destruct kw; cbn [bind]; eauto.
Qed.

(** [analyzeSEO] throws exactly when the pattern made of the focus
    keyword is rejected. *)
Lemma analyzeSEO_throws title description content slug tags e :
  analyzeSEO toLowerCase RegExp_host title description content slug tags
  = Throw e <->
  keywordMatches RegExp_host (toLowerCase content)
    (toLowerCase (extractFocusKeyword toLowerCase title tags)) = Throw e.
Proof.
  unfold analyzeSEO, calculateKeywordDensity.
  set (kw := extractFocusKeyword toLowerCase title tags).
  destruct (keywordMatches_outcome (toLowerCase content) (toLowerCase kw))
    as [[e' E] | [n E]]; rewrite E; destruct kw; cbn [bind];
    split; intros H; try discriminate H; injection H as ->; reflexivity.
Qed.

Lemma analyzeSEO_inv title description content slug tags a :
  analyzeSEO toLowerCase RegExp_host title description content slug tags = Normal a ->
  exists keywordDensity keywordCount,
    calculateKeywordDensity toLowerCase RegExp_host content
      (extractFocusKeyword toLowerCase title tags) = Normal keywordDensity /\
    keywordMatches RegExp_host (toLowerCase content)
      (toLowerCase (extractFocusKeyword toLowerCase title tags))
      = Normal keywordCount /\
    a = runChecks toLowerCase title description slug
          (extractFocusKeyword toLowerCase title tags) (countWords content)
          keywordDensity keywordCount (getFirstParagraph content)
          (getLastParagraph content) (countHeadings content)
          (countLinks content) (countImages content)
          (calculateReadability toLowerCase content).
Proof.
  unfold analyzeSEO. intros H.
  destruct (calculateKeywordDensity _ _ _) as [d | e | ]; simpl in H;
    try discriminate.
  destruct (keywordMatches _ _) as [c | e | ]; simpl in H;
    try discriminate.
  exists d, c. inversion H. auto.
Qed.

(** The record built by the nine blocks: the total is the sum of the
    component scores, and each component lies in its range. *)
Lemma runChecks_scores title description slug kw wc d kc p1 p2 h k i r :
  let a := runChecks toLowerCase title description slug kw wc d kc p1 p2
             h k i r in
  let s := SEOCheck.score in
  SEOAnalysis.score a =
    s (SEOAnalysis.title a) + s (SEOAnalysis.description a)
    + s (SEOAnalysis.content a) + s (SEOAnalysis.keyword a)
    + s (SEOAnalysis.headings a) + s (SEOAnalysis.links a)
    + s (SEOAnalysis.images a) + s (SEOAnalysis.slug a)
    + s (SEOAnalysis.readability a) /\
  0 <= s (SEOAnalysis.title a) <= 15 /\
  0 <= s (SEOAnalysis.description a) <= 10 /\
  0 <= s (SEOAnalysis.content a) <= 20 /\
  3 <= s (SEOAnalysis.keyword a) <= 20 /\
  0 <= s (SEOAnalysis.headings a) <= 10 /\
  5 <= s (SEOAnalysis.links a) <= 10 /\
  2 <= s (SEOAnalysis.images a) <= 5 /\
  0 <= s (SEOAnalysis.slug a) <= 5 /\
  2 <= s (SEOAnalysis.readability a) <= 5.
Proof.
  unfold runChecks.
  pose proof (checkTitle_spec title (MkLocals [] 0)) as H1.
  destruct (checkTitle title _) as [c1 l1].
  pose proof (checkDescription_spec description l1) as H2.
  destruct (checkDescription description l1) as [c2 l2].
  pose proof (checkContent_spec wc l2) as H3.
  destruct (checkContent wc l2) as [c3 l3].
  pose proof (checkKeyword_spec toLowerCase title p1 p2 kw d wc kc l3) as H4.
  destruct (checkKeyword _ title p1 p2 kw d wc kc l3) as [c4 l4].
  pose proof (checkHeadings_spec h l4) as H5.
  destruct (checkHeadings h l4) as [c5 l5].
  pose proof (checkLinks_spec k l5) as H6.
  destruct (checkLinks k l5) as [c6 l6].
  pose proof (checkImages_spec i l6) as H7.
  destruct (checkImages i l6) as [c7 l7].
  pose proof (checkSlug_spec slug l7) as H8.
  destruct (checkSlug slug l7) as [c8 l8].
  pose proof (checkReadability_spec r l8) as H9.
  destruct (checkReadability r l8) as [c9 l9].
  cbn [SEOAnalysis.score SEOAnalysis.title SEOAnalysis.description
       SEOAnalysis.content SEOAnalysis.keyword SEOAnalysis.headings
       SEOAnalysis.links SEOAnalysis.images SEOAnalysis.slug
       SEOAnalysis.readability].
  unfold Math_round. simpl in H1. lia.
Qed.
End Score.

(** The breakdown shown by the [SEOAnalyzer] component: Structure out
    of 25 and Technical out of 10. *)
Lemma breakdown_within_denominators
  toLowerCase title description slug kw wc d kc p1 p2 h k i r :
  let a := runChecks toLowerCase title description slug kw wc d kc p1 p2
             h k i r in
  (structureScore a <= 25 /\ technicalScore a <= 10)%Z.
Proof.
  pose proof (runChecks_scores toLowerCase title description slug kw wc d kc
                p1 p2 h k i r) as R.
  cbv zeta in R |- *. unfold structureScore, technicalScore. lia.
Qed.

(** ** The matcher on character classes *)

Lemma clear_caps_nil x : clear_caps [] x = x.
Proof.
  destruct x as [b s cs]. unfold clear_caps. simpl. f_equal.
  induction cs as [| c cs IH]; simpl; [reflexivity | now rewrite IH].
Qed.

Lemma run_end_length p b s : length (snd (run_end p b s)) <= length s.
Proof.
  revert b. induction s as [| c tl IH]; intros b; simpl; [lia |].
  destruct (p c); simpl; [specialize (IH (Some c)) |]; lia.
Qed.

(** A greedy star over a class, with nothing after it, runs to the end
    of the run of accepted code units. *)
Lemma star_class_run neg rs fuel b s cs :
  length s < fuel ->
  repeat_loop _ (rmatch (Cls neg rs)) [] Some true fuel 0 None
    (MState b s cs)
  = Some (MState (fst (run_end (cls_accepts neg rs) b s))
                 (snd (run_end (cls_accepts neg rs) b s)) cs).
Proof.
  revert b s. induction fuel as [| fuel IH]; intros b s Hlen; [lia |].
  cbn [repeat_loop]. rewrite clear_caps_nil.
  destruct s as [| c tl]; [reflexivity |].
  cbn [rmatch rest caps run_end Nat.eqb negb length andb].
  fold (cls_accepts neg rs c).
  destruct (cls_accepts neg rs c); [| reflexivity].
  replace (Nat.eqb (length tl) (S (length tl))) with false
    by (symmetry; apply Nat.eqb_neq; lia).
  cbn [Nat.pred pred_max]. rewrite IH by (simpl in Hlen; lia).
  reflexivity.
Qed.

Lemma match_here_plus_class neg rs b s :
  match_here (plus (Cls neg rs)) b s =
  match s with
  | c :: tl =>
      if cls_accepts neg rs c then
        Some (MState (fst (run_end (cls_accepts neg rs) (Some c) tl))
                     (snd (run_end (cls_accepts neg rs) (Some c) tl)) [])
      else None
  | [] => None
  end.
Proof.
  unfold match_here, plus. cbn [rmatch groups rest].
  cbn [repeat_loop]. rewrite clear_caps_nil.
  destruct s as [| c tl]; [reflexivity |].
  cbn [rmatch rest caps Nat.eqb negb andb].
  fold (cls_accepts neg rs c).
  destruct (cls_accepts neg rs c); [| reflexivity].
  cbn [Nat.pred pred_max]. apply star_class_run. simpl. lia.
Qed.

Lemma run_end_trimStart b s :
  snd (run_end is_space b s) = trimStart s.
Proof.
  revert b. induction s as [| c tl IH]; intros b; simpl; [reflexivity |].
  destruct (is_space c); [apply IH | reflexivity].
Qed.

Lemma trimStart_length s : length (trimStart s) <= length s.
Proof.
  induction s as [| c tl IH]; simpl; [lia |].
  destruct (is_space c); simpl; lia.
Qed.

(** One attempt of the whitespace separator: it fails on a non-space, and
    otherwise consumes the whole run of spaces. *)
Lemma match_here_spaces b s :
  match s with
  | c :: tl =>
      if is_space c then
        exists y, match_here re_spaces b s = Some y /\
                  rest y = trimStart tl
      else match_here re_spaces b s = None
  | [] => match_here re_spaces b s = None
  end.
Proof.
  unfold re_spaces. rewrite match_here_plus_class.
  destruct s as [| c tl]; [reflexivity |].
  change (cls_accepts false space_ranges) with is_space.
  destruct (is_space c); [| reflexivity].
  eexists. split; [reflexivity |]. simpl. apply run_end_trimStart.
Qed.

(** ** Splitting at whitespace *)

Lemma nonempty_rev s : nonempty (rev s) = nonempty s.
Proof. unfold nonempty. now rewrite length_rev. Qed.

Lemma tokens_from_trimStart s : tokens_from [] (trimStart s) = tokens_from [] s.
Proof.
  induction s as [| c tl IH]; simpl; [reflexivity |].
  destruct (is_space c) eqn:E; [exact IH |]. simpl. now rewrite E.
Qed.

(** The non-empty pieces of a split at whitespace are the tokens. *)
Lemma split_loop_spaces fuel b acc s :
  length s < fuel ->
  filter nonempty (split_loop fuel re_spaces b acc s) = tokens_from acc s.
Proof.
  revert b acc s. induction fuel as [| fuel IH]; intros b acc s Hlen; [lia |].
  destruct s as [| c tl].
  - simpl. rewrite nonempty_rev. destruct acc; reflexivity.
  - cbn [split_loop tokens_from].
    pose proof (match_here_spaces b (c :: tl)) as Hm. cbn beta iota in Hm.
    destruct (is_space c).
    + destruct Hm as (y & -> & Hy).
      assert (Hsh : Nat.eqb (length (rest y)) (length (c :: tl)) = false).
      { apply Nat.eqb_neq. rewrite Hy. pose proof (trimStart_length tl).
        simpl. lia. }
      rewrite Hsh.
      assert (Htl : filter nonempty
                      (split_loop fuel re_spaces (before y) [] (rest y))
                    = tokens_from [] tl).
      { rewrite IH.
        - rewrite Hy. apply tokens_from_trimStart.
        - rewrite Hy. pose proof (trimStart_length tl). simpl in Hlen. lia. }
      destruct acc as [| a acc'].
      * simpl. exact Htl.
      * cbn [filter]. rewrite nonempty_rev. simpl nonempty.
        now rewrite Htl.
    + rewrite Hm. apply IH. simpl in Hlen. lia.
Qed.

Lemma split_spaces_tokens s :
  filter nonempty (split re_spaces s) = tokens s.
Proof.
  unfold split, tokens. destruct s as [| c tl].
  - pose proof (match_here_spaces None []) as H. simpl in H. now rewrite H.
  - apply split_loop_spaces. simpl. lia.
Qed.

(** Trailing and leading whitespace carry no token. *)
Lemma tokens_from_app_space cur s c :
  is_space c = true -> tokens_from cur (s ++ [c]) = tokens_from cur s.
Proof.
  intros Hc. revert cur. induction s as [| d tl IH]; intros cur; simpl.
  - rewrite Hc. destruct cur; reflexivity.
  - destruct (is_space d); [destruct cur; now rewrite IH | apply IH].
Qed.

Lemma tokens_rev_trimStart u :
  tokens (rev (trimStart u)) = tokens (rev u).
Proof.
  unfold tokens. induction u as [| c tl IH]; simpl; [reflexivity |].
  destruct (is_space c) eqn:E; [| reflexivity].
  now rewrite tokens_from_app_space.
Qed.

Lemma tokens_trim s : tokens (trim s) = tokens s.
Proof.
  unfold trim. rewrite tokens_rev_trimStart, rev_involutive.
  apply tokens_from_trimStart.
Qed.

(** [countWords] counts the whitespace-separated tokens. *)
Lemma countWords_token_count s : countWords s = token_count s.
Proof.
  unfold countWords, token_count.
  now rewrite split_spaces_tokens, tokens_trim.
Qed.

(** ** Removing the matches of a character class *)

Lemma consumed_one (c : code_unit) tl : consumed (c :: tl) tl = [c].
Proof.
  unfold consumed. replace (length (c :: tl) - length tl) with 1
    by (cbn [length]; lia). reflexivity.
Qed.

Lemma search_class neg rs s b :
  (search (Cls neg rs) b s = None /\
   filter (fun c => negb (cls_accepts neg rs c)) s = s) \/
  (exists skip c tl,
     search (Cls neg rs) b s = Some (skip, [c], MState (Some c) tl []) /\
     s = skip ++ c :: tl /\ cls_accepts neg rs c = true /\
     filter (fun c => negb (cls_accepts neg rs c)) skip = skip).
Proof.
  revert b. induction s as [| c tl IH]; intros b.
  - left. split; reflexivity.
  - cbn [search]. unfold match_here. cbn [rmatch rest caps].
    fold (cls_accepts neg rs c).
    destruct (cls_accepts neg rs c) eqn:E.
    + right. exists [], c, tl. cbn [rest]. rewrite consumed_one. auto.
    + destruct (IH (Some c)) as [[Hn Hf] | (skip & d & tl' & Hs & -> & Hd & Hf)].
      * left. rewrite Hn. split; [reflexivity |]. simpl. rewrite E. simpl.
        now rewrite Hf.
      * right. exists (c :: skip), d, tl'. rewrite Hs.
        repeat split; auto. simpl. rewrite E. simpl. now rewrite Hf.
Qed.

Lemma scan_class neg rs fuel b s :
  length s < fuel ->
  let '(ms, trail) := scan fuel (Cls neg rs) b s in
  concat (map fst ms) ++ trail
  = filter (fun c => negb (cls_accepts neg rs c)) s.
Proof.
  revert b s. induction fuel as [| fuel IH]; intros b s Hlen; [lia |].
  cbn [scan].
  destruct (search_class neg rs s b)
    as [[-> Hf] | (skip & c & tl & -> & -> & Hc & Hf)].
  - simpl. now rewrite Hf.
  - cbn [rest before].
    specialize (IH (Some c) tl).
    destruct (scan fuel (Cls neg rs) (Some c) tl) as [ms trail].
    cbn [map fst concat]. rewrite <- app_assoc, IH.
    + rewrite filter_app. simpl. rewrite Hc. simpl. now rewrite Hf.
    + rewrite length_app in Hlen. simpl in Hlen. lia.
Qed.

Lemma remove_all_class neg rs s :
  remove_all (Cls neg rs) s
  = filter (fun c => negb (cls_accepts neg rs c)) s.
Proof.
  unfold remove_all.
  pose proof (scan_class neg rs (S (length s)) None s) as H.
  destruct (scan _ _ _ _) as [ms trail]. apply H. lia.
Qed.

Lemma in_ranges_app c rs1 rs2 :
  in_ranges c (rs1 ++ rs2) = (in_ranges c rs1 || in_ranges c rs2)%bool.
Proof. unfold in_ranges. apply existsb_app. Qed.

(** Removing the punctuation keeps the word characters and the
    whitespace. *)
Lemma remove_punctuation s :
  remove_all re_punctuation s = filter keeps_word_or_space s.
Proof.
  unfold re_punctuation. rewrite remove_all_class.
  apply filter_ext. intros c. unfold cls_accepts, keeps_word_or_space.
  rewrite in_ranges_app. unfold is_word, is_space.
  now destruct (in_ranges c word_ranges), (in_ranges c space_ranges).
Qed.

(** ** The focus keyword *)

Lemma filter_through (A : Type) (f g : A -> bool) (l : list A) :
  (forall x, f x = true -> g x = true) ->
  filter f (filter g l) = filter f l.
Proof.
  intros H. induction l as [| x l IH]; simpl; [reflexivity |].
  destruct (g x) eqn:G; simpl.
  - now rewrite IH.
  - destruct (f x) eqn:F; [| exact IH]. apply H in F. congruence.
Qed.

Section FocusKeywordProofs.
Variable toLowerCase : jsstring -> jsstring.

Lemma titleWords_usable_words title :
  titleWords toLowerCase title = usable_words toLowerCase title.
Proof.
  unfold titleWords, usable_words, title_tokens.
  rewrite remove_punctuation, <- split_spaces_tokens.
  symmetry. apply filter_through. intros w Hw.
  apply andb_prop in Hw. destruct Hw as [Hlen _].
  unfold nonempty. apply Nat.ltb_lt in Hlen. apply Nat.ltb_lt. lia.
Qed.

Lemma extractFocusKeyword_focus_keyword title tags :
  extractFocusKeyword toLowerCase title tags
  = focus_keyword toLowerCase title tags.
Proof.
  unfold extractFocusKeyword, focus_keyword.
  rewrite titleWords_usable_words.
  destruct (usable_words toLowerCase title) as [| w0 [| w1 ws]];
    destruct tags; reflexivity.
Qed.
End FocusKeywordProofs.

(** ** Patterns without syntax characters *)

Lemma not_syntax_char c :
  is_syntax_char c = false ->
  forall k, In k syntax_chars -> N.eqb c k = false.
Proof.
  intros H k Hk. destruct (N.eqb c k) eqn:E; [| reflexivity].
  assert (is_syntax_char c = true)
    by (apply existsb_exists; exists k; auto).
  congruence.
Qed.

Ltac plain_char H :=
  repeat match goal with
         | |- context [N.eqb ?c (cu ?a)] =>
             rewrite (not_syntax_char c H (cu a))
               by (vm_compute; tauto)
         end.

Lemma parse_quantifier_plain c tl :
  Forall (fun c => is_syntax_char c = false) tl ->
  parse_quantifier (Cls false [(c, c)]) tl = Normal (Cls false [(c, c)], tl).
Proof.
  intros H. destruct tl as [| d tl']; [reflexivity |].
  inversion H as [| ? ? Hd _]; subst.
  unfold parse_quantifier. cbn [is_assertion]. plain_char Hd. reflexivity.
Qed.

(** A pattern without syntax characters compiles to the literal match of
    itself. *)
Lemma parse_plain fuel s n :
  Forall (fun c => is_syntax_char c = false) s ->
  length s < fuel ->
  parse_disjunction fuel s n = Normal ((literal s, None), [], n).
Proof.
  revert s. induction fuel as [| fuel IH]; intros s Hs Hlen; [lia |].
  destruct s as [| c tl]; [reflexivity |].
  inversion Hs as [| ? ? Hc Htl]; subst.
  cbn [parse_disjunction]. plain_char Hc. cbn [orb].
  rewrite parse_quantifier_plain by assumption. cbn [bind].
  rewrite IH by (simpl in Hlen; auto; lia). reflexivity.
Qed.

Lemma RegExp_new_plain s :
  Forall (fun c => is_syntax_char c = false) s ->
  RegExp_new s = Normal (literal s).
Proof.
  intros H. unfold RegExp_new. rewrite parse_plain by (auto; lia).
  reflexivity.
Qed.

Lemma keeps_not_syntax c :
  keeps_word_or_space c = true -> is_syntax_char c = false.
Proof.
  intros H. destruct (is_syntax_char c) eqn:E; [| reflexivity].
  apply existsb_exists in E. destruct E as (k & Hk & Hck).
  apply N.eqb_eq in Hck. subst k.
  repeat (destruct Hk as [<- | Hk]; [vm_compute in H; discriminate |]).
  destruct Hk.
Qed.

Lemma tokens_from_chars cur s w c :
  In w (tokens_from cur s) -> In c w -> In c cur \/ In c s.
Proof.
  revert cur. induction s as [| d tl IH]; intros cur Hw Hc.
  - simpl in Hw. destruct cur as [| a cur']; [destruct Hw |].
    destruct Hw as [<- | []]. left. now apply in_rev.
  - simpl in Hw. destruct (is_space d).
    + destruct cur as [| a cur'].
      * destruct (IH [] Hw Hc) as [[] | H]. right. now right.
      * destruct Hw as [<- | Hw]; [left; now apply in_rev |].
        destruct (IH [] Hw Hc) as [[] | H]. right. now right.
    + destruct (IH (d :: cur) Hw Hc) as [[-> | H] | H].
      * right. now left.
      * now left.
      * right. now right.
Qed.

Section Returns.
Variable toLowerCase : jsstring -> jsstring.
Variable RegExp_host : HostRegExp.

(** Lowercasing word characters and whitespace gives no pattern
    syntax character. *)
Hypothesis lower_plain :
  forall s, Forall (fun c => keeps_word_or_space c = true) s ->
            Forall (fun c => is_syntax_char c = false) (toLowerCase s).

Lemma usable_word_chars title w :
  In w (usable_words toLowerCase title) ->
  Forall (fun c => keeps_word_or_space c = true) w.
Proof.
  intros Hw. apply Forall_forall. intros c Hc.
  unfold usable_words in Hw. apply filter_In in Hw. destruct Hw as [Hw _].
  unfold title_tokens, tokens in Hw.
  destruct (tokens_from_chars _ _ _ _ Hw Hc) as [[] | H].
  apply filter_In in H. tauto.
Qed.

Lemma focus_keyword_chars title tags :
  tags = [] \/ 2 <= length (usable_words toLowerCase title) ->
  Forall (fun c => keeps_word_or_space c = true)
    (focus_keyword toLowerCase title tags).
Proof.
  intros H. unfold focus_keyword.
  pose proof (usable_word_chars title) as Hws.
  destruct (usable_words toLowerCase title) as [| w0 [| w1 ws]].
  - destruct H as [-> | H]; [constructor | simpl in H; lia].
  - destruct H as [-> | H]; [| simpl in H; lia].
    apply Hws. now left.
  - apply Forall_app. split; [apply Hws; now left |].
    apply Forall_app. split; [| apply Hws; right; now left].
    repeat constructor.
Qed.

Lemma keywordMatches_plain text kw :
  Forall (fun c => keeps_word_or_space c = true) kw ->
  keywordMatches RegExp_host text (toLowerCase kw)
  = Normal (length (match_all (literal (toLowerCase kw)) text)).
Proof.
  intros H. unfold keywordMatches.
  rewrite RegExp_new_plain by now apply lower_plain. reflexivity.
Qed.

(** When the focus keyword comes from the title, [analyzeSEO]
    returns. *)
Lemma analyzeSEO_returns title description content slug tags :
  tags = [] \/ 2 <= length (usable_words toLowerCase title) ->
  exists a,
    analyzeSEO toLowerCase RegExp_host title description content slug tags
    = Normal a.
Proof.
  intros H. apply focus_keyword_chars in H.
  rewrite <- extractFocusKeyword_focus_keyword in H.
  unfold analyzeSEO, calculateKeywordDensity.
  rewrite !keywordMatches_plain by assumption.
  destruct (extractFocusKeyword toLowerCase title tags);
    simpl; eexists; reflexivity.
Qed.
End Returns.

(** The Basic Latin case mapping meets the hypothesis of [Returns]. *)
Lemma lower_code_unit_plain c :
  keeps_word_or_space c = true -> is_syntax_char (lower_code_unit c) = false.
Proof.
  intros H. unfold lower_code_unit.
  destruct (in_range c (65, 90)%N) eqn:R; [| now apply keeps_not_syntax].
  unfold in_range in R. apply andb_prop in R. destruct R as [R1 R2].
  apply N.leb_le in R1, R2. cbn [fst snd] in R1, R2.
  assert (Hr : (97 <= c + 32 <= 122)%N) by lia.
  generalize dependent (c + 32)%N. clear. intros d Hr.
  destruct (is_syntax_char d) eqn:E; [| reflexivity].
  apply existsb_exists in E. destruct E as (k & Hk & Hdk).
  apply N.eqb_eq in Hdk. subst k.
  repeat (destruct Hk as [<- | Hk]; [unfold cu in Hr; simpl in Hr; lia |]).
  destruct Hk.
Qed.

Lemma basic_latin_lower_plain s :
  Forall (fun c => keeps_word_or_space c = true) s ->
  Forall (fun c => is_syntax_char c = false) (basic_latin_lower s).
Proof.
  intros H. unfold basic_latin_lower. apply Forall_map.
  eapply Forall_impl; [| exact H]. apply lower_code_unit_plain.
Qed.

(** Without tags, [analyzeSEO] returns on every title, description,
    content and slug. *)
Lemma analyzeSEO_returns_without_tags RegExp_host
  title description content slug :
  exists a,
    analyzeSEO basic_latin_lower RegExp_host title description content slug []
    = Normal a.
Proof.
  apply analyzeSEO_returns; [apply basic_latin_lower_plain | now left].
Qed.

(** ** The model on concrete inputs *)

Example split_at_spaces :
  split re_spaces (str " a  b ") = [[]; str "a"; str "b"; []].
Proof. vm_compute. reflexivity. Qed.

Example countWords_sample : countWords sample_content = 18.
Proof. vm_compute. reflexivity. Qed.

Example strip_tags :
  remove_all re_tag (str "<p>Hi <b>you</b></p> a<b") = str "Hi you a<b".
Proof. vm_compute. reflexivity. Qed.

Example paragraphs_sample :
  getFirstParagraph sample_content
    = str "IPTV boxThe iptv box is great. Buy an IPTV BOX today!" /\
  getLastParagraph sample_content = str "See here and .".
Proof. split; vm_compute; reflexivity. Qed.

Example counts_sample :
  countHeadings sample_content = (1, 0, 0) /\
  countLinks sample_content = (1, 0) /\
  countImages sample_content = (1, 1).
Proof. repeat split; vm_compute; reflexivity. Qed.

Example focus_keyword_sample :
  extractFocusKeyword basic_latin_lower sample_title [] = str "iptv box" /\
  extractFocusKeyword basic_latin_lower (str "The Guide") [str "Sports TV"]
    = str "sports tv" /\
  extractFocusKeyword basic_latin_lower (str "The streaming guide") []
    = str "streaming" /\
  extractFocusKeyword basic_latin_lower (str "How to") [] = [].
Proof. repeat split; vm_compute; reflexivity. Qed.

Example patterns_sample :
  RegExp_new (str "iptv box") = Normal (literal (str "iptv box")) /\
  RegExp_new (str "c++") = Throw SyntaxError /\
  RegExp_new (str "(") = Throw SyntaxError /\
  RegExp_new (str "[") = Throw SyntaxError /\
  RegExp_new (str "a)") = Throw SyntaxError /\
  keywordMatches host_rejects (str "an iptv box, the iptv box")
    (str "iptv box") = Normal 2 /\
  keywordMatches host_rejects (str "node js nodejs") (str "node.?js")
  = Normal 2.
Proof. repeat split; vm_compute; reflexivity. Qed.

(** The empty pattern matches at every position, the end included. *)
Example empty_pattern_count :
  keywordMatches host_rejects (str "abc") [] = Normal 4.
Proof. vm_compute. reflexivity. Qed.

(** Patterns outside the fragment are parsed by the host: a braced
    quantifier, a literal brace, a group without capture, a class
    escape.  The analyzer then returns the record built from the
    host's count, or throws the host's error. *)
Example patterns_of_the_host :
  map RegExp_new [str "a{2}"; str "{tag}"; str "(?:iptv)"; str "[\d]"]
  = repeat OutOfFragment 4 /\
  keywordMatches (host_counts 3) (str "aa aa aa") (str "a{2}") = Normal 3 /\
  keywordMatches host_rejects (str "aa aa aa") (str "a{2}")
  = Throw SyntaxError /\
  (exists a,
     analyzeSEO basic_latin_lower (host_counts 3) (str "Setup")
       sample_description sample_content sample_slug [str "a{2}"]
     = Normal a /\
     KeywordCheck.keyword (SEOAnalysis.keyword a) = str "a{2}" /\
     KeywordCheck.count (SEOAnalysis.keyword a) = 3 /\
     SEOAnalysis.score a = 47%Z).
Proof.
  split; [vm_compute; reflexivity |].
  split; [vm_compute; reflexivity |].
  split; [vm_compute; reflexivity |].
  eexists. repeat split; vm_compute; reflexivity.
Qed.

(** An empty focus keyword is a substring of every text, but it is not
    counted as occurring: the keyword check of the empty article scores
    the 3 points of a low density only. *)
Example empty_keyword_scores_nothing :
  exists a,
    analyzeSEO basic_latin_lower host_rejects [] [] [] [] [] = Normal a /\
    KeywordCheck.keyword (SEOAnalysis.keyword a) = [] /\
    includes (basic_latin_lower []) (basic_latin_lower []) = true /\
    SEOCheck.score (SEOAnalysis.keyword a) = 3%Z.
Proof. eexists. repeat split; vm_compute; reflexivity. Qed.

Example sample_scores :
  exists a,
    analyzeSEO basic_latin_lower host_rejects sample_title sample_description
      sample_content sample_slug [] = Normal a /\
    SEOAnalysis.score a = 65%Z /\
    map SEOCheck.score
      [SEOAnalysis.title a; SEOAnalysis.description a;
       ContentCheck.base (SEOAnalysis.content a);
       KeywordCheck.base (SEOAnalysis.keyword a);
       HeadingCheck.base (SEOAnalysis.headings a);
       LinkCheck.base (SEOAnalysis.links a);
       ImageCheck.base (SEOAnalysis.images a); SEOAnalysis.slug a;
       ReadabilityCheck.base (SEOAnalysis.readability a)]
    = [15; 5; 5; 13; 7; 5; 5; 5; 5]%Z /\
    SEOCheck.message (SEOAnalysis.keyword a)
    = str "Keyword density high (16.7%). Reduce usage.".
Proof. eexists. repeat split; vm_compute; reflexivity. Qed.

Example sitemap_sample :
  map Entry.url (sitemap run_or_fallback true sample_db 100 101)
  = map str ["https://iptv-blogg.site"; "https://iptv-blogg.site/articles";
             "https://iptv-blogg.site/article/new";
             "https://iptv-blogg.site/article/old";
             "https://iptv-blogg.site/category/sports";
             "https://iptv-blogg.site/pages/about"]%string.
Proof. vm_compute. reflexivity. Qed.

(** ** The claims about [analyzeSEO] *)

(** C1: for every input, and whatever the host does with the patterns
    outside the fragment, [analyzeSEO] throws or returns a record whose
    overall score is the sum of the nine component scores, each
    component at most its weight (15, 10, 20, 20, 10, 10, 5, 5, 5), so
    that the overall score is at most 100. *)
Theorem analyzeSEO_score_sum
  toLowerCase RegExp_host title description content slug tags :
  (exists e,
     analyzeSEO toLowerCase RegExp_host title description content slug tags
     = Throw e) \/
  (exists a,
     analyzeSEO toLowerCase RegExp_host title description content slug tags
     = Normal a /\
     let s := SEOCheck.score in
     (SEOAnalysis.score a =
        s (SEOAnalysis.title a) + s (SEOAnalysis.description a)
        + s (SEOAnalysis.content a) + s (SEOAnalysis.keyword a)
        + s (SEOAnalysis.headings a) + s (SEOAnalysis.links a)
        + s (SEOAnalysis.images a) + s (SEOAnalysis.slug a)
        + s (SEOAnalysis.readability a) /\
      s (SEOAnalysis.title a) <= 15 /\
      s (SEOAnalysis.description a) <= 10 /\
      s (SEOAnalysis.content a) <= 20 /\
      s (SEOAnalysis.keyword a) <= 20 /\
      s (SEOAnalysis.headings a) <= 10 /\
      s (SEOAnalysis.links a) <= 10 /\
      s (SEOAnalysis.images a) <= 5 /\
      s (SEOAnalysis.slug a) <= 5 /\
      s (SEOAnalysis.readability a) <= 5 /\
      SEOAnalysis.score a <= 100)%Z).
Proof.
  destruct (analyzeSEO_outcome toLowerCase RegExp_host title description
              content slug tags) as [[e E] | (d & c & E)];
    [left; eauto | right].
  eexists. split; [exact E |].
  pose proof (runChecks_scores toLowerCase title description slug
                (extractFocusKeyword toLowerCase title tags)
                (countWords content) d c (getFirstParagraph content)
                (getLastParagraph content) (countHeadings content)
                (countLinks content) (countImages content)
                (calculateReadability toLowerCase content)) as R.
  cbv zeta in R |- *. lia.
Qed.

(** A tag with a braced quantifier is a pattern outside the fragment:
    the record comes from the host's count. *)
Lemma analyzeSEO_score_sum_witness :
  exists a,
    analyzeSEO basic_latin_lower (host_counts 3) (str "Setup")
      sample_description sample_content sample_slug [str "a{2}"]
    = Normal a /\
    (SEOAnalysis.score a <= 100)%Z.
Proof.
  destruct (analyzeSEO_score_sum basic_latin_lower (host_counts 3)
              (str "Setup") sample_description sample_content sample_slug
              [str "a{2}"]) as [[e E] | (a & E & H)].
  - exfalso. revert E. vm_compute. discriminate.
  - exists a. split; [exact E | apply H].
Defined.

(** C2: on a title with fewer than two usable words, the focus keyword
    is the first tag, lowercased; the tag [C++] is not a valid pattern,
    and [analyzeSEO] throws a SyntaxError instead of returning. *)
Theorem analyzeSEO_throws_on_tag (RegExp_host : HostRegExp) :
  extractFocusKeyword basic_latin_lower (str "Learn C++") [str "C++"]
    = str "c++" /\
  analyzeSEO basic_latin_lower RegExp_host (str "Learn C++")
    sample_description sample_content sample_slug [str "C++"]
  = Throw SyntaxError.
Proof. split; vm_compute; reflexivity. Qed.

(** ** The components of the record *)

Section Components.
Variable toLowerCase : jsstring -> jsstring.

Lemma runChecks_content title description slug kw wc d kc p1 p2 h k i r :
  exists l,
    SEOAnalysis.content
      (runChecks toLowerCase title description slug kw wc d kc p1 p2 h k i r)
    = fst (checkContent wc l).
Proof.
  unfold runChecks.
  destruct (checkTitle title _) as [c1 l1].
  destruct (checkDescription description l1) as [c2 l2].
  exists l2.
  destruct (checkContent wc l2) as [c3 l3].
  destruct (checkKeyword _ title p1 p2 kw d wc kc l3) as [c4 l4].
  destruct (checkHeadings h l4) as [c5 l5].
  destruct (checkLinks k l5) as [c6 l6].
  destruct (checkImages i l6) as [c7 l7].
  destruct (checkSlug slug l7) as [c8 l8].
  destruct (checkReadability r l8) as [c9 l9].
  reflexivity.
Qed.

Lemma runChecks_keyword title description slug kw wc d kc p1 p2 h k i r :
  exists l,
    SEOAnalysis.keyword
      (runChecks toLowerCase title description slug kw wc d kc p1 p2 h k i r)
    = fst (checkKeyword toLowerCase title p1 p2 kw d wc kc l).
Proof.
  unfold runChecks.
  destruct (checkTitle title _) as [c1 l1].
  destruct (checkDescription description l1) as [c2 l2].
  destruct (checkContent wc l2) as [c3 l3].
  exists l3.
  destruct (checkKeyword _ title p1 p2 kw d wc kc l3) as [c4 l4].
  destruct (checkHeadings h l4) as [c5 l5].
  destruct (checkLinks k l5) as [c6 l6].
  destruct (checkImages i l6) as [c7 l7].
  destruct (checkSlug slug l7) as [c8 l8].
  destruct (checkReadability r l8) as [c9 l9].
  reflexivity.
Qed.

Lemma runChecks_suggestions title description slug kw wc d kc p1 p2 h k i r :
  length (SEOAnalysis.suggestions
            (runChecks toLowerCase title description slug kw wc d kc p1 p2
               h k i r)) <= 5.
Proof.
  unfold runChecks.
  destruct (checkTitle title _) as [c1 l1].
  destruct (checkDescription description l1) as [c2 l2].
  destruct (checkContent wc l2) as [c3 l3].
  destruct (checkKeyword _ title p1 p2 kw d wc kc l3) as [c4 l4].
  destruct (checkHeadings h l4) as [c5 l5].
  destruct (checkLinks k l5) as [c6 l6].
  destruct (checkImages i l6) as [c7 l7].
  destruct (checkSlug slug l7) as [c8 l8].
  destruct (checkReadability r l8) as [c9 l9].
  cbn [SEOAnalysis.suggestions]. apply firstn_le_length.
Qed.

Lemma checkContent_table wc l :
  let c := fst (checkContent wc l) in
  ContentCheck.wordCount c = wc /\
  (SEOCheck.score c, SEOCheck.status c) = content_table wc.
Proof.
  unfold checkContent, content_table.
  destruct (Nat.eqb wc 0) eqn:E0; [simpl; auto |].
  apply Nat.eqb_neq in E0.
  destruct (Nat.ltb wc 300) eqn:E1.
  { apply Nat.ltb_lt in E1.
    replace (Nat.leb wc 299) with true by (symmetry; apply Nat.leb_le; lia).
    simpl; auto. }
  apply Nat.ltb_ge in E1.
  replace (Nat.leb wc 299) with false by (symmetry; apply Nat.leb_gt; lia).
  destruct (Nat.ltb wc 1000) eqn:E2.
  { apply Nat.ltb_lt in E2.
    replace (Nat.leb wc 999) with true by (symmetry; apply Nat.leb_le; lia).
    simpl; auto. }
  apply Nat.ltb_ge in E2.
  replace (Nat.leb wc 999) with false by (symmetry; apply Nat.leb_gt; lia).
  destruct (Nat.ltb wc 1500) eqn:E3.
  { apply Nat.ltb_lt in E3.
    replace (Nat.leb wc 1499) with true by (symmetry; apply Nat.leb_le; lia).
    simpl; auto. }
  apply Nat.ltb_ge in E3.
  replace (Nat.leb wc 1499) with false by (symmetry; apply Nat.leb_gt; lia).
  simpl; auto.
Qed.

Lemma content_table_cases n :
  (n = 0 -> content_table n = (0%Z, error)) /\
  (1 <= n <= 299 -> content_table n = (5%Z, error)) /\
  (300 <= n <= 999 -> content_table n = (10%Z, warning)) /\
  (1000 <= n <= 1499 -> content_table n = (15%Z, warning)) /\
  (1500 <= n -> content_table n = (20%Z, good)).
Proof.
  unfold content_table.
  destruct (Nat.eqb n 0) eqn:E0;
    [apply Nat.eqb_eq in E0 | apply Nat.eqb_neq in E0];
  (destruct (Nat.leb n 299) eqn:E1;
    [apply Nat.leb_le in E1 | apply Nat.leb_gt in E1]);
  (destruct (Nat.leb n 999) eqn:E2;
    [apply Nat.leb_le in E2 | apply Nat.leb_gt in E2]);
  (destruct (Nat.leb n 1499) eqn:E3;
    [apply Nat.leb_le in E3 | apply Nat.leb_gt in E3]);
  repeat split; intros; try reflexivity; lia.
Qed.

Lemma content_table_monotone n m :
  n <= m -> (fst (content_table n) <= fst (content_table m))%Z.
Proof.
  intros H. unfold content_table.
  destruct (Nat.eqb n 0) eqn:E0;
    [apply Nat.eqb_eq in E0 | apply Nat.eqb_neq in E0];
  (destruct (Nat.leb n 299) eqn:E1;
    [apply Nat.leb_le in E1 | apply Nat.leb_gt in E1]);
  (destruct (Nat.leb n 999) eqn:E2;
    [apply Nat.leb_le in E2 | apply Nat.leb_gt in E2]);
  (destruct (Nat.leb n 1499) eqn:E3;
    [apply Nat.leb_le in E3 | apply Nat.leb_gt in E3]);
  (destruct (Nat.eqb m 0) eqn:F0;
    [apply Nat.eqb_eq in F0 | apply Nat.eqb_neq in F0]);
  (destruct (Nat.leb m 299) eqn:F1;
    [apply Nat.leb_le in F1 | apply Nat.leb_gt in F1]);
  (destruct (Nat.leb m 999) eqn:F2;
    [apply Nat.leb_le in F2 | apply Nat.leb_gt in F2]);
  (destruct (Nat.leb m 1499) eqn:F3;
    [apply Nat.leb_le in F3 | apply Nat.leb_gt in F3]);
  simpl; lia.
Qed.

Lemma keywordInText_occurs_in text kw :
  keywordInText toLowerCase text kw = occurs_in toLowerCase kw text.
Proof. unfold keywordInText, occurs_in. destruct kw; reflexivity. Qed.

Lemma checkKeyword_fields title p1 p2 kw d wc kc l :
  let c := fst (checkKeyword toLowerCase title p1 p2 kw d wc kc l) in
  KeywordCheck.keyword c = kw /\
  KeywordCheck.density c = d /\
  KeywordCheck.count c = kc /\
  SEOCheck.score c
  = (points (occurs_in toLowerCase kw title) 5
     + points (occurs_in toLowerCase kw p1) 5
     + points (occurs_in toLowerCase kw p2) 3
     + (if in_band d then 7 else 3))%Z.
Proof.
  unfold checkKeyword, in_band, points.
  rewrite !keywordInText_occurs_in.
  destruct (occurs_in toLowerCase kw title),
           (occurs_in toLowerCase kw p1),
           (occurs_in toLowerCase kw p2),
           (fle (decimal 1 2) d && fle d (decimal 5 2))%bool;
    try destruct (flt d (decimal 1 2)); simpl; auto.
Qed.
End Components.

(** Lowercasing comes first, then every code unit that is neither a
    word character (a letter of Basic Latin, a digit, an underscore)
    nor whitespace is dropped, not only punctuation: an accented letter
    goes, an underscore stays. *)
Example focus_keyword_keeps_word_characters_only :
  focus_keyword basic_latin_lower
    (str "Caf" ++ [233%N] ++ str " Society Tonight") []
  = str "caf society" /\
  focus_keyword basic_latin_lower (str "My_Box: setup") [] = str "my_box setup".
Proof. split; vm_compute; reflexivity. Qed.

(** C4 (amended): for every input, and whatever the host does with the
    patterns outside the fragment, [analyzeSEO] throws or returns a
    record in which the focus keyword is the first two usable words of
    the title, else the first tag lowercased, else the first usable
    title word, else the empty string; the words of the title are the
    whitespace-separated tokens of the lowercased title from which
    every code unit other than a word character and whitespace has
    been dropped, and a word is usable when it is longer than two code
    units and is not a stop word.  The keyword score is 5 if the
    keyword occurs in the title, plus 5 if it occurs in the first
    paragraph, plus 3 if it occurs in the last paragraph, plus 7 if the
    density lies within 0.5 and 2.5 percent and 3 otherwise, where an
    empty keyword occurs nowhere. *)
Theorem keyword_score_and_focus_keyword
  toLowerCase RegExp_host title description content slug tags :
  (exists e,
     analyzeSEO toLowerCase RegExp_host title description content slug tags
     = Throw e) \/
  (exists a,
     analyzeSEO toLowerCase RegExp_host title description content slug tags
     = Normal a /\
     let k := SEOAnalysis.keyword a in
     let kw := KeywordCheck.keyword k in
     kw = focus_keyword toLowerCase title tags /\
     calculateKeywordDensity toLowerCase RegExp_host content kw
     = Normal (KeywordCheck.density k) /\
     SEOCheck.score k
     = (points (occurs_in toLowerCase kw title) 5
        + points (occurs_in toLowerCase kw (getFirstParagraph content)) 5
        + points (occurs_in toLowerCase kw (getLastParagraph content)) 3
        + (if in_band (KeywordCheck.density k) then 7 else 3))%Z).
Proof.
  destruct (analyzeSEO_outcome toLowerCase RegExp_host title description
              content slug tags) as [[e E] | (d0 & c0 & E)];
    [left; eauto | right].
  eexists. split; [exact E |].
  destruct (analyzeSEO_inv _ _ _ _ _ _ _ _ E) as (d & c & Hd & _ & Ha).
  rewrite Ha. cbv zeta.
  destruct (runChecks_keyword toLowerCase title description slug
              (extractFocusKeyword toLowerCase title tags)
              (countWords content) d c (getFirstParagraph content)
              (getLastParagraph content) (countHeadings content)
              (countLinks content) (countImages content)
              (calculateReadability toLowerCase content)) as [l ->].
  pose proof (checkKeyword_fields toLowerCase title
                (getFirstParagraph content) (getLastParagraph content)
                (extractFocusKeyword toLowerCase title tags) d
                (countWords content) c l) as F.
  cbv zeta in F. destruct F as (Fk & Fd & _ & Fs).
  rewrite Fk, Fd.
  repeat split; auto using extractFocusKeyword_focus_keyword.
Qed.

(** With a title of one usable word the keyword is the first tag; here
    it is a pattern outside the fragment. *)
Lemma keyword_score_and_focus_keyword_witness :
  exists a,
    analyzeSEO basic_latin_lower (host_counts 3) (str "Setup")
      sample_description sample_content sample_slug [str "{Tag}"]
    = Normal a /\
    focus_keyword basic_latin_lower (str "Setup") [str "{Tag}"]
    = str "{tag}" /\
    KeywordCheck.keyword (SEOAnalysis.keyword a)
    = focus_keyword basic_latin_lower (str "Setup") [str "{Tag}"].
Proof.
  destruct (keyword_score_and_focus_keyword basic_latin_lower (host_counts 3)
              (str "Setup") sample_description sample_content sample_slug
              [str "{Tag}"]) as [[e E] | (a & E & H)].
  - exfalso. revert E. vm_compute. discriminate.
  - exists a. split; [exact E |]. split; [reflexivity | apply H].
Defined.

(** The focus keyword as the specification words it differs from the
    one computed: in the title [Go fun tv] the words [go] and [tv] are
    not stop words, but they are too short to be used. *)
Lemma claimed_focus_keyword_counterexample :
  exists a,
    analyzeSEO basic_latin_lower host_rejects (str "Go fun tv") [] [] [] []
    = Normal a /\
    KeywordCheck.keyword (SEOAnalysis.keyword a) = str "fun" /\
    claimed_focus_keyword basic_latin_lower (str "Go fun tv") []
    = str "go fun" /\
    KeywordCheck.keyword (SEOAnalysis.keyword a)
    <> claimed_focus_keyword basic_latin_lower (str "Go fun tv") [].
Proof.
  eexists. split; [vm_compute; reflexivity |].
  split; [vm_compute; reflexivity |].
  split; [vm_compute; reflexivity |].
  vm_compute. discriminate.
Qed.

(** C5: for every input, and whatever the host does with the patterns
    outside the fragment, [analyzeSEO] throws or returns a record whose
    content check records the number of whitespace-separated tokens of
    the content, with score and status by the table: 0 words, 0 and
    error; 1 to 299, 5 and error; 300 to 999, 10 and warning; 1000 to
    1499, 15 and warning; 1500 or more, 20 and good.  The score does
    not decrease when the word count grows. *)
Theorem content_score_by_word_count
  toLowerCase RegExp_host title description content slug tags :
  (exists e,
     analyzeSEO toLowerCase RegExp_host title description content slug tags
     = Throw e) \/
  (exists a,
     analyzeSEO toLowerCase RegExp_host title description content slug tags
     = Normal a /\
     let n := token_count content in
     let c := SEOAnalysis.content a in
     let score_status := (SEOCheck.score c, SEOCheck.status c) in
     ContentCheck.wordCount c = n /\
     (n = 0 -> score_status = (0%Z, error)) /\
     (1 <= n <= 299 -> score_status = (5%Z, error)) /\
     (300 <= n <= 999 -> score_status = (10%Z, warning)) /\
     (1000 <= n <= 1499 -> score_status = (15%Z, warning)) /\
     (1500 <= n -> score_status = (20%Z, good)) /\
     (forall title' description' content' slug' tags' a',
         analyzeSEO toLowerCase RegExp_host title' description' content'
           slug' tags' = Normal a' ->
         n <= token_count content' ->
         (SEOCheck.score c <= SEOCheck.score (SEOAnalysis.content a'))%Z)).
Proof.
  assert (T : forall title description content slug tags a,
             analyzeSEO toLowerCase RegExp_host title description content
               slug tags = Normal a ->
             ContentCheck.wordCount (SEOAnalysis.content a)
               = token_count content /\
             (SEOCheck.score (SEOAnalysis.content a),
              SEOCheck.status (SEOAnalysis.content a))
               = content_table (token_count content)).
  { clear. intros title description content slug tags a H.
    apply analyzeSEO_inv in H. destruct H as (d & c & _ & _ & ->).
    destruct (runChecks_content toLowerCase title description slug
                (extractFocusKeyword toLowerCase title tags)
                (countWords content) d c (getFirstParagraph content)
                (getLastParagraph content) (countHeadings content)
                (countLinks content) (countImages content)
                (calculateReadability toLowerCase content)) as [l ->].
    rewrite <- countWords_token_count. apply checkContent_table. }
  destruct (analyzeSEO_outcome toLowerCase RegExp_host title description
              content slug tags) as [[e E] | (d0 & c0 & E)];
    [left; eauto | right].
  eexists. split; [exact E |].
  cbv zeta. destruct (T _ _ _ _ _ _ E) as [Hw Ht].
  pose proof (content_table_cases (token_count content)) as C.
  rewrite Ht. split; [exact Hw |].
  repeat (split; [tauto |]).
  intros title' description' content' slug' tags' a' H' Hle.
  destruct (T _ _ _ _ _ _ H') as [_ Ht'].
  pose proof (content_table_monotone _ _ Hle) as M.
  rewrite <- Ht, <- Ht' in M. exact M.
Qed.

Lemma content_score_by_word_count_witness :
  exists a,
    analyzeSEO basic_latin_lower (host_counts 3) (str "Setup")
      sample_description sample_content sample_slug [str "a{2}"]
    = Normal a /\
    token_count sample_content = 18 /\
    ContentCheck.wordCount (SEOAnalysis.content a)
    = token_count sample_content.
Proof.
  destruct (content_score_by_word_count basic_latin_lower (host_counts 3)
              (str "Setup") sample_description sample_content sample_slug
              [str "a{2}"]) as [[e E] | (a & E & H)].
  - exfalso. revert E. vm_compute. discriminate.
  - exists a. split; [exact E |]. split; [reflexivity | apply H].
Defined.

(** C7: for every input, and whatever the host does with the patterns
    outside the fragment, [analyzeSEO] throws or returns a record whose
    overall score is at least 12 and at most 100, so never 0: the links
    check awards at least 5 points, the keyword check at least 3, the
    images check at least 2 and the readability check at least 2. *)
Theorem analyzeSEO_score_bounds
  toLowerCase RegExp_host title description content slug tags :
  (exists e,
     analyzeSEO toLowerCase RegExp_host title description content slug tags
     = Throw e) \/
  (exists a,
     analyzeSEO toLowerCase RegExp_host title description content slug tags
     = Normal a /\
     (12 <= SEOAnalysis.score a <= 100 /\
      SEOAnalysis.score a <> 0 /\
      5 <= SEOCheck.score (SEOAnalysis.links a) /\
      3 <= SEOCheck.score (SEOAnalysis.keyword a) /\
      2 <= SEOCheck.score (SEOAnalysis.images a) /\
      2 <= SEOCheck.score (SEOAnalysis.readability a))%Z).
Proof.
  destruct (analyzeSEO_outcome toLowerCase RegExp_host title description
              content slug tags) as [[e E] | (d & c & E)];
    [left; eauto | right].
  eexists. split; [exact E |].
  pose proof (runChecks_scores toLowerCase title description slug
                (extractFocusKeyword toLowerCase title tags)
                (countWords content) d c (getFirstParagraph content)
                (getLastParagraph content) (countHeadings content)
                (countLinks content) (countImages content)
                (calculateReadability toLowerCase content)) as R.
  cbv zeta in R. lia.
Qed.

(** With every text empty and no tag the bound is reached. *)
Lemma analyzeSEO_score_bounds_witness :
  exists a,
    analyzeSEO basic_latin_lower host_rejects [] [] [] [] [] = Normal a /\
    SEOAnalysis.score a = 12%Z /\
    (12 <= SEOAnalysis.score a <= 100)%Z.
Proof.
  destruct (analyzeSEO_score_bounds basic_latin_lower host_rejects
              [] [] [] [] []) as [[e E] | (a & E & H)].
  - exfalso. revert E. vm_compute. discriminate.
  - exists a. split; [exact E |]. split; [| apply H].
    clear H. revert E. vm_compute. intros E. injection E as <-. reflexivity.
Defined.

(** C8: for every input, and whatever the host does with the patterns
    outside the fragment, [analyzeSEO] throws or returns a record whose
    suggestions list has at most 5 entries. *)
Theorem analyzeSEO_suggestions_at_most_five
  toLowerCase RegExp_host title description content slug tags :
  (exists e,
     analyzeSEO toLowerCase RegExp_host title description content slug tags
     = Throw e) \/
  (exists a,
     analyzeSEO toLowerCase RegExp_host title description content slug tags
     = Normal a /\
     length (SEOAnalysis.suggestions a) <= 5).
Proof.
  destruct (analyzeSEO_outcome toLowerCase RegExp_host title description
              content slug tags) as [[e E] | (d & c & E)];
    [left; eauto | right].
  eexists. split; [exact E | apply runChecks_suggestions].
Qed.

(** On the empty article thirteen suggestions are pushed and five kept. *)
Lemma analyzeSEO_suggestions_at_most_five_witness :
  exists a,
    analyzeSEO basic_latin_lower host_rejects [] [] [] [] [] = Normal a /\
    length (SEOAnalysis.suggestions a) = 5 /\
    length (SEOAnalysis.suggestions a) <= 5.
Proof.
  destruct (analyzeSEO_suggestions_at_most_five basic_latin_lower
              host_rejects [] [] [] [] []) as [[e E] | (a & E & H)].
  - exfalso. revert E. vm_compute. discriminate.
  - exists a. split; [exact E |]. split; [| exact H].
    clear H. revert E. vm_compute. intros E. injection E as <-. reflexivity.
Defined.

(** ** The upload handler *)

Lemma POST_catches imagekit formData :
  exists resp, POST imagekit formData = inr resp.
Proof.
  unfold POST, try_catch.
  destruct (POST_body imagekit formData) as [e | resp]; eexists; reflexivity.
Qed.

(** C6 (amended): [POST] always answers with a response, no exception
    escapes it.  With ImageKit configured, a request without a file is
    answered 400 [No file uploaded]; a file whose type is not one of the
    five allowed is answered 400; a file of an allowed type larger than
    10485760 bytes is answered 400 [File too large. Maximum size is
    10MB.]; and whatever the processing throws is answered 500. *)
Theorem POST_error_mapping (imagekit : option ImageKit) (upload : ImageKit)
  (formData : result FormData.t) :
  (exists resp, POST imagekit formData = inr resp) /\
  (forall e, POST_body imagekit formData = inl e ->
     exists details,
       POST imagekit formData
       = inr (Response.Make 500
                (ErrorJson (str "Failed to upload file to ImageKit")
                   (Some details)))) /\
  (forall fd, formData = inr fd -> missing (FormData.file fd) = true ->
     POST (Some upload) formData
     = inr (Response.Make 400 (ErrorJson (str "No file uploaded") None))) /\
  (forall fd file,
     formData = inr fd -> FormData.file fd = Some (FileValue file) ->
     array_includes allowedTypes (File.type file) = false ->
     status_of (POST (Some upload) formData) = Some 400) /\
  (forall fd file,
     formData = inr fd -> FormData.file fd = Some (FileValue file) ->
     array_includes allowedTypes (File.type file) = true ->
     (10485760 < File.size file)%N ->
     POST (Some upload) formData
     = inr (Response.Make 400
              (ErrorJson (str "File too large. Maximum size is 10MB.") None))).
Proof.
  split; [apply POST_catches |].
  split.
  { intros e He. unfold POST. rewrite He. simpl. eexists. reflexivity. }
  split.
  { intros fd -> Hm. unfold POST, POST_body. cbn [and_then].
    rewrite Hm. reflexivity. }
  split.
  { intros fd file -> Hf Ht. unfold POST, POST_body. cbn [and_then].
    rewrite Hf, Ht. reflexivity. }
  intros fd file -> Hf Ht Hs. unfold POST, POST_body. cbn [and_then].
  rewrite Hf, Ht.
  apply N.ltb_lt in Hs. change 10485760%N with maxSize in Hs.
  cbn [missing negb]. rewrite Hs. reflexivity.
Qed.

Lemma POST_error_mapping_witness :
  POST (Some sample_upload) (inr (form_with (png_file 20000000)))
  = inr (Response.Make 400
           (ErrorJson (str "File too large. Maximum size is 10MB.") None)) /\
  exists details,
    POST (Some failing_upload) (inr (form_with (png_file 1000)))
    = inr (Response.Make 500
             (ErrorJson (str "Failed to upload file to ImageKit")
                (Some details))).
Proof.
  split.
  - apply (POST_error_mapping None sample_upload
             (inr (form_with (png_file 20000000))))
      with (fd := form_with (png_file 20000000))
           (file := png_file 20000000); reflexivity.
  - apply (POST_error_mapping (Some failing_upload) failing_upload
             (inr (form_with (png_file 1000))))
      with (e := ErrorObject (str "network down")). reflexivity.
Defined.

(** A file larger than 10MB is not always answered [File too large]:
    the type is checked first. *)
Lemma POST_large_file_counterexample :
  (10485760 < File.size (pdf_file 20000000))%N /\
  POST (Some sample_upload) (inr (form_with (pdf_file 20000000)))
  = inr (Response.Make 400
           (ErrorJson (str "Invalid file type. Only images are allowed.")
              None)) /\
  error_of (POST (Some sample_upload) (inr (form_with (pdf_file 20000000))))
  <> Some (str "File too large. Maximum size is 10MB.").
Proof.
  split; [reflexivity |]. split; [reflexivity |].
  vm_compute. discriminate.
Qed.

(** ** The sitemap *)



(** The article rows come newest first. *)
Lemma insert_desc_sorted r l :
  Sorted newer_first l -> Sorted newer_first (insert_desc r l).
Proof.
  induction l as [| a l IH]; simpl; intros Hs.
  - repeat constructor.
  - destruct (snd a <? snd r)%Z eqn:E.
    + constructor; [exact Hs |]. constructor. unfold newer_first.
      apply Z.ltb_lt in E. lia.
    + apply Z.ltb_ge in E. inversion Hs as [| ? ? Hl Hh]; subst.
      constructor; [now apply IH |].
      destruct l as [| b l']; simpl.
      * constructor. exact E.
      * destruct (snd b <? snd r)%Z; constructor;
          [exact E | now inversion Hh].
Qed.

Lemma order_desc_sorted l : Sorted newer_first (order_desc l).
Proof.
  induction l as [| r l IH]; simpl; [constructor |].
  now apply insert_desc_sorted.
Qed.

(** With a [safeDbOperation] that falls back, a database that does not
    answer leaves the static entries only. *)
Lemma sitemap_offline db now1 now2 :
  sitemap run_or_fallback false db now1 now2
  = [Entry.Make baseUrl now1 daily (decimal 10 10);
     Entry.Make (baseUrl ++ str "/articles") now2 daily (decimal 9 10)].
Proof. reflexivity. Qed.



(** ** The media library and its state *)

Example media_upload_sample :
  let answer :=
    Media.POST sample_toISOString sample_base64
      (inr (Some (FileValue
                    (File.Make (str "my photo(1).png") (str "image/png") 1000
                       (inr [])))))
      1700000000000 1700000000001 Media.initial in
  map MediaFile.filename (snd answer) = [str "my-photo-1-.png"] /\
  map MediaFile.id (snd answer) = [str "1700000000000"] /\
  map MediaFile.url (snd answer) = [str "data:image/png;base64,"] /\
  snd (Media.DELETE (inr (Some (str "1700000000000"))) (snd answer)) = [] /\
  snd (Media.DELETE (inr (Some (str "7"))) (snd answer)) = snd answer /\
  MediaResponse.status
    (fst (Media.POST sample_toISOString sample_base64
            (inr (Some (FileValue (pdf_file 1000)))) 1 2 Media.initial))
  = 400.
Proof. cbv zeta. repeat split; vm_compute; reflexivity. Qed.

(** C10 (amended): the handlers of the media route share the
    module-level array [uploadedFiles].  A [POST] that answers 201
    appends the uploaded file to it, and every other answer of [POST]
    leaves it as it was; [DELETE] with a non-empty id removes the
    entries with that id and otherwise leaves it as it was; [GET] reads
    it in its fallback answer only, which lists the three mock files
    followed by the array, so that the answer to a [GET] depends on the
    [POST] and [DELETE] requests answered before. *)
Theorem media_route_shares_uploadedFiles
  (toISOString : Z -> jsstring) (base64 : list N -> jsstring) :
  (forall file now1 now2 uploadedFiles,
     let answer :=
       Media.POST toISOString base64 file now1 now2 uploadedFiles in
     (MediaResponse.status (fst answer) = 201 /\
      exists uploadedFile message,
        MediaResponse.body (fst answer)
        = MediaUploadedJson uploadedFile message /\
        snd answer = uploadedFiles ++ [uploadedFile]) \/
     (MediaResponse.status (fst answer) <> 201 /\
      snd answer = uploadedFiles)) /\
  (forall fileId uploadedFiles,
     snd (Media.DELETE fileId uploadedFiles)
     = match fileId with
       | inr (Some (c :: id)) =>
           filter (fun file => negb (eqb_str (MediaFile.id file) (c :: id)))
             uploadedFiles
       | _ => uploadedFiles
       end) /\
  (forall mediaFiles now1 now2 now3 uploadedFiles,
     match mediaFiles with
     | inl _ =>
         files_of
           (Media.GET toISOString mediaFiles now1 now2 now3 uploadedFiles)
         = Media.mockData toISOString now1 now2 now3 ++ uploadedFiles
     | inr _ =>
         Media.GET toISOString mediaFiles now1 now2 now3 uploadedFiles
         = Media.GET toISOString mediaFiles now1 now2 now3 Media.initial
     end).
Proof.
  split; [| split].
  - intros file now1 now2 uploadedFiles. cbv zeta.
    unfold Media.POST, Media.POST_body, and_then.
    destruct file as [e | entry];
      [right; split; [cbn; discriminate | reflexivity] |].
    destruct (missing entry);
      [right; split; [cbn; discriminate | reflexivity] |].
    destruct entry as [[f | t] |];
      try (right; split; [cbn; discriminate | reflexivity]).
    destruct (negb (array_includes allowedTypes (File.type f)));
      [right; split; [cbn; discriminate | reflexivity] |].
    destruct (N.ltb maxSize (File.size f));
      [right; split; [cbn; discriminate | reflexivity] |].
    destruct (File.arrayBuffer f) as [e | bytes];
      [right; split; [cbn; discriminate | reflexivity] |].
    left. split; [reflexivity |]. do 2 eexists. split; reflexivity.
  - intros [e | [[| c id] |]] uploadedFiles; try reflexivity.
    unfold Media.DELETE. cbv zeta.
    destruct (Nat.ltb _ _); reflexivity.
  - intros [e | value] now1 now2 now3 uploadedFiles; reflexivity.
Qed.

(** The same [GET] request, with the same failing database and the same
    clock, is answered with three files before an upload and with four
    after it: the handlers do share mutable state. *)
Lemma claimed_no_shared_state_counterexample :
  let answer :=
    Media.POST sample_toISOString sample_base64
      (inr (Some (FileValue (png_file 1000)))) 1700000000000 1700000000000
      Media.initial in
  MediaResponse.status (fst answer) = 201 /\
  length (files_of (Media.GET sample_toISOString (inl OtherValue) 1 2 3
                      Media.initial)) = 3 /\
  length (files_of (Media.GET sample_toISOString (inl OtherValue) 1 2 3
                      (snd answer))) = 4 /\
  ~ claimed_no_shared_state sample_toISOString.
Proof.
  cbv zeta. split; [reflexivity |]. split; [reflexivity |].
  split; [reflexivity |].
  intros H.
  specialize (H (inl OtherValue) 1%Z 2%Z 3%Z Media.initial
                (snd (Media.POST sample_toISOString sample_base64
                        (inr (Some (FileValue (png_file 1000))))
                        1700000000000 1700000000000 Media.initial))).
  apply (f_equal (fun r => length (files_of r))) in H.
  vm_compute in H. discriminate H.
Qed.

(** * Further properties *)

(** ** The record of [analyzeSEO], check by check *)

Section Record.
Variable toLowerCase : jsstring -> jsstring.

(** The record as the chain of the nine blocks. *)
Lemma runChecks_chain title description slug kw wc d kc p1 p2 h k i r :
  let s1 := checkTitle title (MkLocals [] 0) in
  let s2 := checkDescription description (snd s1) in
  let s3 := checkContent wc (snd s2) in
  let s4 := checkKeyword toLowerCase title p1 p2 kw d wc kc (snd s3) in
  let s5 := checkHeadings h (snd s4) in
  let s6 := checkLinks k (snd s5) in
  let s7 := checkImages i (snd s6) in
  let s8 := checkSlug slug (snd s7) in
  let s9 := checkReadability r (snd s8) in
  runChecks toLowerCase title description slug kw wc d kc p1 p2 h k i r
  = SEOAnalysis.Make (Math_round (totalScore (snd s9))) (fst s1) (fst s2)
      (fst s3) (fst s4) (fst s5) (fst s6) (fst s7) (fst s8) (fst s9)
      (firstn 5 (suggestions (snd s9))).
Proof.
  cbv zeta. unfold runChecks.
  destruct (checkTitle title _) as [c1 l1]; cbn [fst snd].
  destruct (checkDescription description l1) as [c2 l2]; cbn [fst snd].
  destruct (checkContent wc l2) as [c3 l3]; cbn [fst snd].
  destruct (checkKeyword _ title p1 p2 kw d wc kc l3) as [c4 l4];
    cbn [fst snd].
  destruct (checkHeadings h l4) as [c5 l5]; cbn [fst snd].
  destruct (checkLinks k l5) as [c6 l6]; cbn [fst snd].
  destruct (checkImages i l6) as [c7 l7]; cbn [fst snd].
  destruct (checkSlug slug l7) as [c8 l8]; cbn [fst snd].
  destruct (checkReadability r l8) as [c9 l9]; cbn [fst snd].
  reflexivity.
Qed.

Ltac full_marks f :=
  intros; unfold f, push in *; split_ifs; simpl in *;
  try discriminate; auto.

Lemma checkTitle_full title l :
  SEOCheck.score (fst (checkTitle title l)) = 15%Z ->
  SEOCheck.status (fst (checkTitle title l)) = good /\
  suggestions (snd (checkTitle title l)) = suggestions l.
Proof. revert title l. full_marks checkTitle. Qed.

Lemma checkDescription_full description l :
  SEOCheck.score (fst (checkDescription description l)) = 10%Z ->
  SEOCheck.status (fst (checkDescription description l)) = good /\
  suggestions (snd (checkDescription description l)) = suggestions l.
Proof. revert description l. full_marks checkDescription. Qed.

Lemma checkContent_full wc l :
  SEOCheck.score (fst (checkContent wc l)) = 20%Z ->
  SEOCheck.status (fst (checkContent wc l)) = good /\
  suggestions (snd (checkContent wc l)) = suggestions l.
Proof. revert wc l. full_marks checkContent. Qed.

Lemma checkKeyword_full title p1 p2 kw d wc kc l :
  SEOCheck.score (fst (checkKeyword toLowerCase title p1 p2 kw d wc kc l))
    = 20%Z ->
  SEOCheck.status (fst (checkKeyword toLowerCase title p1 p2 kw d wc kc l))
    = good /\
  suggestions (snd (checkKeyword toLowerCase title p1 p2 kw d wc kc l))
    = suggestions l.
Proof.
  unfold checkKeyword.
  destruct (keywordInText _ title kw), (keywordInText _ p1 kw),
    (keywordInText _ p2 kw),
    (fle (decimal 1 2) d && fle d (decimal 5 2))%bool;
    try destruct (flt d (decimal 1 2));
    cbv beta iota zeta
      delta [fst snd SEOCheck.score SEOCheck.status KeywordCheck.base
             suggestions push add];
    intros H; vm_compute in H; try discriminate H;
    split; reflexivity.
Qed.

Lemma checkHeadings_full h l :
  SEOCheck.score (fst (checkHeadings h l)) = 10%Z ->
  SEOCheck.status (fst (checkHeadings h l)) = good /\
  suggestions (snd (checkHeadings h l)) = suggestions l.
Proof. destruct h as [[h1 h2] h3]. revert h1 h2 h3 l. full_marks checkHeadings. Qed.

Lemma checkLinks_full k l :
  SEOCheck.score (fst (checkLinks k l)) = 10%Z ->
  SEOCheck.status (fst (checkLinks k l)) = good /\
  suggestions (snd (checkLinks k l)) = suggestions l.
Proof. destruct k as [i e]. revert i e l. full_marks checkLinks. Qed.

Lemma checkImages_full i l :
  SEOCheck.score (fst (checkImages i l)) = 5%Z ->
  SEOCheck.status (fst (checkImages i l)) = good /\
  suggestions (snd (checkImages i l)) = suggestions l.
Proof. destruct i as [t a]. revert t a l. full_marks checkImages. Qed.

Lemma checkSlug_full slug l :
  SEOCheck.score (fst (checkSlug slug l)) = 5%Z ->
  SEOCheck.status (fst (checkSlug slug l)) = good /\
  suggestions (snd (checkSlug slug l)) = suggestions l.
Proof. revert slug l. full_marks checkSlug. Qed.

Lemma checkReadability_full r l :
  SEOCheck.score (fst (checkReadability r l)) = 5%Z ->
  SEOCheck.status (fst (checkReadability r l)) = good /\
  suggestions (snd (checkReadability r l)) = suggestions l.
Proof. revert r l. full_marks checkReadability. Qed.

End Record.

(** ** A perfect score *)

(** X1: for every input, and whatever the host does with the patterns
    outside the fragment, [analyzeSEO] throws or returns a record that,
    if it scores 100, has every check at status good and no suggestion
    at all. *)
Theorem perfect_score_has_no_suggestion
  toLowerCase RegExp_host title description content slug tags :
  (exists e,
     analyzeSEO toLowerCase RegExp_host title description content slug tags
     = Throw e) \/
  (exists a,
     analyzeSEO toLowerCase RegExp_host title description content slug tags
     = Normal a /\
     (SEOAnalysis.score a = 100%Z ->
      SEOAnalysis.suggestions a = [] /\
      map SEOCheck.status
        [SEOAnalysis.title a; SEOAnalysis.description a;
         ContentCheck.base (SEOAnalysis.content a);
         KeywordCheck.base (SEOAnalysis.keyword a);
         HeadingCheck.base (SEOAnalysis.headings a);
         LinkCheck.base (SEOAnalysis.links a);
         ImageCheck.base (SEOAnalysis.images a); SEOAnalysis.slug a;
         ReadabilityCheck.base (SEOAnalysis.readability a)]
      = repeat good 9)).
Proof.
  destruct (analyzeSEO_outcome toLowerCase RegExp_host title description
              content slug tags) as [[e E] | (d & c & E)];
    [left; eauto | right].
  eexists. split; [exact E |]. intros H100.
  pose proof (runChecks_scores toLowerCase title description slug
                (extractFocusKeyword toLowerCase title tags)
                (countWords content) d c (getFirstParagraph content)
                (getLastParagraph content) (countHeadings content)
                (countLinks content) (countImages content)
                (calculateReadability toLowerCase content)) as R.
  cbv zeta in R. revert R H100. rewrite runChecks_chain. cbv zeta.
  cbn [SEOAnalysis.score SEOAnalysis.title SEOAnalysis.description
       SEOAnalysis.content SEOAnalysis.keyword SEOAnalysis.headings
       SEOAnalysis.links SEOAnalysis.images SEOAnalysis.slug
       SEOAnalysis.readability SEOAnalysis.suggestions map repeat].
  set (s1 := checkTitle title _).
  set (s2 := checkDescription description _).
  set (s3 := checkContent _ _).
  set (s4 := checkKeyword _ _ _ _ _ _ _ _ _).
  set (s5 := checkHeadings _ _).
  set (s6 := checkLinks _ _).
  set (s7 := checkImages _ _).
  set (s8 := checkSlug _ _).
  set (s9 := checkReadability _ _).
  intros R H100.
  destruct (checkTitle_full title (MkLocals [] 0)) as [T1 U1];
    [fold s1; lia |].
  destruct (checkDescription_full description (snd s1)) as [T2 U2];
    [fold s2; lia |].
  destruct (checkContent_full (countWords content) (snd s2)) as [T3 U3];
    [fold s3; lia |].
  destruct (checkKeyword_full toLowerCase title (getFirstParagraph content)
              (getLastParagraph content)
              (extractFocusKeyword toLowerCase title tags) d
              (countWords content) c (snd s3)) as [T4 U4];
    [fold s4; lia |].
  destruct (checkHeadings_full (countHeadings content) (snd s4)) as [T5 U5];
    [fold s5; lia |].
  destruct (checkLinks_full (countLinks content) (snd s5)) as [T6 U6];
    [fold s6; lia |].
  destruct (checkImages_full (countImages content) (snd s6)) as [T7 U7];
    [fold s7; lia |].
  destruct (checkSlug_full slug (snd s7)) as [T8 U8]; [fold s8; lia |].
  destruct (checkReadability_full (calculateReadability toLowerCase content)
              (snd s8)) as [T9 U9]; [fold s9; lia |].
  fold s1 in T1, U1. fold s2 in T2, U2. fold s3 in T3, U3.
  fold s4 in T4, U4. fold s5 in T5, U5. fold s6 in T6, U6.
  fold s7 in T7, U7. fold s8 in T8, U8. fold s9 in T9, U9.
  split.
  - rewrite U9, U8, U7, U6, U5, U4, U3, U2, U1. reflexivity.
  - rewrite T1, T2, T3, T4, T5, T6, T7, T8, T9. reflexivity.
Qed.

(** The score 100 is reached. *)
Lemma perfect_score_has_no_suggestion_witness :
  exists a,
    analyzeSEO basic_latin_lower host_rejects perfect_title
      perfect_description perfect_content perfect_slug [] = Normal a /\
    SEOAnalysis.score a = 100%Z /\
    SEOAnalysis.suggestions a = [].
Proof.
  destruct (perfect_score_has_no_suggestion basic_latin_lower host_rejects
              perfect_title perfect_description perfect_content perfect_slug
              []) as [[e E] | (a & E & H)].
  - exfalso. revert E. vm_compute. discriminate.
  - assert (S : SEOAnalysis.score a = 100%Z).
    { clear H. revert E. vm_compute. intros E. injection E as <-.
      reflexivity. }
    exists a. split; [exact E |]. split; [exact S | apply (H S)].
Defined.

(** X2: when the focus keyword comes from the title (there is no tag,
    or the title has two usable words), [analyzeSEO] returns a record,
    provided lowercasing word characters and whitespace gives no pattern
    syntax character. *)
Theorem analyzeSEO_returns_from_title
  toLowerCase RegExp_host title description content slug tags :
  (forall s, Forall (fun c => keeps_word_or_space c = true) s ->
             Forall (fun c => is_syntax_char c = false) (toLowerCase s)) ->
  tags = [] \/ 2 <= length (usable_words toLowerCase title) ->
  exists a,
    analyzeSEO toLowerCase RegExp_host title description content slug tags
    = Normal a.
Proof. intros Hl Ht. now apply analyzeSEO_returns. Qed.

Lemma analyzeSEO_returns_from_title_witness :
  exists a,
    analyzeSEO basic_latin_lower host_rejects sample_title sample_description
      sample_content sample_slug [str "C++"] = Normal a.
Proof.
  apply (analyzeSEO_returns_from_title basic_latin_lower host_rejects
           sample_title sample_description sample_content sample_slug
           [str "C++"]).
  - apply basic_latin_lower_plain.
  - right. vm_compute. lia.
Defined.

(** ** The matcher: a class under a quantifier, with a continuation *)

Lemma star_class_k A neg rs (k : mstate -> option A) fuel b s cs :
  length s < fuel ->
  repeat_loop A (rmatch (Cls neg rs)) [] k true fuel 0 None (MState b s cs)
  = greedy_run (cls_accepts neg rs) k b s cs.
Proof.
  revert b s. induction fuel as [| fuel IH]; intros b s Hlen; [lia |].
  cbn [repeat_loop]. rewrite clear_caps_nil.
  destruct s as [| c tl]; [reflexivity |].
  cbn [rmatch rest caps greedy_run Nat.eqb negb length andb].
  fold (cls_accepts neg rs c).
  destruct (cls_accepts neg rs c); [| reflexivity].
  replace (Nat.eqb (length tl) (S (length tl))) with false
    by (symmetry; apply Nat.eqb_neq; lia).
  cbn [Nat.pred pred_max]. rewrite IH by (simpl in Hlen; lia).
  reflexivity.
Qed.

Lemma plus_class_k A neg rs (k : mstate -> option A) b s cs :
  rmatch (plus (Cls neg rs)) (MState b s cs) k
  = match s with
    | c :: tl =>
        if cls_accepts neg rs c
        then greedy_run (cls_accepts neg rs) k (Some c) tl cs
        else None
    | [] => None
    end.
Proof.
  unfold plus. cbn [rmatch groups rest]. cbn [repeat_loop].
  rewrite clear_caps_nil.
  destruct s as [| c tl]; [reflexivity |].
  cbn [rmatch rest caps Nat.eqb negb andb].
  fold (cls_accepts neg rs c).
  destruct (cls_accepts neg rs c); [| reflexivity].
  cbn [Nat.pred pred_max]. apply star_class_k. simpl. lia.
Qed.

Lemma star_class_k_rmatch A neg rs (k : mstate -> option A) b s cs :
  rmatch (star (Cls neg rs)) (MState b s cs) k
  = greedy_run (cls_accepts neg rs) k b s cs.
Proof.
  unfold star. cbn [rmatch groups rest]. apply star_class_k. simpl. lia.
Qed.

(** ** The loop of [replace] along a description of the matches *)

Lemma rebuild_shift rep c x : rebuild rep (shift c x) = c :: rebuild rep x.
Proof.
  destruct x as [[| [skip mt] ms] trail]; reflexivity.
Qed.

Lemma scan_skip fuel r b c tl :
  match_here r b (c :: tl) = None ->
  scan (S fuel) r b (c :: tl) = shift c (scan (S fuel) r (Some c) tl).
Proof.
  intros H. cbn [scan search]. rewrite H.
  destruct (search r (Some c) tl) as [[[skip mt] y] |]; [| reflexivity].
  destruct mt as [| m mt'].
  - destruct (rest y) as [| d tl']; [reflexivity |].
    destruct (shift d (scan fuel r (Some d) tl')) as [ms trail].
    reflexivity.
  - destruct (scan fuel r (before y) (rest y)) as [ms trail]. reflexivity.
Qed.

Lemma consumed_cons_shorter (c : code_unit) tl r' :
  length r' < length (c :: tl) ->
  exists m mt, consumed (c :: tl) r' = m :: mt.
Proof.
  intros H. unfold consumed.
  destruct (length (c :: tl) - length r') as [| n] eqn:E; [lia |].
  simpl. eauto.
Qed.

Section ScanBy.
Variable r : regex.
Variable next : jsstring -> option jsstring.

Hypothesis next_spec :
  forall b s,
    match next s with
    | None => match_here r b s = None
    | Some r' =>
        exists y, match_here r b s = Some y /\ rest y = r' /\
                  length r' < length s
    end.

Lemma scan_by rep fuel b s :
  length s < fuel ->
  rebuild rep (scan fuel r b s) = replace_by next rep fuel s.
Proof.
  revert b s. induction fuel as [| fuel IH]; intros b s Hlen; [lia |].
  revert b Hlen. induction s as [| c tl IHs]; intros b Hlen.
  - pose proof (next_spec b []) as H.
    destruct (next []) as [r' |].
    + destruct H as (y & _ & _ & H). simpl in H. lia.
    + cbn [scan search]. rewrite H. reflexivity.
  - pose proof (next_spec b (c :: tl)) as H.
    cbn [replace_by]. destruct (next (c :: tl)) as [r' |].
    + destruct H as (y & Hy & Hr & Hl).
      cbn [scan search]. rewrite Hy. rewrite Hr.
      destruct (consumed_cons_shorter c tl r' Hl) as (m & mt & ->).
      specialize (IH (before y) r').
      destruct (scan fuel r (before y) r') as [ms trail].
      unfold rebuild in *. cbn [fst snd map concat] in *.
      rewrite app_nil_l, <- app_assoc. f_equal. apply IH.
      simpl in Hlen, Hl. lia.
    + rewrite scan_skip by exact H. rewrite rebuild_shift. f_equal.
      specialize (IHs (Some c)). cbn [replace_by] in IHs. apply IHs.
      simpl in Hlen. lia.
Qed.

Lemma replace_all_by rep s :
  replace_all r rep s = replace_by next rep (S (length s)) s.
Proof. unfold replace_all. apply scan_by. lia. Qed.
End ScanBy.

Lemma remove_all_replace_all r s : remove_all r s = replace_all r [] s.
Proof.
  unfold remove_all, replace_all, rebuild.
  destruct (scan (S (length s)) r None s) as [ms trail]. cbn [fst snd].
  f_equal. f_equal. apply map_ext. intros m. now rewrite app_nil_r.
Qed.

(** ** Removing the tags *)

Lemma in_ranges_one c k : in_ranges c [(k, k)] = N.eqb c k.
Proof.
  unfold in_ranges, in_range. cbn [existsb fst snd]. rewrite orb_false_r.
  destruct (N.eqb c k) eqn:E.
  - apply N.eqb_eq in E. subst. now rewrite N.leb_refl.
  - apply N.eqb_neq in E. apply andb_false_iff.
    destruct (N.leb k c) eqn:L; [right | now left].
    apply N.leb_le in L. apply N.leb_gt. lia.
Qed.

Lemma orelse_none_r A (x : option A) : orelse x None = x.
Proof. now destruct x. Qed.

Lemma after_gt_length s r' : after_gt s = Some r' -> length r' < length s.
Proof.
  revert r'. induction s as [| c tl IH]; intros r' H; [discriminate |].
  simpl in H. destruct (is_gt c).
  - inversion H; subst. simpl. lia.
  - apply IH in H. simpl. lia.
Qed.

Lemma after_gt_exists s :
  existsb is_gt s = match after_gt s with Some _ => true | None => false end.
Proof.
  induction s as [| c tl IH]; [reflexivity |].
  simpl. destruct (is_gt c); [reflexivity | exact IH].
Qed.

(** After the opening [<], the pattern of a tag runs to the first [>]. *)
Lemma greedy_to_gt b s cs :
  greedy_run (cls_accepts true [gt_sign])
    (fun z => rmatch (lit ">") z (fun w => rmatch Empty w Some)) b s cs
  = match after_gt s with
    | Some r' => Some (MState (Some (cu ">")) r' cs)
    | None => None
    end.
Proof.
  revert b. induction s as [| c tl IH]; intros b; [reflexivity |].
  cbn [greedy_run after_gt]. unfold cls_accepts, gt_sign, lit at 2.
  cbn [rmatch rest caps]. rewrite !in_ranges_one. fold (is_gt c).
  destruct (is_gt c) eqn:E; cbn [xorb negb].
  - apply N.eqb_eq in E. now subst c.
  - rewrite orelse_none_r. apply IH.
Qed.

Lemma match_here_tag b s :
  match_here re_tag b s
  = match next_tag s with
    | Some r' => Some (MState (Some (cu ">")) r' [])
    | None => None
    end.
Proof.
  unfold match_here, re_tag, seqs. cbn [fold_right].
  cbn [rmatch]. unfold lit at 1. cbn [rmatch rest caps].
  destruct s as [| c tl]; [reflexivity |].
  rewrite in_ranges_one. cbn [xorb next_tag]. fold (is_lt c).
  destruct (is_lt c); [| reflexivity].
  rewrite star_class_k_rmatch. apply greedy_to_gt.
Qed.

Lemma next_tag_spec b s :
  match next_tag s with
  | None => match_here re_tag b s = None
  | Some r' =>
      exists y, match_here re_tag b s = Some y /\ rest y = r' /\
                length r' < length s
  end.
Proof.
  rewrite match_here_tag. destruct (next_tag s) as [r' |] eqn:E;
    [| reflexivity].
  eexists. split; [reflexivity |]. split; [reflexivity |].
  destruct s as [| c tl]; [discriminate |]. simpl in E.
  destruct (is_lt c); [| discriminate].
  apply after_gt_length in E. simpl. lia.
Qed.

Lemma skip_tags_inside s r' :
  after_gt s = Some r' -> skip_tags true s = skip_tags false r'.
Proof.
  revert r'. induction s as [| c tl IH]; intros r' H; [discriminate |].
  simpl in H. cbn [skip_tags]. destruct (is_gt c).
  - now inversion H.
  - now apply IH.
Qed.

Lemma replace_by_tag fuel s :
  length s < fuel -> replace_by next_tag [] fuel s = skip_tags false s.
Proof.
  revert s. induction fuel as [| fuel IH]; intros s Hlen; [lia |].
  induction s as [| c tl IHs]; [reflexivity |].
  cbn [replace_by skip_tags next_tag]. rewrite after_gt_exists.
  destruct (is_lt c); cbn [andb].
  - destruct (after_gt tl) as [r' |] eqn:E.
    + rewrite app_nil_l, IH.
      * symmetry. now apply skip_tags_inside.
      * apply after_gt_length in E. simpl in Hlen. lia.
    + f_equal. cbn [replace_by] in IHs. apply IHs. simpl in Hlen. lia.
  - f_equal. cbn [replace_by] in IHs. apply IHs. simpl in Hlen. lia.
Qed.

Lemma remove_tags_skip_tags s : remove_all re_tag s = skip_tags false s.
Proof.
  rewrite remove_all_replace_all.
  rewrite (replace_all_by re_tag next_tag next_tag_spec).
  apply replace_by_tag. lia.
Qed.

Lemma skip_tags_in inside s c : In c (skip_tags inside s) -> In c s.
Proof.
  revert inside. induction s as [| d tl IH]; intros inside H; [exact H |].
  cbn [skip_tags] in H. destruct inside.
  - right. eapply IH, H.
  - destruct (is_lt d && existsb is_gt tl)%bool.
    + right. eapply IH, H.
    + destruct H as [-> | H]; [now left | right; eapply IH, H].
Qed.

Lemma skip_tags_tag_free inside s : tag_free (skip_tags inside s) = true.
Proof.
  revert inside. induction s as [| c tl IH]; intros inside; [reflexivity |].
  cbn [skip_tags]. destruct inside; [apply IH |].
  destruct (is_lt c && existsb is_gt tl)%bool eqn:E; [apply IH |].
  cbn [tag_free]. rewrite IH, andb_true_r. apply negb_true_iff.
  destruct (is_lt c); [| reflexivity]. cbn [andb] in *.
  destruct (existsb is_gt (skip_tags false tl)) eqn:X; [| reflexivity].
  apply existsb_exists in X. destruct X as (d & Hd & Hg).
  apply skip_tags_in in Hd. rewrite <- E. symmetry.
  apply existsb_exists. eauto.
Qed.

Lemma skip_tags_fixed s : tag_free s = true -> skip_tags false s = s.
Proof.
  induction s as [| c tl IH]; intros H; [reflexivity |].
  cbn [tag_free] in H. apply andb_prop in H. destruct H as [H1 H2].
  cbn [skip_tags]. apply negb_true_iff in H1. rewrite H1.
  now rewrite IH.
Qed.

(** X3: removing the tags, as [getFirstParagraph], [getLastParagraph]
    and [calculateReadability] do, drops every stretch from a [<] that
    has a [>] after it to the first such [>]; the text left has no [<]
    followed anywhere by a [>], so removing the tags again changes
    nothing, and a text without such a [<] is left as it is. *)
Theorem remove_tags_leaves_no_tag (s : jsstring) :
  remove_all re_tag s = skip_tags false s /\
  tag_free (remove_all re_tag s) = true /\
  remove_all re_tag (remove_all re_tag s) = remove_all re_tag s /\
  (tag_free s = true -> remove_all re_tag s = s).
Proof.
  rewrite !remove_tags_skip_tags.
  pose proof (skip_tags_tag_free false s) as F.
  repeat split; auto using skip_tags_fixed.
Qed.

Lemma remove_tags_leaves_no_tag_witness :
  remove_all re_tag (str "a < b") = str "a < b" /\
  remove_all re_tag (str "<p>1 < 2</p> <br") = str "1  <br".
Proof.
  split.
  - apply (remove_tags_leaves_no_tag (str "a < b")). reflexivity.
  - vm_compute. reflexivity.
Defined.

(** ** Replacing runs and single code units *)

Lemma next_run_spec neg rs b s :
  match next_run (cls_accepts neg rs) s with
  | None => match_here (plus (Cls neg rs)) b s = None
  | Some r' =>
      exists y, match_here (plus (Cls neg rs)) b s = Some y /\
                rest y = r' /\ length r' < length s
  end.
Proof.
  rewrite match_here_plus_class. destruct s as [| c tl]; [reflexivity |].
  cbn [next_run]. destruct (cls_accepts neg rs c); [| reflexivity].
  eexists. split; [reflexivity |]. split; [reflexivity |].
  pose proof (run_end_length (cls_accepts neg rs) (Some c) tl).
  simpl. lia.
Qed.

Lemma next_one_spec neg rs b s :
  match next_one (cls_accepts neg rs) s with
  | None => match_here (Cls neg rs) b s = None
  | Some r' =>
      exists y, match_here (Cls neg rs) b s = Some y /\
                rest y = r' /\ length r' < length s
  end.
Proof.
  unfold match_here. cbn [rmatch rest caps].
  destruct s as [| c tl]; [reflexivity |].
  cbn [next_one]. fold (cls_accepts neg rs c).
  destruct (cls_accepts neg rs c); [| reflexivity].
  eexists. split; [reflexivity |]. split; [reflexivity |]. simpl. lia.
Qed.

Lemma squeeze_after_run p rep b s :
  squeeze p rep true s = squeeze p rep false (snd (run_end p b s)).
Proof.
  revert b. induction s as [| c tl IH]; intros b; [reflexivity |].
  cbn [squeeze run_end]. destruct (p c) eqn:E.
  - rewrite app_nil_l. apply IH.
  - cbn [snd squeeze]. now rewrite E.
Qed.

Lemma replace_by_run p rep fuel s :
  length s < fuel ->
  replace_by (next_run p) rep fuel s = squeeze p rep false s.
Proof.
  revert s. induction fuel as [| fuel IH]; intros s Hlen; [lia |].
  induction s as [| c tl IHs]; [reflexivity |].
  cbn [replace_by squeeze next_run]. destruct (p c).
  - f_equal. rewrite IH.
    + symmetry. apply squeeze_after_run.
    + pose proof (run_end_length p (Some c) tl). simpl in Hlen. lia.
  - f_equal. cbn [replace_by] in IHs. apply IHs. simpl in Hlen. lia.
Qed.

Lemma replace_by_one p rep fuel s :
  length s < fuel ->
  replace_by (next_one p) rep fuel s
  = flat_map (fun c => if p c then rep else [c]) s.
Proof.
  revert s. induction fuel as [| fuel IH]; intros s Hlen; [lia |].
  induction s as [| c tl IHs]; [reflexivity |].
  cbn [replace_by flat_map next_one]. destruct (p c).
  - f_equal. apply IH. simpl in Hlen. lia.
  - cbn [app]. f_equal. cbn [replace_by] in IHs. apply IHs.
    simpl in Hlen. lia.
Qed.

(** Replacing the matches of a quantified class squeezes each run. *)
Lemma replace_all_plus_class neg rs rep s :
  replace_all (plus (Cls neg rs)) rep s
  = squeeze (cls_accepts neg rs) rep false s.
Proof.
  rewrite (replace_all_by _ _ (next_run_spec neg rs)).
  apply replace_by_run. lia.
Qed.

Lemma replace_all_class neg rs rep s :
  replace_all (Cls neg rs) rep s
  = flat_map (fun c => if cls_accepts neg rs c then rep else [c]) s.
Proof.
  rewrite (replace_all_by _ _ (next_one_spec neg rs)).
  apply replace_by_one. lia.
Qed.

Lemma squeeze_forallb (Q p : code_unit -> bool) rep b s :
  forallb Q rep = true ->
  (forall c, In c s -> p c = false -> Q c = true) ->
  forallb Q (squeeze p rep b s) = true.
Proof.
  intros Hrep. revert b. induction s as [| c tl IH]; intros b H;
    [reflexivity |].
  cbn [squeeze]. destruct (p c) eqn:E.
  - rewrite forallb_app. rewrite IH by (intros; apply H; simpl; auto).
    destruct b; [reflexivity | now rewrite Hrep].
  - cbn [forallb]. rewrite (H c) by (simpl; auto).
    apply IH. intros; apply H; simpl; auto.
Qed.

Lemma no_double_cons h c s :
  no_double h (c :: s)
  = (negb (N.eqb c h && starts_with h s) && no_double h s)%bool.
Proof. destruct s; cbn [no_double starts_with]; [| reflexivity].
  now rewrite andb_false_r. Qed.

(** Squeezing the runs of [h] into one [h] leaves no two adjacent. *)
Lemma squeeze_no_double h (p : code_unit -> bool) s :
  (forall c, p c = N.eqb c h) ->
  no_double h (squeeze p [h] false s) = true /\
  no_double h (squeeze p [h] true s) = true /\
  starts_with h (squeeze p [h] true s) = false.
Proof.
  intros Hp. induction s as [| c tl (IH1 & IH2 & IH3)];
    [repeat split |].
  cbn [squeeze]. destruct (p c) eqn:E.
  - cbn [app]. rewrite no_double_cons, IH2, IH3, andb_false_r. auto.
  - rewrite Hp in E. rewrite no_double_cons, IH1, E. cbn [starts_with].
    rewrite E. auto.
Qed.

Lemma forallb_firstn (Q : code_unit -> bool) n s :
  forallb Q s = true -> forallb Q (firstn n s) = true.
Proof.
  revert s. induction n as [| n IH]; intros [| c s] H; try reflexivity.
  cbn [firstn forallb] in *. apply andb_prop in H. destruct H as [-> H].
  now apply IH.
Qed.

Lemma no_double_firstn h n s :
  no_double h s = true -> no_double h (firstn n s) = true.
Proof.
  revert s. induction n as [| n IH]; intros [| c s] H; try reflexivity.
  cbn [firstn]. rewrite no_double_cons in *.
  apply andb_prop in H. destruct H as [H1 H2].
  rewrite IH by exact H2. rewrite andb_true_r.
  destruct (N.eqb c h); [| reflexivity]. cbn [andb negb] in *.
  destruct s as [| d s]; [now destruct n |].
  destruct n; [reflexivity | exact H1].
Qed.

(** ** Decimal digits *)

Lemma digits_fuel_forallb (Q : code_unit -> bool) fuel n acc :
  (forall d, (d < 10)%N -> Q (digit d) = true) ->
  forallb Q acc = true ->
  forallb Q (digits_fuel fuel n acc) = true.
Proof.
  intros HQ. revert n acc. induction fuel as [| fuel IH]; intros n acc H;
    [exact H |].
  cbn [digits_fuel].
  assert (H' : forallb Q (digit (n mod 10) :: acc) = true).
  { cbn [forallb]. rewrite HQ, H; [reflexivity |].
    apply N.mod_lt. discriminate. }
  destruct (n <? 10)%N; [exact H' | now apply IH].
Qed.

Lemma Z_to_str_forallb (Q : code_unit -> bool) z :
  (forall d, (d < 10)%N -> Q (digit d) = true) ->
  (z < 0 -> Q (cu "-") = true)%Z ->
  forallb Q (Z_to_str z) = true.
Proof.
  intros HQ Hneg. destruct z as [| p | p]; unfold Z_to_str, N_to_str.
  - now apply digits_fuel_forallb.
  - now apply digits_fuel_forallb.
  - rewrite forallb_app. cbn [str list_ascii_of_string map forallb].
    change (N_of_ascii "-") with (cu "-"). rewrite Hneg by lia.
    now apply digits_fuel_forallb.
Qed.

Lemma digit_slug d : (d < 10)%N -> is_slug_char (digit d) = true.
Proof.
  intros H. unfold is_slug_char, digit, in_ranges, in_range.
  cbn [existsb fst snd].
  replace (48 <=? 48 + d)%N with true by (symmetry; apply N.leb_le; lia).
  replace (48 + d <=? 57)%N with true by (symmetry; apply N.leb_le; lia).
  now rewrite orb_true_r.
Qed.

(** ** The names of uploaded files *)

Lemma name_ranges_split c :
  in_ranges c name_ranges = true -> is_space c = false ->
  is_slug_char c = true.
Proof.
  unfold name_ranges. rewrite !in_ranges_app. unfold is_space.
  intros H Hs. rewrite Hs, orb_false_l in H.
  unfold is_slug_char.
  change [(97, 122); (48, 57); (45, 45)]%N
    with ([(97, 122); (48, 57)]%N ++ [(45, 45)]%N).
  now rewrite in_ranges_app.
Qed.

Lemma hex_slug c : is_hex_digit c = true -> is_slug_char c = true.
Proof.
  unfold is_hex_digit, is_slug_char, in_ranges, in_range.
  cbn [existsb fst snd]. rewrite !orb_false_r.
  intros H. apply orb_prop in H.
  destruct H as [H | H]; apply andb_prop in H; destruct H as [H1 H2].
  - now rewrite H1, H2, orb_true_r.
  - apply N.leb_le in H1, H2.
    replace (97 <=? c)%N with true by (symmetry; apply N.leb_le; lia).
    replace (c <=? 122)%N with true by (symmetry; apply N.leb_le; lia).
    reflexivity.
Qed.

Section UploadNameProofs.
Variable toLowerCase : jsstring -> jsstring.

Lemma cleanName_chars (originalName : jsstring) :
  length (cleanName toLowerCase originalName) <= 50 /\
  forallb is_slug_char (cleanName toLowerCase originalName) = true.
Proof.
  unfold cleanName, substring0.
  set (t0 := remove_all re_not_name _).
  split; [apply firstn_le_length |].
  unfold re_hyphens, re_spaces. rewrite !replace_all_plus_class.
  assert (H0 : forall c, In c t0 -> in_ranges c name_ranges = true).
  { intros c Hc. unfold t0, re_not_name in Hc.
    rewrite remove_all_class in Hc. apply filter_In in Hc.
    destruct Hc as [_ Hc]. unfold cls_accepts in Hc.
    now destruct (in_ranges c name_ranges). }
  set (t1 := squeeze (cls_accepts false space_ranges) (str "-") false t0).
  assert (H1 : forallb is_slug_char t1 = true).
  { apply squeeze_forallb; [reflexivity |].
    intros c Hc Hs. apply name_ranges_split; auto. }
  apply forallb_firstn. apply squeeze_forallb; [reflexivity |].
  intros c Hc _. rewrite forallb_forall in H1. now apply H1.
Qed.

(** X4: the clean name [generateSEOFilename] derives from a file name
    has at most 50 code units, all of them lower-case letters, digits
    or hyphens, and never two hyphens in a row. *)
Theorem cleanName_is_a_slug (originalName : jsstring) :
  let n := cleanName toLowerCase originalName in
  length n <= 50 /\
  forallb is_slug_char n = true /\
  no_double (cu "-") n = true.
Proof.
  cbv zeta. destruct (cleanName_chars originalName) as [L S].
  split; [exact L |]. split; [exact S |].
  unfold cleanName, substring0, re_hyphens.
  rewrite replace_all_plus_class. apply no_double_firstn.
  apply (squeeze_no_double (cu "-") (cls_accepts false [(45, 45)%N])).
  intros c. unfold cls_accepts. cbn [xorb]. apply in_ranges_one.
Qed.

Lemma contextPart_slug context :
  forallb is_slug_char (contextPart toLowerCase context) = true /\
  length (contextPart toLowerCase context) <= 21.
Proof.
  unfold contextPart. destruct context as [[| c0 c] |]; try (split; [reflexivity | simpl; lia]).
  split.
  - rewrite forallb_app. cbn [str list_ascii_of_string map forallb].
    rewrite andb_true_l. unfold substring0. apply forallb_firstn.
    unfold re_not_alnum. rewrite remove_all_class.
    apply forallb_forall. intros x Hx. apply filter_In in Hx.
    destruct Hx as [_ Hx]. unfold cls_accepts in Hx. cbn [xorb] in Hx.
    apply negb_true_iff, negb_false_iff in Hx.
    unfold is_slug_char.
    change [(97, 122); (48, 57); (45, 45)]%N
      with ([(97, 122); (48, 57)]%N ++ [(45, 45)]%N).
    rewrite in_ranges_app, Hx. reflexivity.
  - rewrite length_app. unfold substring0.
    pose proof (firstn_le_length 20
                  (remove_all re_not_alnum (toLowerCase (c0 :: c)))).
    change (length (str "-")) with 1. lia.
Qed.

(** X5: for a timestamp that is not negative and a hexadecimal random
    id, the file name [generateSEOFilename] builds holds only lower-case
    letters, digits and hyphens, whatever the original name and the
    context are, and is at most 73 code units longer than the timestamp
    and the random id together. *)
Theorem generateSEOFilename_is_url_safe
  (timestamp : Z) (randomId originalName : jsstring)
  (context : option jsstring) :
  (0 <= timestamp)%Z ->
  forallb is_hex_digit randomId = true ->
  let f := generateSEOFilename toLowerCase timestamp randomId originalName
             context in
  forallb is_slug_char f = true /\
  length f <= 73 + length (Z_to_str timestamp) + length randomId.
Proof.
  intros Ht Hr. cbv zeta. unfold generateSEOFilename.
  destruct (cleanName_chars originalName) as (L1 & S1).
  destruct (contextPart_slug context) as (S2 & L2).
  split.
  - rewrite !forallb_app, S1, S2.
    rewrite (Z_to_str_forallb is_slug_char timestamp digit_slug)
      by (intros; lia).
    cbn [str list_ascii_of_string map forallb andb].
    apply forallb_forall. intros c Hc. apply hex_slug.
    rewrite forallb_forall in Hr. now apply Hr.
  - rewrite !length_app. cbn [str list_ascii_of_string map length]. lia.
Qed.
End UploadNameProofs.

Lemma generateSEOFilename_is_url_safe_witness :
  generateSEOFilename basic_latin_lower 1700000000000 (str "9f3a01bc")
    (str "My Holiday  Photo (1).JPG") (Some (str "IPTV Guide!"))
  = str "my-holiday-photo-1-iptvguide-1700000000000-9f3a01bc" /\
  forallb is_slug_char
    (generateSEOFilename basic_latin_lower 1700000000000 (str "9f3a01bc")
       (str "My Holiday  Photo (1).JPG") (Some (str "IPTV Guide!"))) = true.
Proof.
  split; [vm_compute; reflexivity |].
  apply (generateSEOFilename_is_url_safe basic_latin_lower 1700000000000
           (str "9f3a01bc") (str "My Holiday  Photo (1).JPG")
           (Some (str "IPTV Guide!"))); [lia | reflexivity].
Defined.

(** ** Cache-busting URLs *)

Lemma startsWith_app s t : startsWith (s ++ t) s = true.
Proof.
  induction s as [| c s IH]; [now destruct t |].
  cbn [app startsWith]. now rewrite N.eqb_refl, IH.
Qed.

Lemma startsWith_nil s : startsWith s [] = true.
Proof. now destruct s. Qed.

Lemma includes_one s h : includes s [h] = existsb (N.eqb h) s.
Proof.
  induction s as [| c s IH]; [reflexivity |].
  cbn [includes startsWith existsb].
  rewrite IH, startsWith_nil, andb_true_r.
  now rewrite (N.eqb_sym h c).
Qed.

Lemma count_char_app h s t :
  count_char h (s ++ t) = count_char h s + count_char h t.
Proof. unfold count_char. now rewrite filter_app, length_app. Qed.

Lemma count_char_none h s :
  forallb (fun c => negb (N.eqb h c)) s = true -> count_char h s = 0.
Proof.
  unfold count_char. induction s as [| c s IH]; [reflexivity |].
  cbn [forallb filter]. intros H. apply andb_prop in H.
  destruct H as [H1 H2]. apply negb_true_iff in H1. rewrite H1.
  now apply IH.
Qed.

Lemma count_char_exists h s :
  existsb (N.eqb h) s = Nat.ltb 0 (count_char h s).
Proof.
  unfold count_char. induction s as [| c s IH]; [reflexivity |].
  cbn [existsb filter]. destruct (N.eqb h c); [reflexivity | exact IH].
Qed.

Lemma Z_to_str_no_question z : count_char (cu "?") (Z_to_str z) = 0.
Proof.
  apply count_char_none. apply Z_to_str_forallb; [| reflexivity].
  intros d Hd. apply negb_true_iff, N.eqb_neq. unfold digit.
  change (cu "?") with 63%N. lia.
Qed.

Lemma busted_url_question suffix z url :
  count_char (cu "?") suffix = 0 ->
  count_char (cu "?")
    (url ++ (if includes url (str "?") then str "&" else str "?")
       ++ str "v=" ++ Z_to_str z ++ suffix)
  = Nat.max 1 (count_char (cu "?") url).
Proof.
  intros Hs. rewrite !count_char_app, Z_to_str_no_question, Hs.
  change (str "?") with [cu "?"]. rewrite includes_one, count_char_exists.
  destruct (Nat.ltb 0 (count_char (cu "?") url)) eqn:E.
  - apply Nat.ltb_lt in E.
    change (count_char (cu "?") (str "&")) with 0.
    change (count_char (cu "?") (str "v=")) with 0. lia.
  - apply Nat.ltb_ge in E.
    change (count_char (cu "?") [cu "?"]) with 1.
    change (count_char (cu "?") (str "v=")) with 0. lia.
Qed.

(** X6: the URL [generateCacheBustingUrl] builds extends the base URL
    and keeps its query well formed: a base URL without a question mark
    gets exactly one, a base URL with question marks gets no further
    one.  The same holds of the URL the upload form builds in
    [refreshCache]. *)
Theorem cache_busting_url_query (timestamp : Z) (baseUrl : jsstring) :
  startsWith (generateCacheBustingUrl timestamp baseUrl) baseUrl = true /\
  count_char (cu "?") (generateCacheBustingUrl timestamp baseUrl)
  = Nat.max 1 (count_char (cu "?") baseUrl) /\
  startsWith (refreshUrl timestamp baseUrl) baseUrl = true /\
  count_char (cu "?") (refreshUrl timestamp baseUrl)
  = Nat.max 1 (count_char (cu "?") baseUrl).
Proof.
  unfold generateCacheBustingUrl, refreshUrl. cbv zeta.
  repeat split; try apply startsWith_app;
    now apply busted_url_question.
Qed.

(** ** The score display *)

(** X7: the colour of the score, the colour of its bar and its label
    always belong to the same of the five bands. *)
Theorem score_display_is_consistent (score : Z) :
  exists shade label,
    In (shade, label) score_bands /\
    getScoreColor score = str "text-" ++ shade /\
    getScoreBg score = str "bg-" ++ shade /\
    getScoreLabel score = label.
Proof.
  unfold getScoreColor, getScoreBg, getScoreLabel, score_bands.
  destruct (90 <=? score)%Z;
    [| destruct (75 <=? score)%Z;
       [| destruct (60 <=? score)%Z; [| destruct (40 <=? score)%Z]]];
    eexists; eexists; (split; [| repeat split; reflexivity]);
    cbn [In]; tauto.
Qed.

(** ** The sitemap, whatever the database helper does *)

(** X8: whatever [safeDbOperation] returns, and whether the database
    answers or not, the sitemap starts with the two static entries and
    the URL of every entry extends the base URL. *)
Theorem sitemap_static_entries_first
  (safeDbOperation : forall T : Type, (unit -> option T) -> T -> option T)
  (online : bool) (db : Database) (now1 now2 : Z) :
  firstn 2 (sitemap safeDbOperation online db now1 now2)
  = [Entry.Make baseUrl now1 daily (decimal 10 10);
     Entry.Make (baseUrl ++ str "/articles") now2 daily (decimal 9 10)] /\
  forallb (fun e => startsWith (Entry.url e) baseUrl)
    (sitemap safeDbOperation online db now1 now2) = true.
Proof.
  unfold sitemap. cbv zeta. split; [reflexivity |].
  rewrite !forallb_app. cbn [forallb Entry.url].
  rewrite <- (app_nil_r baseUrl) at 2. rewrite !startsWith_app.
  cbn [andb].
  assert (M : forall (f : Row -> Entry.t) rows,
             (forall r, startsWith (Entry.url (f r)) baseUrl = true) ->
             forallb (fun e => startsWith (Entry.url e) baseUrl)
               (map f rows) = true).
  { intros f rows Hf. apply forallb_forall. intros e He.
    apply in_map_iff in He. destruct He as (r & <- & _). apply Hf. }
  rewrite !M; try reflexivity;
    intros r; unfold articlePage, categoryPage, customPage;
    cbn [Entry.url]; apply startsWith_app.
Qed.

(** ** The answers of the upload handler *)

(** X9: the handler answers 200, 400 or 500 only; and with ImageKit
    configured a 200 means that the form held a file of an allowed type
    and of at most 10485760 bytes, and that ImageKit stored it. *)
Theorem POST_success_means_validated
  (imagekit : option ImageKit) (formData : result FormData.t)
  (resp : Response.t) :
  POST imagekit formData = inr resp ->
  (Response.status resp = 200 \/ Response.status resp = 400 \/
   Response.status resp = 500) /\
  (forall upload,
     imagekit = Some upload -> Response.status resp = 200 ->
     exists fd file bytes context uploaded,
       formData = inr fd /\
       FormData.file fd = Some (FileValue file) /\
       array_includes allowedTypes (File.type file) = true /\
       (File.size file <= 10485760)%N /\
       File.arrayBuffer file = inr bytes /\
       upload bytes file context = inr uploaded /\
       Response.body resp = UploadedJson uploaded).
Proof.
  assert (E : forall (r : Response.t),
             Response.status r <> 200 ->
             (Response.status r = 400 \/ Response.status r = 500) ->
             inr r = inr resp :> result Response.t ->
             (Response.status resp = 200 \/ Response.status resp = 400 \/
              Response.status resp = 500) /\
             (forall upload,
                 imagekit = Some upload -> Response.status resp = 200 ->
                 exists fd file bytes context uploaded,
                   formData = inr fd /\
                   FormData.file fd = Some (FileValue file) /\
                   array_includes allowedTypes (File.type file) = true /\
                   (File.size file <= 10485760)%N /\
                   File.arrayBuffer file = inr bytes /\
                   upload bytes file context = inr uploaded /\
                   Response.body resp = UploadedJson uploaded)).
  { intros r Hn Hs H. inversion H; subst. split; [tauto |].
    intros upload _ H200. contradiction. }
  unfold POST, POST_body, try_catch, and_then.
  destruct imagekit as [up |]; destruct formData as [e | fd].
  - apply E; cbn; [discriminate | auto].
  - destruct (missing (FormData.file fd)) eqn:Hm;
      [apply E; cbn; [discriminate | auto] |].
    destruct (FormData.file fd) as [[file | s] |] eqn:Hf;
      try (apply E; cbn; [discriminate | auto]).
    destruct (array_includes allowedTypes (File.type file)) eqn:Ht;
      cbn [negb]; [| apply E; cbn; [discriminate | auto]].
    destruct (N.ltb maxSize (File.size file)) eqn:Hz;
      [apply E; cbn; [discriminate | auto] |].
    destruct (File.arrayBuffer file) as [e | bytes] eqn:Hb;
      [apply E; cbn; [discriminate | auto] |].
    destruct (text_field (FormData.context fd)) as [e | context];
      [apply E; cbn; [discriminate | auto] |].
    destruct (up bytes file context) as [e | uploaded] eqn:Hup;
      [apply E; cbn; [discriminate | auto] |].
    intros H; inversion H; subst. split; [cbn; auto |].
    intros upload Hu _. inversion Hu; subst.
    exists fd, file, bytes, context, uploaded.
    apply N.ltb_ge in Hz. repeat split; auto.
  - apply E; cbn; [discriminate | auto].
  - destruct (missing (FormData.file fd)); intros H; inversion H; subst;
      (split; [cbn; auto | intros upload Hu; discriminate]).
Qed.

Lemma POST_success_means_validated_witness :
  exists file,
    array_includes allowedTypes (File.type file) = true /\
    (File.size file <= 10485760)%N.
Proof.
  destruct (POST_success_means_validated (Some sample_upload)
              (inr (form_with (png_file 1000)))
              (json (UploadedJson
                       (UploadResponse.Make (str "https://ik.example/x.png")
                          (str "id1") (str "photo.png") 1000
                          (str "https://ik.example/t.png"))))
              eq_refl) as [_ H].
  destruct (H sample_upload eq_refl eq_refl)
    as (fd & file & bytes & context & uploaded & _ & _ & Ht & Hs & _).
  exists file. split; [exact Ht | exact Hs].
Defined.

(** ** The checks on images, links and slug *)

Section ChecksOfContent.
Variable toLowerCase : jsstring -> jsstring.
Variable RegExp_host : HostRegExp.

(** The checks of a record that [analyzeSEO] returns are the blocks
    below, run on the figures counted in the content. *)
Lemma analyzeSEO_checks title description content slug tags a :
  analyzeSEO toLowerCase RegExp_host title description content slug tags
  = Normal a ->
  exists d kc l3 l4 l6 l7 l8 l9,
    SEOAnalysis.content a = fst (checkContent (countWords content) l3) /\
    SEOAnalysis.keyword a
    = fst (checkKeyword toLowerCase title (getFirstParagraph content)
             (getLastParagraph content)
             (extractFocusKeyword toLowerCase title tags) d
             (countWords content) kc l4) /\
    keywordMatches RegExp_host (toLowerCase content)
      (toLowerCase (extractFocusKeyword toLowerCase title tags))
    = Normal kc /\
    SEOAnalysis.links a = fst (checkLinks (countLinks content) l6) /\
    SEOAnalysis.images a = fst (checkImages (countImages content) l7) /\
    SEOAnalysis.slug a = fst (checkSlug slug l8) /\
    SEOAnalysis.readability a
    = fst (checkReadability (calculateReadability toLowerCase content) l9).
Proof.
  intros H. apply analyzeSEO_inv in H.
  destruct H as (d & c & _ & Hc & ->).
  rewrite runChecks_chain. cbv zeta.
  cbn [SEOAnalysis.content SEOAnalysis.keyword SEOAnalysis.links
       SEOAnalysis.images SEOAnalysis.slug SEOAnalysis.readability].
  exists d, c. do 6 eexists. repeat split; try reflexivity. exact Hc.
Qed.

Lemma filter_length (A : Type) (f : A -> bool) (l : list A) :
  length (filter f l) <= length l.
Proof.
  induction l as [| x l IH]; simpl; [lia |].
  destruct (f x); simpl; lia.
Qed.

Lemma checkImages_fields total withAlt l :
  let c := fst (checkImages (total, withAlt) l) in
  withAlt <= total ->
  ImageCheck.total c = total /\ ImageCheck.withAlt c = withAlt /\
  (SEOCheck.score c = 5%Z <-> 0 < total /\ withAlt = total) /\
  (SEOCheck.score c = 3%Z <-> 0 < total /\ withAlt < total) /\
  (SEOCheck.score c = 2%Z <-> total = 0).
Proof.
  cbv zeta. unfold checkImages. intros Hle.
  destruct (Nat.eqb total 0) eqn:E0;
    [apply Nat.eqb_eq in E0 | apply Nat.eqb_neq in E0];
  (destruct (Nat.ltb withAlt total) eqn:E1;
    [apply Nat.ltb_lt in E1 | apply Nat.ltb_ge in E1]);
  cbn; repeat split; intros; try discriminate; try lia.
Qed.

(** X10: the image check, run on the images counted in any content,
    reports as total the number of image tags and never more images
    with an alternative text than images; it gives 5 points exactly
    when there is an image and every image has an alternative text, 3
    points exactly when some image lacks one, and 2 points exactly when
    there is no image. *)
Theorem images_check_counts (content : jsstring) (l : Locals) :
  let i := fst (checkImages (countImages content) l) in
  ImageCheck.total i = length (match_all re_img content) /\
  ImageCheck.withAlt i <= ImageCheck.total i /\
  (SEOCheck.score i = 5%Z <->
   0 < ImageCheck.total i /\ ImageCheck.withAlt i = ImageCheck.total i) /\
  (SEOCheck.score i = 3%Z <->
   0 < ImageCheck.total i /\ ImageCheck.withAlt i < ImageCheck.total i) /\
  (SEOCheck.score i = 2%Z <-> ImageCheck.total i = 0).
Proof.
  cbv zeta. unfold countImages.
  pose proof (filter_length _ (test re_alt) (match_all re_img content)) as L.
  destruct (checkImages_fields _ _ l L) as (-> & -> & F).
  split; [reflexivity |]. split; [exact L | exact F].
Qed.

Example countImages_sample :
  countImages (str "<img src='a.png'> <IMG alt='x' src='b.png'>") = (2, 1).
Proof. vm_compute. reflexivity. Qed.

Lemma countLinks_bound (f : nat * nat -> jsstring -> nat * nat) links acc :
  (forall a l, fst (f a l) + snd (f a l) <= S (fst a + snd a)) ->
  fst (fold_left f links acc) + snd (fold_left f links acc)
  <= fst acc + snd acc + length links.
Proof.
  intros Hf. revert acc. induction links as [| l links IH]; intros acc;
    simpl; [lia |].
  specialize (IH (f acc l)). specialize (Hf acc l). lia.
Qed.

Lemma countLinks_at_most_anchors content :
  fst (countLinks content) + snd (countLinks content)
  <= length (match_all re_anchor content).
Proof.
  unfold countLinks.
  etransitivity; [apply countLinks_bound | simpl; lia].
  intros [i e] l. destruct (match_first re_href l) as [[mt cs] |];
    [| simpl; lia].
  destruct (startsWith _ (str "/") || includes _ currentDomain)%bool;
    [simpl; lia |].
  destruct (startsWith _ (str "http")); simpl; lia.
Qed.

Lemma checkLinks_fields internal external l :
  let c := fst (checkLinks (internal, external) l) in
  LinkCheck.internal c = internal /\ LinkCheck.external c = external /\
  (SEOCheck.status c = good <-> 3 <= internal /\ 2 <= external) /\
  (SEOCheck.score c = 10%Z <->
   3 <= internal <= 7 /\ 2 <= external <= 5) /\
  (7 < internal -> 5 < external ->
   SEOCheck.score c = 8%Z /\ suggestions (snd (checkLinks (internal, external) l)) = suggestions l).
Proof.
  cbv zeta. unfold checkLinks.
  destruct (Nat.leb 3 internal) eqn:A1;
    [apply Nat.leb_le in A1 | apply Nat.leb_gt in A1];
  (destruct (Nat.leb internal 7) eqn:A2;
    [apply Nat.leb_le in A2 | apply Nat.leb_gt in A2]);
  (destruct (Nat.ltb internal 3) eqn:A3;
    [apply Nat.ltb_lt in A3 | apply Nat.ltb_ge in A3]);
  (destruct (Nat.leb 2 external) eqn:B1;
    [apply Nat.leb_le in B1 | apply Nat.leb_gt in B1]);
  (destruct (Nat.leb external 5) eqn:B2;
    [apply Nat.leb_le in B2 | apply Nat.leb_gt in B2]);
  (destruct (Nat.ltb external 2) eqn:B3;
    [apply Nat.ltb_lt in B3 | apply Nat.ltb_ge in B3]);
  try lia; cbn; repeat split; intros; try discriminate; try lia.
Qed.

(** X11: the link check, run on the links counted in any content,
    counts every anchor at most once, as internal or as external; its
    status is good exactly when there are at least 3 internal and 2
    external links, but it gives its 10 points only for 3 to 7 internal
    and 2 to 5 external links. *)
Theorem links_check_counts (content : jsstring) (l : Locals) :
  let k := fst (checkLinks (countLinks content) l) in
  LinkCheck.internal k = fst (countLinks content) /\
  LinkCheck.external k = snd (countLinks content) /\
  LinkCheck.internal k + LinkCheck.external k
  <= length (match_all re_anchor content) /\
  (SEOCheck.status k = good <->
   3 <= LinkCheck.internal k /\ 2 <= LinkCheck.external k) /\
  (SEOCheck.score k = 10%Z <->
   3 <= LinkCheck.internal k <= 7 /\ 2 <= LinkCheck.external k <= 5).
Proof.
  cbv zeta. pose proof (countLinks_at_most_anchors content) as B.
  destruct (countLinks content) as [i e]. cbn [fst snd] in B |- *.
  destruct (checkLinks_fields i e l) as (-> & -> & F1 & F2 & _).
  auto.
Qed.

(** An anchor to a fragment of the page is counted in neither. *)
Example countLinks_sample :
  countLinks
    (str "<a href='/a'>a</a> <a href='#top'>b</a> <a href='http://x'>c</a>")
  = (1, 1) /\
  length (match_all re_anchor
    (str "<a href='/a'>a</a> <a href='#top'>b</a> <a href='http://x'>c</a>"))
  = 3.
Proof. split; vm_compute; reflexivity. Qed.

(** *** The pattern of a slug *)

Lemma greedy_to_end p b s cs :
  greedy_run p (fun y => rmatch Eol y (fun w => rmatch Empty w Some)) b s cs
  = if forallb p s then Some (MState (before_after b s) [] cs) else None.
Proof.
  revert b. induction s as [| c tl IH]; intros b; [reflexivity |].
  cbn [greedy_run forallb]. destruct (p c); cbn [andb].
  - rewrite IH. cbn [rmatch rest]. rewrite orelse_none_r. reflexivity.
  - reflexivity.
Qed.

Lemma search_slug_later c s : search re_slug (Some c) s = None.
Proof.
  revert c. induction s as [| d tl IH]; intros c; cbn [search];
    unfold match_here, re_slug, seqs; cbn [fold_right rmatch before];
    [reflexivity |].
  now rewrite IH.
Qed.

Lemma test_slug s :
  test re_slug s = (nonempty s && forallb is_slug_char s)%bool.
Proof.
  unfold test. destruct s as [| c tl].
  - reflexivity.
  - cbn [search]. unfold match_here, re_slug at 1, seqs.
    cbn [fold_right]. cbn [rmatch before].
    rewrite plus_class_k. cbn [forallb nonempty].
    change (cls_accepts false [(97, 122); (48, 57); (45, 45)]%N)
      with is_slug_char.
    destruct (is_slug_char c); cbn [andb].
    + rewrite greedy_to_end. destruct (forallb is_slug_char tl);
        [reflexivity |]. now rewrite search_slug_later.
    + now rewrite search_slug_later.
Qed.

(** X12: the slug check gives 5 points exactly to a slug of 1 to 60
    code units that are all lower-case letters, digits or hyphens, no
    point exactly to the empty slug, and 3 points otherwise. *)
Theorem slug_check_accepts (slug : jsstring) (l : Locals) :
  let c := fst (checkSlug slug l) in
  (SEOCheck.score c = 5%Z <->
   1 <= length slug <= 60 /\ forallb is_slug_char slug = true) /\
  (SEOCheck.score c = 0%Z <-> slug = []) /\
  (SEOCheck.score c = 5%Z \/ SEOCheck.score c = 3%Z \/
   SEOCheck.score c = 0%Z).
Proof.
  cbv zeta. unfold checkSlug. rewrite test_slug.
  assert (N : slug = [] <-> length slug = 0)
    by (destruct slug; simpl; split; intros; try discriminate; auto).
  assert (P : 0 < length slug -> nonempty slug = true)
    by (destruct slug; simpl; intros; [lia | reflexivity]).
  destruct (Nat.eqb (length slug) 0) eqn:E0;
    [apply Nat.eqb_eq in E0 | apply Nat.eqb_neq in E0].
  - cbn. rewrite N. repeat split; intros; auto; try discriminate; try lia.
  - rewrite P by lia. cbn [andb].
    destruct (Nat.ltb 60 (length slug)) eqn:E1;
      [apply Nat.ltb_lt in E1 | apply Nat.ltb_ge in E1];
    [| destruct (forallb is_slug_char slug) eqn:E2];
    cbn; rewrite N; repeat split; intros; auto; try discriminate; try lia;
    try (destruct H; discriminate); try (destruct H; lia).
Qed.

End ChecksOfContent.

Example checkSlug_sample :
  forallb is_slug_char (str "iptv_box") = false /\
  SEOCheck.score (fst (checkSlug (str "iptv_box") (MkLocals [] 0))) = 3%Z.
Proof. split; vm_compute; reflexivity. Qed.

(** ** Counting words *)

Lemma tokens_from_nil cur s :
  tokens_from cur s = [] <-> cur = [] /\ forallb is_space s = true.
Proof.
  revert cur. induction s as [| c tl IH]; intros cur; cbn [tokens_from forallb].
  - destruct cur; split; intros H; auto; try discriminate.
    destruct H; discriminate.
  - destruct (is_space c); cbn [andb].
    + destruct cur as [| d cur]; [apply IH |].
      split; intros H; [discriminate | destruct H; discriminate].
    + rewrite IH. split; intros H; destruct H; discriminate.
Qed.

Lemma tokens_from_joined cur s c t :
  is_space c = true ->
  tokens_from cur (s ++ c :: t) = tokens_from cur s ++ tokens t.
Proof.
  intros Hc. revert cur. induction s as [| d tl IH]; intros cur;
    cbn [app tokens_from].
  - rewrite Hc. destruct cur; reflexivity.
  - destruct (is_space d); [| apply IH].
    destruct cur; rewrite IH; reflexivity.
Qed.

Lemma countWords_blank s :
  countWords s = 0 <-> forallb is_space s = true.
Proof.
  rewrite countWords_token_count. unfold token_count, tokens.
  split; intros H.
  - apply length_zero_iff_nil in H. now apply tokens_from_nil in H.
  - apply length_zero_iff_nil. apply tokens_from_nil. auto.
Qed.

(** X13: [countWords] is additive over texts joined by a whitespace
    code unit, and it is zero exactly on the texts that hold whitespace
    only. *)
Theorem countWords_joined s c t :
  is_space c = true ->
  countWords (s ++ c :: t) = countWords s + countWords t /\
  (countWords s = 0 <-> forallb is_space s = true).
Proof.
  intros Hc. split; [| apply countWords_blank].
  rewrite !countWords_token_count. unfold token_count, tokens.
  rewrite tokens_from_joined by assumption. apply length_app.
Qed.

Lemma countWords_joined_witness :
  is_space (cu " ") = true /\
  countWords (str "fast iptv" ++ cu " " :: str " box ") = 2 + 1.
Proof.
  split; [reflexivity |].
  refine (eq_trans (proj1 (countWords_joined (str "fast iptv") (cu " ")
                             (str " box ") _)) _);
    reflexivity.
Defined.

(** X14: the content check, run on the words counted in any content,
    reports the number of words of the content with its tags left in,
    and gives no point exactly when the content holds whitespace
    only. *)
Theorem content_check_empty (content : jsstring) (l : Locals) :
  let c := fst (checkContent (countWords content) l) in
  ContentCheck.wordCount c = token_count content /\
  (SEOCheck.score c = 0%Z <-> forallb is_space content = true).
Proof.
  cbv zeta.
  destruct (checkContent_table (countWords content) l) as [W T].
  rewrite W. split; [apply countWords_token_count |].
  apply (f_equal fst) in T. cbn [fst] in T. rewrite T.
  rewrite <- countWords_blank.
  unfold content_table.
  destruct (Nat.eqb (countWords content) 0) eqn:E0;
    [apply Nat.eqb_eq in E0 | apply Nat.eqb_neq in E0].
  - cbn. tauto.
  - split_ifs; cbn; split; intros; try discriminate; lia.
Qed.

(** Content made of tags only is not empty. *)
Example countWords_of_tags : countWords (str "<p> </p>") = 2.
Proof. vm_compute. reflexivity. Qed.

(** ** A keyword without syntax characters is matched literally *)

Lemma rmatch_literal A kw (k : mstate -> option A) b s cs :
  rmatch (literal kw) (MState b s cs) k
  = if startsWith s kw
    then k (MState (before_after b kw) (skipn (length kw) s) cs)
    else None.
Proof.
  revert b s. induction kw as [| d kw IH]; intros b s.
  - rewrite startsWith_nil. reflexivity.
  - unfold literal. cbn [fold_right]. fold (literal kw).
    cbn [rmatch rest]. destruct s as [| c tl]; [reflexivity |].
    cbn [startsWith xorb before caps]. rewrite in_ranges_one.
    destruct (N.eqb c d) eqn:E; cbn [andb]; [| reflexivity].
    apply N.eqb_eq in E. subst d. rewrite IH. reflexivity.
Qed.

Lemma search_literal kw b s :
  search (literal kw) b s = None <-> includes s kw = false.
Proof.
  revert b. induction s as [| c tl IH]; intros b;
    cbn [search includes]; unfold match_here; rewrite rmatch_literal.
  - destruct (startsWith [] kw); cbn [orb]; split; intros; try discriminate;
      reflexivity.
  - destruct (startsWith (c :: tl) kw); cbn [orb];
      [split; intros; discriminate |].
    rewrite <- (IH (Some c)).
    destruct (search (literal kw) (Some c) tl) as [[[skip mt] y] |];
      split; intros; try discriminate; reflexivity.
Qed.

Lemma scan_nil fuel r b s :
  fst (scan (S fuel) r b s) = [] <-> search r b s = None.
Proof.
  cbn [scan]. destruct (search r b s) as [[[skip mt] y] |];
    [| split; reflexivity].
  split; [| discriminate].
  destruct mt as [| m mt]; [destruct (rest y) as [| c tl] |].
  - discriminate.
  - destruct (shift c (scan fuel r (Some c) tl)); discriminate.
  - destruct (scan fuel r (before y) (rest y)); discriminate.
Qed.

Lemma match_all_literal kw s :
  0 < length (match_all (literal kw) s) <-> includes s kw = true.
Proof.
  unfold match_all. rewrite length_map.
  pose proof (scan_nil (length s) (literal kw) None s) as N.
  rewrite search_literal in N.
  destruct (fst (scan (S (length s)) (literal kw) None s)) as [| m ms].
  - cbn [length]. destruct N as [N _]. rewrite N by reflexivity.
    split; intros; [lia | discriminate].
  - cbn [length]. destruct (includes s kw); [split; intros; [auto | lia] |].
    destruct N as [_ N]. discriminate N. reflexivity.
Qed.

Section KeywordCount.
Variable toLowerCase : jsstring -> jsstring.
Variable RegExp_host : HostRegExp.

(** X15: when the focus keyword comes from the title, the count of the
    keyword check is positive exactly when the lowercased keyword
    occurs in the lowercased content with its tags left in: the pattern
    built of the keyword then finds what [includes] finds. *)
Theorem keyword_count_agrees_with_includes
  title description content slug tags a :
  (forall s, Forall (fun c => keeps_word_or_space c = true) s ->
             Forall (fun c => is_syntax_char c = false) (toLowerCase s)) ->
  tags = [] \/ 2 <= length (usable_words toLowerCase title) ->
  analyzeSEO toLowerCase RegExp_host title description content slug tags
  = Normal a ->
  let k := SEOAnalysis.keyword a in
  KeywordCheck.keyword k = focus_keyword toLowerCase title tags /\
  (0 < KeywordCheck.count k <->
   includes (toLowerCase content) (toLowerCase (KeywordCheck.keyword k))
   = true).
Proof.
  intros lower_plain Ht H. apply analyzeSEO_checks in H.
  destruct H as (d & kc & l3 & l4 & l6 & l7 & l8 & l9 & _ & -> & Hc & _).
  cbv zeta.
  destruct (checkKeyword_fields toLowerCase title (getFirstParagraph content)
              (getLastParagraph content)
              (extractFocusKeyword toLowerCase title tags) d
              (countWords content) kc l4) as (-> & _ & -> & _).
  split; [apply extractFocusKeyword_focus_keyword |].
  rewrite (keywordMatches_plain toLowerCase RegExp_host lower_plain) in Hc.
  - injection Hc as <-. apply match_all_literal.
  - rewrite extractFocusKeyword_focus_keyword.
    now apply focus_keyword_chars.
Qed.

End KeywordCount.

Lemma keyword_count_agrees_with_includes_witness :
  exists a,
    analyzeSEO basic_latin_lower host_rejects sample_title sample_description
      sample_content sample_slug [] = Normal a /\
    (0 < KeywordCheck.count (SEOAnalysis.keyword a) <->
     includes (basic_latin_lower sample_content)
       (basic_latin_lower (KeywordCheck.keyword (SEOAnalysis.keyword a)))
     = true).
Proof.
  eexists. split; [vm_compute; reflexivity |].
  refine (proj2 (keyword_count_agrees_with_includes basic_latin_lower
    host_rejects sample_title sample_description sample_content sample_slug
    [] _ basic_latin_lower_plain (or_introl eq_refl) _)).
  vm_compute. reflexivity.
Defined.

(** ** The readability score is clamped *)

Lemma flt_asym a b : flt a b = true -> flt b a = false.
Proof.
  unfold flt, SFltb, SFcompare.
  destruct a as [sa | sa | | sa ma ea], b as [sb | sb | | sb mb eb];
    try (destruct sa); try (destruct sb); try discriminate;
    try reflexivity;
    rewrite (Z.compare_antisym ea eb);
    destruct (Z.compare ea eb); cbn [CompOpp]; try discriminate;
    try reflexivity;
    change (Pos.compare_cont Eq mb ma) with (Pos.compare mb ma);
    change (Pos.compare_cont Eq ma mb) with (Pos.compare ma mb);
    rewrite (Pos.compare_antisym ma mb);
    destruct (Pos.compare ma mb); cbn [CompOpp]; try discriminate;
    reflexivity.
Qed.

Lemma clamp_bounds x :
  let r := Math_max (of_nat 0) (Math_min (of_nat 100) x) in
  flt r (of_nat 0) = false /\ flt (of_nat 100) r = false.
Proof.
  cbv zeta. unfold Math_min.
  change (is_nan (of_nat 100)) with false. cbn [orb].
  destruct (is_nan x) eqn:Nx; [split; reflexivity |].
  destruct (flt x (of_nat 100)) eqn:A.
  - unfold Math_max. change (is_nan (of_nat 0)) with false. rewrite Nx.
    cbn [orb]. destruct (flt (of_nat 0) x) eqn:B.
    + split; now apply flt_asym.
    + destruct (flt x (of_nat 0)); split; reflexivity.
  - destruct (flt (of_nat 100) x) eqn:D; [split; reflexivity |].
    destruct x as [[|] | | |]; try (split; reflexivity); discriminate.
Qed.

Section Readability.
Variable toLowerCase : jsstring -> jsstring.

(** X16: the readability score is never less than 0 nor greater than
    100, whatever the content. *)
Theorem calculateReadability_clamped content :
  let r := calculateReadability toLowerCase content in
  flt r (of_nat 0) = false /\ flt (of_nat 100) r = false.
Proof.
  cbv zeta. unfold calculateReadability.
  destruct (_ || _)%bool; [split; reflexivity |].
  apply clamp_bounds.
Qed.

End Readability.

(** ** The alternative text made from a file name *)

Lemma tokens_from_words cur s w :
  no_space cur = true -> In w (tokens_from cur s) ->
  w <> [] /\ no_space w = true.
Proof.
  assert (R : forall x, x <> [] -> no_space x = true ->
                        rev x <> [] /\ no_space (rev x) = true).
  { intros x Hx Hn. split.
    - intros E. apply (f_equal (@rev _)) in E.
      rewrite rev_involutive in E. now apply Hx.
    - unfold no_space in *. rewrite forallb_forall in *.
      intros c Hc. apply Hn. now apply in_rev. }
  revert cur. induction s as [| d tl IH]; intros cur Hcur Hw;
    cbn [tokens_from] in Hw.
  - destruct cur as [| a cur]; [destruct Hw |].
    destruct Hw as [<- | []]. now apply R.
  - destruct (is_space d) eqn:E.
    + destruct cur as [| a cur]; [now apply (IH []) |].
      destruct Hw as [<- | Hw]; [now apply R | now apply (IH [])].
    + apply (IH (d :: cur)); [| exact Hw].
      unfold no_space in *. cbn [forallb]. now rewrite E, Hcur.
Qed.

Lemma tokens_from_squeeze cur b s :
  (b = true -> cur = []) ->
  tokens_from cur (squeeze is_space (str " ") b s) = tokens_from cur s.
Proof.
  revert cur b. induction s as [| c tl IH]; intros cur b Hb;
    [reflexivity |].
  cbn [squeeze tokens_from]. destruct (is_space c) eqn:E.
  - destruct b.
    + rewrite (Hb eq_refl). rewrite app_nil_l. now apply IH.
    + change (str " " ++ squeeze is_space (str " ") true tl)
        with (cu " " :: squeeze is_space (str " ") true tl).
      cbn [tokens_from]. change (is_space (cu " ")) with true. cbn iota.
      destruct cur; now rewrite IH.
  - cbn [tokens_from]. rewrite E. apply IH. discriminate.
Qed.

Lemma squeeze_true_not_space s :
  starts_space (squeeze is_space (str " ") true s) = false.
Proof.
  induction s as [| c tl IH]; [reflexivity |].
  cbn [squeeze]. destruct (is_space c) eqn:E; [exact IH |].
  cbn [starts_space]. exact E.
Qed.

Lemma join_words_cons w ws :
  ws <> [] -> join_words (w :: ws) = w ++ str " " ++ join_words ws.
Proof. destruct ws; [congruence | reflexivity]. Qed.

(** Squeezing the whitespace leaves the words joined by single spaces,
    with at most one space before and one after. *)
Lemma squeeze_words cur b s :
  (b = true -> cur = []) ->
  exists lead trail,
    (lead = [] \/ lead = str " ") /\ (trail = [] \/ trail = str " ") /\
    ((b = true \/ cur <> []) -> lead = []) /\
    rev cur ++ squeeze is_space (str " ") b s
    = lead ++ join_words (tokens_from cur s) ++ trail.
Proof.
  revert cur b. induction s as [| c tl IH]; intros cur b Hb.
  - exists [], []. repeat split; auto. cbn [squeeze tokens_from].
    destruct cur; [reflexivity |]. cbn [join_words].
    now rewrite !app_nil_r.
  - cbn [squeeze tokens_from]. destruct (is_space c) eqn:E.
    + destruct (IH [] true (fun _ => eq_refl))
        as (lead & trail & _ & Ht & Hl & Heq).
      rewrite (Hl (or_introl eq_refl)) in Heq.
      cbn [rev app] in Heq.
      destruct b.
      * rewrite (Hb eq_refl). exists [], trail.
        repeat split; auto.
      * destruct cur as [| a cur].
        -- exists (str " "), trail. repeat split; auto.
           ++ intros [H | H]; [discriminate | congruence].
           ++ cbn [rev app]. now rewrite Heq.
        -- destruct (tokens_from [] tl) as [| w ws] eqn:T.
           ++ exists [], (str " "). repeat split; auto.
              cbn [join_words app] in *.
              pose proof (squeeze_true_not_space tl) as N.
              destruct Ht as [-> | ->].
              ** rewrite Heq. cbn [app]. now rewrite !app_nil_r.
              ** rewrite Heq in N. discriminate N.
           ++ exists [], trail. repeat split; auto.
              rewrite join_words_cons by discriminate.
              rewrite Heq. cbn [app]. now rewrite <- !app_assoc.
    + destruct (IH (c :: cur) false ltac:(discriminate))
        as (lead & trail & _ & Ht & Hl & Heq).
      rewrite Hl in Heq by (right; discriminate).
      exists [], trail. repeat split; auto.
      rewrite <- Heq. cbn [rev]. now rewrite <- app_assoc.
Qed.

Lemma trimStart_spaces l x :
  forallb is_space l = true -> trimStart (l ++ x) = trimStart x.
Proof.
  induction l as [| c l IH]; intros H; [reflexivity |].
  cbn [forallb] in H. apply andb_prop in H. destruct H as [Hc H].
  cbn [app trimStart]. rewrite Hc. now apply IH.
Qed.

Lemma trimStart_word x : starts_space x = false -> trimStart x = x.
Proof.
  destruct x as [| c x]; [reflexivity |]. cbn [starts_space trimStart].
  now intros ->.
Qed.

Lemma starts_space_app x y :
  x <> [] -> starts_space (x ++ y) = starts_space x.
Proof. destruct x; [congruence | reflexivity]. Qed.

Lemma trim_padded l j r :
  forallb is_space l = true -> forallb is_space r = true ->
  starts_space j = false -> starts_space (rev j) = false ->
  trim (l ++ j ++ r) = j.
Proof.
  intros Hl Hr Hj Hj'. unfold trim. rewrite trimStart_spaces by exact Hl.
  destruct j as [| c j].
  - cbn [app]. rewrite <- (app_nil_r r), trimStart_spaces by exact Hr.
    reflexivity.
  - rewrite (trimStart_word ((c :: j) ++ r)) by exact Hj.
    rewrite rev_app_distr. rewrite trimStart_spaces.
    + rewrite trimStart_word by exact Hj'. apply rev_involutive.
    + rewrite forallb_forall in *. intros d Hd. apply Hr. now apply in_rev.
Qed.

Lemma no_space_starts x : no_space x = true -> starts_space x = false.
Proof.
  destruct x as [| c x]; [reflexivity |]. unfold no_space.
  cbn [forallb starts_space].
  intros H. apply andb_prop in H. destruct H as [H _].
  now destruct (is_space c).
Qed.

Lemma no_space_rev x : no_space x = true -> no_space (rev x) = true.
Proof.
  unfold no_space. rewrite !forallb_forall. intros H c Hc.
  apply H. now apply in_rev.
Qed.

Lemma join_words_edges ws :
  Forall (fun w => w <> [] /\ no_space w = true) ws ->
  (ws <> [] -> join_words ws <> []) /\
  starts_space (join_words ws) = false /\
  starts_space (rev (join_words ws)) = false.
Proof.
  induction 1 as [| w ws [Hw Hn] Hws (IH0 & IH1 & IH2)];
    [repeat split; congruence |].
  destruct ws as [| w' ws].
  - cbn [join_words]. repeat split; auto.
    + now apply no_space_starts.
    + apply no_space_starts. now apply no_space_rev.
  - rewrite join_words_cons by discriminate.
    assert (J : join_words (w' :: ws) <> []) by (apply IH0; discriminate).
    repeat split.
    + intros _ E. apply app_eq_nil in E. now destruct E.
    + rewrite starts_space_app by exact Hw. now apply no_space_starts.
    + rewrite !rev_app_distr, <- app_assoc.
      rewrite starts_space_app; [exact IH2 |].
      intros E. apply (f_equal (@rev _)) in E.
      rewrite rev_involutive in E. now apply J.
Qed.

Lemma replace_not_alnum_space s :
  replace_all re_not_alnum_space (str " ") s = blank_others s.
Proof.
  unfold re_not_alnum_space. rewrite replace_all_class.
  unfold blank_others. induction s as [| c tl IH]; [reflexivity |].
  cbn [flat_map map]. rewrite IH. unfold cls_accepts.
  rewrite in_ranges_app. fold (is_alnum c). fold (is_space c).
  destruct (is_alnum c || is_space c)%bool; reflexivity.
Qed.

(** X17: the clean file name of [generateSmartAltText] is the runs of
    letters and digits of the file name, joined by single spaces; and
    the alternative text is that clean name between a prefix that the
    context alone decides, empty without a context, and the fixed
    ending. *)
Theorem cleanFilename_joins_words :
  (forall filename,
     let ws := tokens (blank_others filename) in
     cleanFilename filename = join_words ws /\
     Forall (fun w => w <> [] /\ forallb is_alnum w = true) ws) /\
  (forall context, exists prefix,
     (context = None \/ context = Some [] -> prefix = []) /\
     (forall c, context = Some c -> c <> [] -> prefix = c ++ str " - ") /\
     forall filename,
       generateSmartAltText context filename
       = prefix ++ join_words (tokens (blank_others filename))
           ++ str " - IPTV Guide Image").
Proof.
  assert (W : forall filename,
             Forall (fun w => w <> [] /\ no_space w = true)
               (tokens (blank_others filename)))
    by (intros filename; apply Forall_forall; intros w Hw;
        now apply (tokens_from_words [] (blank_others filename))).
  assert (C : forall filename,
             cleanFilename filename
             = join_words (tokens (blank_others filename))).
  { intros filename.
    unfold cleanFilename. rewrite replace_not_alnum_space.
    unfold re_spaces. rewrite replace_all_plus_class.
    replace (squeeze (cls_accepts false space_ranges) (str " ") false
               (blank_others filename))
      with (squeeze is_space (str " ") false (blank_others filename))
      by reflexivity.
    destruct (squeeze_words [] false (blank_others filename)
                ltac:(discriminate))
      as (lead & trail & Hl & Ht & _ & Heq).
    cbn [rev app] in Heq. rewrite Heq.
    destruct (join_words_edges _ (W filename)) as (_ & E1 & E2).
    apply trim_padded; auto.
    - now destruct Hl as [-> | ->].
    - now destruct Ht as [-> | ->]. }
  split.
  - intros filename. cbv zeta. split; [apply C |].
    apply Forall_forall. intros w Hw.
    specialize (W filename).
    rewrite Forall_forall in W. destruct (W w Hw) as [Hne Hns].
    split; [exact Hne |]. apply forallb_forall. intros c Hc.
    destruct (tokens_from_chars _ _ _ _ Hw Hc) as [[] | Hin].
    unfold no_space in Hns. rewrite forallb_forall in Hns.
    specialize (Hns c Hc). unfold blank_others in Hin.
    apply in_map_iff in Hin. destruct Hin as (d & Hd & _).
    destruct (is_alnum d) eqn:A; cbn [orb] in Hd; [now subst |].
    destruct (is_space d) eqn:S; subst c.
    + now rewrite S in Hns.
    + discriminate Hns.
  - intros context.
    exists (match context with Some ((_ :: _) as c) => c ++ str " - "
                          | _ => [] end).
    split; [intros [-> | ->]; reflexivity |].
    split.
    + intros c -> Hc. destruct c; [congruence | reflexivity].
    + intros filename. unfold generateSmartAltText. now rewrite C.
Qed.

Example cleanFilename_sample :
  generateSmartAltText (Some (str "Setup")) (str "my_photo-01 (final).PNG")
  = str "Setup - my photo 01 final PNG - IPTV Guide Image".
Proof. vm_compute. reflexivity. Qed.

(** ** Content of one paragraph *)

Lemma blank_line_none b s :
  no_double (cu "010") s = true -> match_here re_blank_line b s = None.
Proof.
  intros H. unfold match_here, re_blank_line, seqs, lit.
  cbn [fold_right]. cbn [rmatch rest].
  destruct s as [| c tl]; [reflexivity |].
  cbn [xorb before caps]. rewrite in_ranges_one.
  destruct (N.eqb c (cu "010")) eqn:E; [| reflexivity].
  rewrite plus_class_k. destruct tl as [| d tl]; [reflexivity |].
  unfold cls_accepts. cbn [xorb]. rewrite in_ranges_one.
  cbn [no_double] in H. rewrite E in H.
  destruct (N.eqb d (cu "010")); [discriminate H | reflexivity].
Qed.

Lemma split_loop_one_piece fuel b acc s :
  no_double (cu "010") s = true ->
  split_loop fuel re_blank_line b acc s = [rev acc ++ s].
Proof.
  revert b acc s. induction fuel as [| fuel IH]; intros b acc s H;
    [reflexivity |].
  destruct s as [| c tl]; cbn [split_loop]; [now rewrite app_nil_r |].
  rewrite blank_line_none by exact H.
  rewrite IH.
  - cbn [rev]. now rewrite <- app_assoc.
  - rewrite no_double_cons in H. apply andb_prop in H. tauto.
Qed.

Lemma split_one_paragraph s :
  no_double (cu "010") s = true -> split re_blank_line s = [s].
Proof.
  intros H. unfold split. destruct s as [| c tl].
  - now rewrite blank_line_none.
  - now rewrite split_loop_one_piece.
Qed.

Lemma trimStart_nil s : trimStart s = [] <-> forallb is_space s = true.
Proof.
  induction s as [| c tl IH]; [now split |].
  cbn [trimStart forallb]. destruct (is_space c); cbn [andb]; [exact IH |].
  split; intros; discriminate.
Qed.

Lemma trim_blank s : nonempty (trim s) = negb (forallb is_space s).
Proof.
  unfold trim. rewrite nonempty_rev.
  destruct (forallb is_space s) eqn:E.
  - apply trimStart_nil in E. now rewrite E.
  - cbn [negb]. destruct (trimStart s) as [| c x] eqn:T.
    + apply trimStart_nil in T. congruence.
    + assert (Hc : is_space c = false).
      { clear E. induction s as [| d tl IH]; [discriminate |].
        cbn [trimStart] in T. destruct (is_space d) eqn:D; [auto |].
        now injection T as -> _. }
      destruct (trimStart (rev (c :: x))) as [| e y] eqn:T'; [| reflexivity].
      apply trimStart_nil in T'. rewrite forallb_forall in T'.
      rewrite (T' c) in Hc; [discriminate |].
      apply in_rev. rewrite rev_involutive. now left.
Qed.

(** X18: when the content, its tags removed, holds no blank line, its
    first paragraph is that whole text, and so is its last paragraph
    unless the text is whitespace only, when the last paragraph is
    empty. *)
Theorem single_paragraph content :
  let text := remove_all re_tag content in
  no_double (cu "010") text = true ->
  getFirstParagraph content = text /\
  getLastParagraph content = (if forallb is_space text then [] else text).
Proof.
  cbv zeta. intros H. unfold getFirstParagraph, getLastParagraph.
  rewrite split_one_paragraph by exact H. split; [reflexivity |].
  cbn [filter]. rewrite trim_blank.
  now destruct (forallb is_space (remove_all re_tag content)).
Qed.

Lemma single_paragraph_witness :
  no_double (cu "010")
    (remove_all re_tag (str "<p>Fast box.</p>" ++ [10%N] ++ str "<p>Hi</p>"))
  = true /\
  getFirstParagraph (str "<p>Fast box.</p>" ++ [10%N] ++ str "<p>Hi</p>")
  = str "Fast box." ++ [10%N] ++ str "Hi".
Proof.
  split; [reflexivity |].
  refine (eq_trans (proj1 (single_paragraph
    (str "<p>Fast box.</p>" ++ [10%N] ++ str "<p>Hi</p>") _)) _);
    reflexivity.
Defined.

(** ** The checks on title, description and headings *)

Lemma checkTitle_by_length title l :
  let c := fst (checkTitle title l) in
  SEOCheck.value c = Num (length title) /\
  (SEOCheck.score c = 15%Z <-> 30 <= length title <= 60) /\
  (SEOCheck.score c = 10%Z <-> 60 < length title) /\
  (SEOCheck.score c = 7%Z <-> 1 <= length title < 30) /\
  (SEOCheck.score c = 0%Z <-> length title = 0).
Proof.
  cbv zeta. unfold checkTitle.
  destruct (Nat.eqb (length title) 0) eqn:E0;
    [apply Nat.eqb_eq in E0 | apply Nat.eqb_neq in E0];
  [| destruct (Nat.ltb (length title) 30) eqn:E1;
     [apply Nat.ltb_lt in E1 | apply Nat.ltb_ge in E1];
     [| destruct (Nat.ltb 60 (length title)) eqn:E2;
        [apply Nat.ltb_lt in E2 | apply Nat.ltb_ge in E2]]];
  cbn [fst SEOCheck.value SEOCheck.score];
  repeat split; intros; try discriminate; try lia.
Qed.

Lemma checkDescription_by_length description l :
  let c := fst (checkDescription description l) in
  SEOCheck.value c = Num (length description) /\
  (SEOCheck.score c = 10%Z <-> 120 <= length description <= 160) /\
  (SEOCheck.score c = 7%Z <-> 160 < length description) /\
  (SEOCheck.score c = 5%Z <-> 1 <= length description < 120) /\
  (SEOCheck.score c = 0%Z <-> length description = 0).
Proof.
  cbv zeta. unfold checkDescription.
  destruct (Nat.eqb (length description) 0) eqn:E0;
    [apply Nat.eqb_eq in E0 | apply Nat.eqb_neq in E0];
  [| destruct (Nat.ltb (length description) 120) eqn:E1;
     [apply Nat.ltb_lt in E1 | apply Nat.ltb_ge in E1];
     [| destruct (Nat.ltb 160 (length description)) eqn:E2;
        [apply Nat.ltb_lt in E2 | apply Nat.ltb_ge in E2]]];
  cbn [fst SEOCheck.value SEOCheck.score];
  repeat split; intros; try discriminate; try lia.
Qed.

Lemma checkHeadings_by_counts h1 h2 h3 l :
  let c := fst (checkHeadings (h1, h2, h3) l) in
  HeadingCheck.h1Count c = h1 /\ HeadingCheck.h2Count c = h2 /\
  HeadingCheck.h3Count c = h3 /\
  (SEOCheck.score c = 10%Z <-> h1 = 1 /\ 2 <= h2) /\
  (SEOCheck.score c = 7%Z <-> h1 = 1 /\ h2 < 2) /\
  (SEOCheck.score c = 5%Z <-> 1 < h1) /\
  (SEOCheck.score c = 0%Z <-> h1 = 0).
Proof.
  cbv zeta. unfold checkHeadings.
  destruct (Nat.eqb h1 0) eqn:E0;
    [apply Nat.eqb_eq in E0 | apply Nat.eqb_neq in E0];
  [| destruct (Nat.ltb 1 h1) eqn:E1;
     [apply Nat.ltb_lt in E1 | apply Nat.ltb_ge in E1];
     [| destruct (Nat.ltb h2 2) eqn:E2;
        [apply Nat.ltb_lt in E2 | apply Nat.ltb_ge in E2]]];
  cbn [fst SEOCheck.score HeadingCheck.base HeadingCheck.h1Count
       HeadingCheck.h2Count HeadingCheck.h3Count];
  repeat split; intros; try discriminate; try lia.
Qed.

(** X19: the title check and the description check judge by the
    length in code units alone, which is the value they report.  A
    title gets its 15 points exactly from 30 to 60 code units, 10
    above, 7 below and none when empty; a description gets its 10
    points exactly from 120 to 160 code units, 7 above, 5 below and
    none when empty. *)
Theorem title_and_description_by_length
  (title description : jsstring) (l1 l2 : Locals) :
  let t := fst (checkTitle title l1) in
  let d := fst (checkDescription description l2) in
  (SEOCheck.value t = Num (length title) /\
   (SEOCheck.score t = 15%Z <-> 30 <= length title <= 60) /\
   (SEOCheck.score t = 10%Z <-> 60 < length title) /\
   (SEOCheck.score t = 7%Z <-> 1 <= length title < 30) /\
   (SEOCheck.score t = 0%Z <-> length title = 0)) /\
  (SEOCheck.value d = Num (length description) /\
   (SEOCheck.score d = 10%Z <-> 120 <= length description <= 160) /\
   (SEOCheck.score d = 7%Z <-> 160 < length description) /\
   (SEOCheck.score d = 5%Z <-> 1 <= length description < 120) /\
   (SEOCheck.score d = 0%Z <-> length description = 0)).
Proof.
  cbv zeta.
  split; [apply checkTitle_by_length | apply checkDescription_by_length].
Qed.

(** X20: the heading check, run on the headings counted in any
    content, reports the numbers of opening tags of the first three
    levels and judges by the first two: 10 points exactly for one
    first-level heading and at least two second-level ones, 7 for one
    first-level heading and fewer second-level ones, 5 for several
    first-level headings and none without one. *)
Theorem headings_check_by_counts (content : jsstring) (l : Locals) :
  let h := fst (checkHeadings (countHeadings content) l) in
  HeadingCheck.h1Count h = length (match_all (re_heading "1") content) /\
  HeadingCheck.h2Count h = length (match_all (re_heading "2") content) /\
  HeadingCheck.h3Count h = length (match_all (re_heading "3") content) /\
  (SEOCheck.score h = 10%Z <->
   HeadingCheck.h1Count h = 1 /\ 2 <= HeadingCheck.h2Count h) /\
  (SEOCheck.score h = 7%Z <->
   HeadingCheck.h1Count h = 1 /\ HeadingCheck.h2Count h < 2) /\
  (SEOCheck.score h = 5%Z <-> 1 < HeadingCheck.h1Count h) /\
  (SEOCheck.score h = 0%Z <-> HeadingCheck.h1Count h = 0).
Proof.
  cbv zeta. unfold countHeadings.
  destruct (checkHeadings_by_counts
              (length (match_all (re_heading "1") content))
              (length (match_all (re_heading "2") content))
              (length (match_all (re_heading "3") content)) l)
    as (-> & -> & -> & F).
  do 3 (split; [reflexivity |]). exact F.
Qed.

(** The tag of a tenth level counts as a first-level heading, a closing
    tag does not. *)
Example countHeadings_sample :
  countHeadings
    (str "<H1>a</H1><h2 id='x'>b</h2></h1><h3>c</h3><h10>d</h10>")
  = (2, 1, 1).
Proof. vm_compute. reflexivity. Qed.

(** ** Syllables *)

Section Syllables.
Variable toLowerCase : jsstring -> jsstring.

Lemma syllables_fold (count : jsstring -> nat) words n :
  n + length words
  <= fold_left
       (fun syllables word =>
          syllables + match count word with O => 1 | m => m end)
       words n.
Proof.
  revert n. induction words as [| w ws IH]; intros n; cbn [fold_left length];
    [lia |].
  etransitivity; [| apply IH]. destruct (count w); lia.
Qed.

(** X21: [estimateSyllables] counts at least one syllable for every
    word it finds, also for a word without a vowel. *)
Theorem estimateSyllables_at_least_words text :
  length (match_all re_lower_word (toLowerCase text))
  <= estimateSyllables toLowerCase text.
Proof.
  unfold estimateSyllables.
  exact (syllables_fold (fun w => length (match_all re_vowels w))
           (match_all re_lower_word (toLowerCase text)) 0).
Qed.

End Syllables.
